(** * IoT event platform: alert evaluation, cooldown, session registry, replay

    A shallow embedding of
    - [evaluateAlertConditions]            (backend/src/schemas/alert.ts),
    - the alert processor [handler] with [getAlertRules],
      [getLastAlertForRule], [storeAlertInstance], [triggerNotification],
    - the WebSocket handler: the [connections] registry, the subscription
      handlers, [queryEventsFromDynamoDB] and [startReplay]
      (backend/src/functions/websocket-handler.ts),
    - the event processor [handler] with [storeEventInDynamoDB],
      [storeEventInS3], [emitProcessedEvent] and [emitErrorEvent],
    together with the properties the specification states about them. *)

From Stdlib Require Import ZArith String Ascii Bool Lia SpecFloat DecimalString.
From stdpp Require Import base option list gmap strings sorting.

Local Open Scope string_scope.
Local Open Scope Z_scope.

(** ** The JavaScript values the evaluator works on

    Numbers are IEEE 754 binary64 values ([spec_float] with precision 53),
    strings are sequences of code units below 256, and a payload value is
    any JSON value (or [undefined], or a function a payload inherits).  The
    runtime conversions [Number(v)] and [String(v)], which may throw, and
    the operators [<], [<=], [===] follow ECMAScript. *)
Module Js.

Definition prec : Z := 53.
Definition emax : Z := 1024.

Abbreviation number := spec_float.

Definition NaN : number := S754_nan.

(** The integer [z] as a number (rounded to nearest, ties to even). *)
Definition of_Z (z : Z) : number := binary_normalize prec emax z 0 false.

(** [x < y], [x <= y], [x > y], [x >= y] and [x === y] on numbers: every
    comparison involving [NaN] is false, and [+0 === -0]. *)
Definition num_lt (x y : number) : bool := SFltb x y.
Definition num_le (x y : number) : bool := SFleb x y.
Definition num_gt (x y : number) : bool := SFltb y x.
Definition num_ge (x y : number) : bool := SFleb y x.
Definition num_eq (x y : number) : bool := SFeqb x y.

(** The number nearest to [m * 10^e], for a decimal mantissa [m >= 0] written
    with at most [nd] digits; [neg] is the sign. *)
Definition decimalToNumber (neg : bool) (m e nd : Z) : number :=
  match m with
  | Zpos _ =>
      if 0 <=? e then
        if 400 <? e then S754_infinity neg
        else binary_normalize prec emax
               (if neg then - (m * 10 ^ e) else m * 10 ^ e) 0 neg
      else if nd + e <? -330 then S754_zero neg
      else
        let '(q, e', l) := SFdiv_core_binary prec emax m 0 (10 ^ (- e)) 0 in
        binary_round_aux prec emax neg q e' l
  | _ => S754_zero neg
  end.

(** *** StringToNumber (the grammar StringNumericLiteral) *)

Definition code (c : ascii) : Z := Z.of_N (N_of_ascii c).

Definition isStrWhiteSpaceChar (c : ascii) : bool :=
  let n := code c in
  (n =? 9) || (n =? 10) || (n =? 11) || (n =? 12) || (n =? 13)
  || (n =? 32) || (n =? 160).

Fixpoint trimStart (s : list ascii) : list ascii :=
  match s with
  | c :: r => if isStrWhiteSpaceChar c then trimStart r else s
  | [] => []
  end.

Definition trim (s : list ascii) : list ascii :=
  rev (trimStart (rev (trimStart s))).

Definition digitOf (base : Z) (c : ascii) : option Z :=
  let n := code c in
  let v := if (48 <=? n) && (n <=? 57) then Some (n - 48)
           else if (97 <=? n) && (n <=? 102) then Some (n - 87)
           else if (65 <=? n) && (n <=? 70) then Some (n - 55)
           else None in
  match v with
  | Some d => if d <? base then Some d else None
  | None => None
  end.

(** The longest run of digits at the head of [s]: its value added to
    [acc * base^n'], the number of digits read added to [n], and the rest. *)
Fixpoint readDigits (base : Z) (s : list ascii) (acc n : Z)
  : Z * Z * list ascii :=
  match s with
  | c :: r =>
      match digitOf base c with
      | Some d => readDigits base r (acc * base + d) (n + 1)
      | None => (acc, n, s)
      end
  | [] => (acc, n, s)
  end.

Definition isChar (c : ascii) (x : string) : bool :=
  bool_decide (String c EmptyString = x).

(** ExponentPart_opt followed by the end of the string. *)
Definition readExponent (s : list ascii) : option Z :=
  match s with
  | [] => Some 0
  | c :: r =>
      if isChar c "e" || isChar c "E" then
        let '(neg, r') :=
          match r with
          | d :: t => if isChar d "+" then (false, t)
                      else if isChar d "-" then (true, t) else (false, r)
          | [] => (false, r)
          end in
        let '(v, n, rest) := readDigits 10 r' 0 0 in
        match rest with
        | [] => if 0 <? n then Some (if neg then - v else v) else None
        | _ :: _ => None
        end
      else None
  end.

(** StrUnsignedDecimalLiteral. *)
Definition unsignedDecimal (neg : bool) (s : list ascii) : number :=
  if bool_decide (s = list_ascii_of_string "Infinity") then S754_infinity neg
  else
    let '(ip, ni, r1) := readDigits 10 s 0 0 in
    let '(fp, nf, r2) :=
      match r1 with
      | c :: t => if isChar c "." then readDigits 10 t 0 0 else (0, 0, r1)
      | [] => (0, 0, r1)
      end in
    if ni + nf =? 0 then NaN
    else match readExponent r2 with
         | Some ex => decimalToNumber neg (ip * 10 ^ nf + fp) (ex - nf) (ni + nf)
         | None => NaN
         end.

(** NonDecimalIntegerLiteral: the digits after [0x], [0o] or [0b]. *)
Definition nonDecimal (base : Z) (s : list ascii) : number :=
  let '(v, n, rest) := readDigits base s 0 0 in
  match rest with
  | [] => if 0 <? n then of_Z v else NaN
  | _ :: _ => NaN
  end.

Definition StringToNumber (str : string) : number :=
  match trim (list_ascii_of_string str) with
  | [] => S754_zero false
  | c :: r =>
      if isChar c "+" then unsignedDecimal false r
      else if isChar c "-" then unsignedDecimal true r
      else
        match r with
        | p :: t =>
            if isChar c "0" && (isChar p "x" || isChar p "X") then nonDecimal 16 t
            else if isChar c "0" && (isChar p "o" || isChar p "O") then nonDecimal 8 t
            else if isChar c "0" && (isChar p "b" || isChar p "B") then nonDecimal 2 t
            else unsignedDecimal false (c :: r)
        | [] => unsignedDecimal false (c :: r)
        end
  end.

(** *** Number::toString (radix 10) *)

Definition digitsOf (z : Z) : string :=
  NilZero.string_of_uint (N.to_uint (Z.to_N z)).

Fixpoint zeros (n : nat) : string :=
  match n with
  | O => ""
  | S k => String "0" (zeros k)
  end.

Fixpoint takeS (n : nat) (s : string) : string :=
  match n, s with
  | S k, String c r => String c (takeS k r)
  | _, _ => ""
  end.

Fixpoint dropS (n : nat) (s : string) : string :=
  match n, s with
  | S k, String _ r => dropS k r
  | _, _ => s
  end.

(** [num / den < 10^n]. *)
Definition below10 (num den n : Z) : bool :=
  if 0 <=? n then num <? den * 10 ^ n else num * 10 ^ (- n) <? den.

(** The least [n], from [n0] upwards, with [num / den < 10^n]. *)
Fixpoint magnitude (fuel : nat) (num den n0 : Z) : Z :=
  match fuel with
  | O => n0
  | S f => if below10 num den n0 then n0 else magnitude f num den (n0 + 1)
  end.

(** The shortest digit string [s] (of [k] digits, [k] counted upwards) with
    [s * 10^(n-k)] rounding to [x]; of two candidates the one nearer to
    [num / den], the even one on a tie. *)
Fixpoint shortest (fuel : nat) (x : number) (num den n k : Z) : Z * Z :=
  match fuel with
  | O => (0, k)
  | S f =>
      let p := n - k in
      let a := if 0 <=? p then num else num * 10 ^ (- p) in
      let b := if 0 <=? p then den * 10 ^ p else den in
      let lo := a / b in
      let r := a mod b in
      let ok s := SFeqb (decimalToNumber false s p (k + 1)) x in
      match ok lo, ok (lo + 1) with
      | true, true =>
          if (2 * r <? b) || ((2 * r =? b) && Z.even lo) then (lo, k)
          else (lo + 1, k)
      | true, false => (lo, k)
      | false, true => (lo + 1, k)
      | false, false => shortest f x num den n (k + 1)
      end
  end.

Definition formatDigits (digits : string) (k n : Z) : string :=
  if (k <=? n) && (n <=? 21) then
    digits ++ zeros (Z.to_nat (n - k))
  else if (0 <? n) && (n <=? 21) then
    takeS (Z.to_nat n) digits ++ "." ++ dropS (Z.to_nat n) digits
  else if (-6 <? n) && (n <=? 0) then
    "0." ++ zeros (Z.to_nat (- n)) ++ digits
  else
    let e := n - 1 in
    let es := (if 0 <=? e then "+" else "-") ++ digitsOf (Z.abs e) in
    if k =? 1 then digits ++ "e" ++ es
    else takeS 1 digits ++ "." ++ dropS 1 digits ++ "e" ++ es.

Definition NumberToString (x : number) : string :=
  match x with
  | S754_nan => "NaN"
  | S754_zero _ => "0"
  | S754_infinity s => if s then "-Infinity" else "Infinity"
  | S754_finite s m e =>
      let num := if 0 <=? e then Zpos m * 2 ^ e else Zpos m in
      let den := if 0 <=? e then 1 else 2 ^ (- e) in
      let b := Zpos (digits2_pos m) + e in
      let n := magnitude 8 num den ((b - 1) * 30103 / 100000 - 1) in
      let '(s0, k) := shortest 17 (S754_finite false m e) num den n 1 in
      let '(s1, n1) := if s0 =? 10 ^ k then (10 ^ (k - 1), n + 1) else (s0, n) in
      (if s then "-" else "") ++ formatDigits (digitsOf s1) k n1
  end.

(** *** Values

    A JSON value, [undefined], or a built-in function: the members every
    object inherits from [Object.prototype] are built-in functions. *)

Inductive value : Type :=
  | JUndefined
  | JNull
  | JBool (b : bool)
  | JNum (n : number)
  | JStr (s : string)
  | JArr (elems : list value)
  | JObj (props : list (string * value))
  | JFun (name : string).

(** The object has an own property of that name. *)
Definition hasOwn (name : string) (props : list (string * value)) : bool :=
  existsb (fun p => bool_decide (p.1 = name)) props.

(** [String(v)]; [None] when the conversion throws a [TypeError].

    A primitive has a string form.  A built-in function prints as its
    source text.  An object is converted by its [toString] method: an array
    by [Array.prototype.toString], which joins the string forms of the
    elements by commas, [null] and [undefined] elements printed as nothing;
    a plain object by [Object.prototype.toString], which gives
    [[object Object]], unless the object has a property [toString] of its
    own.  Such a property of a JSON value is not callable; it hides the
    inherited method, [valueOf] returns no primitive either, and the
    conversion throws. *)
Fixpoint ToString (v : value) : option string :=
  match v with
  | JUndefined => Some "undefined"
  | JNull => Some "null"
  | JBool b => Some (if b then "true" else "false")
  | JNum n => Some (NumberToString n)
  | JStr s => Some s
  | JFun name => Some ("function " ++ name ++ "() { [native code] }")
  | JArr elems =>
      (fix join (l : list value) : option string :=
         match l with
         | [] => Some ""
         | x :: r =>
             match match x with
                   | JUndefined | JNull => Some ""
                   | _ => ToString x
                   end with
             | None => None
             | Some sx =>
                 match r with
                 | [] => Some sx
                 | _ :: _ =>
                     match join r with
                     | None => None
                     | Some sr => Some (sx ++ "," ++ sr)
                     end
                 end
             end
         end) elems
  | JObj props =>
      if hasOwn "toString" props then None else Some "[object Object]"
  end.

(** [Number(v)]; [None] when the conversion throws a [TypeError].  An object
    is converted by [valueOf], which returns the object itself, and then by
    [toString] as above; the string is read as a number. *)
Definition ToNumber (v : value) : option number :=
  match v with
  | JUndefined => Some NaN
  | JNull => Some (S754_zero false)
  | JBool b => Some (if b then of_Z 1 else S754_zero false)
  | JNum n => Some n
  | JStr s => Some (StringToNumber s)
  | JArr _ | JObj _ | JFun _ => StringToNumber <$> ToString v
  end.

(** [Object.prototype]: what [o[name]] gives for a name that a plain object
    [o] has no property of its own for.  [constructor] is [Object], the
    accessor [__proto__] gives the prototype itself (an object that prints
    as [[object Object]]), the other members are the methods of their
    names, and every other name gives [undefined]. *)
Definition prototypeMethods : list string :=
  ["__defineGetter__"; "__defineSetter__"; "hasOwnProperty";
   "__lookupGetter__"; "__lookupSetter__"; "isPrototypeOf";
   "propertyIsEnumerable"; "toString"; "valueOf"; "toLocaleString"].

Definition inherited (name : string) : value :=
  if bool_decide (name = "constructor") then JFun "Object"
  else if bool_decide (name = "__proto__") then JObj []
  else if bool_decide (name ∈ prototypeMethods) then JFun name
  else JUndefined.

(** [s.includes(t)]: [t] occurs in [s] as a contiguous substring. *)
Fixpoint includes (s t : string) : bool :=
  String.prefix t s ||
  match s with
  | String _ r => includes r t
  | EmptyString => false
  end.

(** [v === w].  Two objects are equal only when they are the same object, so
    an array, an object or a function read from a payload never equals a
    value coming from a rule. *)
Definition strictEquals (v w : value) : bool :=
  match v, w with
  | JUndefined, JUndefined => true
  | JNull, JNull => true
  | JBool a, JBool b => Bool.eqb a b
  | JNum a, JNum b => num_eq a b
  | JStr a, JStr b => bool_decide (a = b)
  | _, _ => false
  end.

(** Truthiness of a number: neither zero nor [NaN]. *)
Definition truthyNum (n : number) : bool :=
  match n with
  | S754_zero _ | S754_nan => false
  | _ => true
  end.

End Js.

(** ** Alert rules and the condition evaluator (schemas/alert.ts) *)
Module Alert.
Import Js.

Inductive Operator : Type :=
  | OpGt | OpGte | OpLt | OpLte | OpEq | OpNeq | OpContains | OpNotContains.

#[global] Instance Operator_eq_dec : EqDecision Operator.
Proof. solve_decision. Defined.

(** [AlertCondition]: the schema admits a string, a number or a boolean as
    [value]; the evaluator itself accepts any value. *)
Record AlertCondition : Type := {
  field : string;
  operator : Operator;
  value : Js.value;
}.

(** A payload [Record<string, any>]: the own properties of a JSON object. *)
Abbreviation Payload := (gmap string Js.value).

(** [data[name]]: the payload's own property, or else what the payload
    inherits from [Object.prototype] under that name. *)
Definition getField (data : Payload) (name : string) : Js.value :=
  match data !! name with
  | Some v => v
  | None => inherited name
  end.

(** The [switch (condition.operator)] of the callback; [None] when a
    conversion throws.  The left operand is converted first. *)
Definition applyOperator (op : Operator) (fieldValue v : Js.value)
  : option bool :=
  match op with
  | OpGt => a ← ToNumber fieldValue; b ← ToNumber v; Some (num_gt a b)
  | OpGte => a ← ToNumber fieldValue; b ← ToNumber v; Some (num_ge a b)
  | OpLt => a ← ToNumber fieldValue; b ← ToNumber v; Some (num_lt a b)
  | OpLte => a ← ToNumber fieldValue; b ← ToNumber v; Some (num_le a b)
  | OpEq => Some (strictEquals fieldValue v)
  | OpNeq => Some (negb (strictEquals fieldValue v))
  | OpContains =>
      s ← ToString fieldValue; t ← ToString v; Some (includes s t)
  | OpNotContains =>
      s ← ToString fieldValue; t ← ToString v; Some (negb (includes s t))
  end.

(** The callback given to [conditions.every]. *)
Definition conditionHolds (data : Payload) (condition : AlertCondition)
  : option bool :=
  let fieldValue := getField data (field condition) in
  match fieldValue with
  | JUndefined | JNull => Some false
  | _ => applyOperator (operator condition) fieldValue (value condition)
  end.

(** [l.every(f)]: the elements are visited in order up to the first for
    which [f] returns false; an exception thrown by [f] is thrown on. *)
Fixpoint every {A : Type} (f : A -> option bool) (l : list A) : option bool :=
  match l with
  | [] => Some true
  | x :: r =>
      match f x with
      | Some true => every f r
      | Some false => Some false
      | None => None
      end
  end.

Definition evaluateAlertConditions
    (conditions : list AlertCondition) (data : Payload) : option bool :=
  every (conditionHolds data) conditions.

(** *** The evaluator as the specification words it

    A condition is true of a payload when the payload carries the field it
    names, not [null], and its operator relates the field's value to the
    condition's value: numeric order on the two values parsed as numbers,
    strict equality on the raw values, containment on their string forms.
    A value that has no number or no string form is not related. *)
Definition isNumericOp (op : Operator) : bool :=
  match op with
  | OpGt | OpGte | OpLt | OpLte => true
  | _ => false
  end.

Definition numericOrder (op : Operator) (a b : number) : bool :=
  match op with
  | OpGt => num_gt a b
  | OpGte => num_ge a b
  | OpLt => num_lt a b
  | OpLte => num_le a b
  | _ => false
  end.

Inductive OperatorSem (fv v : Js.value) : Operator -> Prop :=
  | sem_order op a b :
      isNumericOp op = true ->
      ToNumber fv = Some a -> ToNumber v = Some b ->
      numericOrder op a b = true ->
      OperatorSem fv v op
  | sem_eq : strictEquals fv v = true -> OperatorSem fv v OpEq
  | sem_neq : strictEquals fv v = false -> OperatorSem fv v OpNeq
  | sem_contains s t :
      ToString fv = Some s -> ToString v = Some t ->
      includes s t = true ->
      OperatorSem fv v OpContains
  | sem_not_contains s t :
      ToString fv = Some s -> ToString v = Some t ->
      includes s t = false ->
      OperatorSem fv v OpNotContains.

Inductive ConditionTrue (data : Payload) (c : AlertCondition) : Prop :=
  | condition_true fv :
      data !! field c = Some fv ->
      fv <> JNull -> fv <> JUndefined ->
      OperatorSem fv (value c) (operator c) ->
      ConditionTrue data c.

(** The field a condition refers to is missing: absent, or [null]. *)
Definition missingField (data : Payload) (c : AlertCondition) : Prop :=
  data !! field c = None \/ data !! field c = Some JNull.

(** A value fails numeric parsing: it has no number form, or its number
    form is [NaN]. *)
Definition nonNumeric (v : Js.value) : Prop :=
  ToNumber v = None \/ ToNumber v = Some NaN.

Inductive Severity : Type := info | warning | critical.

Inductive Channel : Type := ui | email | webhook.

Inductive Status : Type := active | acknowledged | resolved.

(** [AlertRule].  Durations and instants are whole numbers of seconds and
    milliseconds; they are kept as integers. *)
Record AlertRule : Type := {
  alertId : string;
  name : string;
  description : option string;
  deviceId : option string;
  conditions : list AlertCondition;
  severity : Severity;
  enabled : bool;
  notificationChannels : list Channel;
  emailRecipients : option (list string);
  webhookUrl : option string;
  cooldownPeriod : option Z;
  createdAt : Z;
  updatedAt : Z;
  userId : option string;
}.

(** The [metadata] the alert processor attaches to an instance. *)
Record InstanceMetadata : Type := {
  meta_conditions : list AlertCondition;
  meta_eventData : Payload;
}.

(** [AlertInstance].  [alertInstanceId] is the identifier [uuidv4()] drew:
    identifiers are numbered in the order they are drawn. *)
Record AlertInstance : Type := {
  alertInstanceId : nat;
  inst_alertId : string;
  alertName : string;
  inst_deviceId : option string;
  inst_severity : Severity;
  message : string;
  triggeredAt : Z;
  status : Status;
  eventId : option string;
  metadata : option InstanceMetadata;
}.

(** [createAlertInstance], given the identifier drawn by [uuidv4()] and the
    reading of [Date.now()]. *)
Definition createAlertInstance (uuid : nat) (now : Z)
    (alertId alertName message : string) (severity : Severity)
    (deviceId eventId : option string) (metadata : option InstanceMetadata)
  : AlertInstance :=
  {| alertInstanceId := uuid;
     inst_alertId := alertId;
     alertName := alertName;
     inst_deviceId := deviceId;
     inst_severity := severity;
     message := message;
     triggeredAt := now;
     status := active;
     eventId := eventId;
     metadata := metadata |}.

End Alert.

(** ** Events, filters and replay configurations (schemas/event.ts) *)
Module Events.

Record EventMetadata : Type := {
  version : string;
  tags : option (list string);
  correlationId : option string;
  meta_userId : option string;
}.

Record Event : Type := {
  id : string;
  timestamp : Z;
  source : string;
  type : string;
  data : Alert.Payload;
  metadata : option EventMetadata;
}.

Record EventFilters : Type := {
  f_sources : option (list string);
  f_types : option (list string);
  f_startTime : option Z;
  f_endTime : option Z;
  f_tags : option (list string);
  f_limit : option Z;
  f_offset : option Z;
}.

(** The [filters] member of a [ReplayConfig]. *)
Record ReplayFilters : Type := {
  r_sources : option (list string);
  r_types : option (list string);
  r_tags : option (list string);
}.

Record ReplayConfig : Type := {
  startTime : Z;
  endTime : Z;
  speed : Z;
  filters : option ReplayFilters;
}.

End Events.

(** ** The DynamoDB operations the handlers issue

    A table is the list of its items in storage order.
    - [Query] reads the items that satisfy the key condition in the order
      of the index's sort key, stops after [Limit] items read, and only then
      applies the [FilterExpression] to the items read.
    - [Scan] reads the items in storage order, stops after [Limit] items read,
      and applies the [FilterExpression] to the items read.
    - [PutItem] replaces the item that has the same primary key.
    An answer is one page; the size bound of a page is not modelled. *)
Module Ddb.
Section Operations.
Context {Item : Type}.

Fixpoint insertBy (le : Item -> Item -> bool) (x : Item) (l : list Item)
  : list Item :=
  match l with
  | [] => [x]
  | y :: r => if le x y then x :: y :: r else y :: insertBy le x r
  end.

(** A stable sort: items that [le] relates both ways keep their order. *)
Definition sortBy (le : Item -> Item -> bool) (l : list Item) : list Item :=
  foldr (insertBy le) [] l.

Definition query (keyCondition : Item -> bool) (order : Item -> Item -> bool)
    (limit : nat) (filterExpression : Item -> bool) (table : list Item)
  : list Item :=
  List.filter filterExpression
    (take limit (sortBy order (List.filter keyCondition table))).

Definition scan (limit : option nat) (filterExpression : Item -> bool)
    (table : list Item) : list Item :=
  List.filter filterExpression
    (match limit with Some n => take n table | None => table end).

Definition put (sameKey : Item -> Item -> bool) (item : Item)
    (table : list Item) : list Item :=
  item :: List.filter (fun i => negb (sameKey i item)) table.
End Operations.
End Ddb.

(** ** The alert processor (functions/alert-processor.ts)

    The handler runs against a world: the clock, the two tables, the event
    bus, the supply of identifiers and the console.  A call to a service
    either succeeds or rejects; [Services] says which calls reject.  One
    invocation sees one reading of the clock.

    The handler names two tables, [ALERT_RULES_TABLE] and [ALERTS_TABLE],
    and the world keeps the items of each apart.  Where both names denote
    one table, as in the stack of infrastructure/app.ts, a pass reads the
    rules before it writes and is the same; what the write does to the
    rules in that layout is the subject of [AlertRules] below. *)
Module Processor.
Import Js Alert Events.

(** What the handler can throw: the rejection of a service call, or the
    [TypeError] of a conversion in [evaluateAlertConditions]. *)
Inductive Error : Type :=
  | ScanRejected | QueryRejected | PutRejected | PutEventsRejected
  | ConversionThrew.

Inductive LogLine : Type :=
  | LogReceived
  | LogSkipNonTelemetry
  | LogCooldown (alertId : string)
  | LogError (e : Error).

(** The detail of an [alert.notification] entry. *)
Record Notification : Type := {
  n_alertInstance : AlertInstance;
  n_rule : AlertRule;
}.

Record World : Type := {
  now : Z;
  rulesTable : list AlertRule;
  alertsTable : list AlertInstance;
  eventBus : list Notification;
  uuids : nat;
  console : list LogLine;
}.

Record Services : Type := {
  scanRejects : bool;
  queryRejects : string -> string -> bool;
  putRejects : AlertInstance -> bool;
  putEventsRejects : AlertInstance -> bool;
}.

Inductive Result (A : Type) : Type :=
  | Ok (a : A)
  | Thrown (e : Error).
Arguments Ok {A} a.
Arguments Thrown {A} e.

(** A computation reads and updates the world and returns or throws. *)
Definition M (A : Type) : Type := World -> Result A * World.

#[global] Instance M_ret : MRet M := fun A a w => (Ok a, w).

#[global] Instance M_bind : MBind M := fun A B f m w =>
  match m w with
  | (Ok a, w') => f a w'
  | (Thrown e, w') => (Thrown e, w')
  end.

Definition throw {A : Type} (e : Error) : M A := fun w => (Thrown e, w).

(** [try { body } catch (error) { handle(error) }]. *)
Definition tryCatch {A : Type} (body : M A) (handle : Error -> M A) : M A :=
  fun w =>
    match body w with
    | (Ok a, w') => (Ok a, w')
    | (Thrown e, w') => handle e w'
    end.

(** [for (const x of l) { body }]: a rejection leaves the loop. *)
Fixpoint forEach {A : Type} (body : A -> M unit) (l : list A) : M unit :=
  match l with
  | [] => mret tt
  | x :: r => body x ≫= fun _ => forEach body r
  end.

Definition dateNow : M Z := fun w => (Ok (now w), w).

Definition uuidv4 : M nat := fun w =>
  (Ok (uuids w),
   {| now := now w; rulesTable := rulesTable w; alertsTable := alertsTable w;
      eventBus := eventBus w; uuids := S (uuids w); console := console w |}).

Definition consoleLog (l : LogLine) : M unit := fun w =>
  (Ok tt,
   {| now := now w; rulesTable := rulesTable w; alertsTable := alertsTable w;
      eventBus := eventBus w; uuids := uuids w;
      console := console w ++ [l] |}).

(** A string used as a condition: [undefined] and the empty string are falsy. *)
Definition truthyStr (s : option string) : bool :=
  match s with
  | Some x => negb (bool_decide (x = ""))
  | None => false
  end.

(** [getAlertRules]: a [Scan] with the filter [begins_with(alertId, 'rule_')]
    and no [Limit], then the filter on the device. *)
Definition getAlertRules (sv : Services) (deviceId : option string)
  : M (list AlertRule) := fun w =>
  if scanRejects sv then (Thrown ScanRejected, w)
  else
    let rules :=
      Ddb.scan None (fun r => String.prefix "rule_" (alertId r)) (rulesTable w) in
    if truthyStr deviceId then
      (Ok (List.filter
             (fun rule => negb (truthyStr (Alert.deviceId rule))
                          || bool_decide (Alert.deviceId rule = deviceId))
             rules), w)
    else (Ok rules, w).

(** The [Query] of [getLastAlertForRule] on [DeviceIndex] (partition key
    [deviceId], sort key [triggeredAt]): [ScanIndexForward: false],
    [Limit: 1], filter [alertId = :alertId]. *)
Definition queryDeviceIndex (table : list AlertInstance) (alertId : string)
    (deviceId : option string) : list AlertInstance :=
  Ddb.query
    (fun i => bool_decide (inst_deviceId i = deviceId))
    (fun a b => triggeredAt b <=? triggeredAt a)
    1
    (fun i => bool_decide (inst_alertId i = alertId))
    table.

(** [getLastAlertForRule]: [null] without a device id, else the first item
    of the answer, or [null]. *)
Definition getLastAlertForRule (sv : Services) (alertId : string)
    (deviceId : option string) : M (option AlertInstance) := fun w =>
  if negb (truthyStr deviceId) then (Ok None, w)
  else if queryRejects sv alertId (default "" deviceId)
       then (Thrown QueryRejected, w)
  else (Ok (head (queryDeviceIndex (alertsTable w) alertId deviceId)), w).

(** [storeAlertInstance]: a [PutItem] into the alerts table, whose primary
    key is [alertId] (infrastructure/app.ts). *)
Definition storeAlertInstance (sv : Services) (alertInstance : AlertInstance)
  : M unit := fun w =>
  if putRejects sv alertInstance then (Thrown PutRejected, w)
  else
    (Ok tt,
     {| now := now w; rulesTable := rulesTable w;
        alertsTable :=
          Ddb.put (fun i j => bool_decide (inst_alertId i = inst_alertId j))
                  alertInstance (alertsTable w);
        eventBus := eventBus w; uuids := uuids w; console := console w |}).

(** [triggerNotification]: one [alert.notification] entry on the bus. *)
Definition triggerNotification (sv : Services) (alertInstance : AlertInstance)
    (rule : AlertRule) : M unit := fun w =>
  if putEventsRejects sv alertInstance then (Thrown PutEventsRejected, w)
  else
    (Ok tt,
     {| now := now w; rulesTable := rulesTable w; alertsTable := alertsTable w;
        eventBus := eventBus w ++ [{| n_alertInstance := alertInstance;
                                      n_rule := rule |}];
        uuids := uuids w; console := console w |}).

(** [sensorEvent.data.deviceId], a string when the reading carries one. *)
Definition readingDeviceId (sensorEvent : Event) : option string :=
  match data sensorEvent !! "deviceId" with
  | Some (JStr s) => Some s
  | _ => None
  end.

(** The cooldown test of the loop body:
    [lastAlert && rule.cooldownPeriod] and
    [Date.now() - lastAlert.triggeredAt < rule.cooldownPeriod * 1000]. *)
Definition inCooldown (lastAlert : option AlertInstance)
    (cooldownPeriod : option Z) (now : Z) : bool :=
  match lastAlert, cooldownPeriod with
  | Some last, Some cd =>
      negb (cd =? 0) && (now - triggeredAt last <? cd * 1000)
  | _, _ => false
  end.

(** The instance the loop body creates for [rule], with the identifier and
    the clock reading it was given. *)
Definition instanceFor (sensorEvent : Event) (deviceId : option string)
    (rule : AlertRule) (uuid : nat) (t : Z) : AlertInstance :=
  createAlertInstance uuid t (alertId rule) (name rule)
    ("Alert triggered: " ++ name rule ++ " - Device: "
       ++ default "undefined" deviceId)
    (severity rule) deviceId (Some (id sensorEvent))
    (Some {| meta_conditions := conditions rule;
             meta_eventData := data sensorEvent |}).

(** The end of the loop body: create the instance, store it, notify. *)
Definition fireAlert (sv : Services) (sensorEvent : Event)
    (deviceId : option string) (rule : AlertRule) : M unit :=
  uuid ← uuidv4;
  t ← dateNow;
  let alertInstance := instanceFor sensorEvent deviceId rule uuid t in
  storeAlertInstance sv alertInstance ≫= fun _ =>
  triggerNotification sv alertInstance rule.

(** The body of [for (const rule of alertRules)]. *)
Definition processRule (sv : Services) (sensorEvent : Event)
    (deviceId : option string) (rule : AlertRule) : M unit :=
  if negb (enabled rule) then mret tt
  else if truthyStr (Alert.deviceId rule)
          && negb (bool_decide (Alert.deviceId rule = deviceId)) then mret tt
  else
    match evaluateAlertConditions (conditions rule) (data sensorEvent) with
    | None => throw ConversionThrew
    | Some true =>
        lastAlert ← getLastAlertForRule sv (alertId rule) deviceId;
        t ← dateNow;
        if inCooldown lastAlert (cooldownPeriod rule) t then
          consoleLog (LogCooldown (alertId rule))
        else fireAlert sv sensorEvent deviceId rule
    | Some false => mret tt
    end.

Definition handler (sv : Services) (telemetryEvent : Event) : M unit :=
  consoleLog LogReceived ≫= fun _ =>
  if negb (bool_decide (type telemetryEvent = "sensor_reading"))
     || negb (bool_decide (source telemetryEvent = "iot_sensors")) then
    consoleLog LogSkipNonTelemetry
  else
    let deviceId := readingDeviceId telemetryEvent in
    tryCatch
      (alertRules ← getAlertRules sv deviceId;
       forEach (processRule sv telemetryEvent deviceId) alertRules)
      (fun error => consoleLog (LogError error) ≫= fun _ => throw error).

End Processor.

(** ** The WebSocket handler (functions/websocket-handler.ts)

    The registry [connections] maps a connection id to its
    [ConnectionInfo].  The handlers of the routes and the replays started by
    [startReplay] take turns on it: a replay runs up to its next [await] and
    is resumed later, so other handlers may run between two of its
    deliveries.  [step] performs one such turn; a delivery through
    [sendToConnection] succeeds or fails as the turn's label says. *)
Module WebSocket.
Import Events.

Definition TEST_USER_ID : string := "soumithmadadi".

(** An item of the events table: the event and its [userId] attribute. *)
Record EventItem : Type := {
  item : Event;
  item_userId : option string;
}.

Record ConnectionInfo : Type := {
  connectionId : string;
  userId : option string;
  subscriptions : list string;
  deviceSubscriptions : list string;
  alertSubscriptions : bool;
  replayConfig : option ReplayConfig;
  lastActivity : Z;
}.

Definition setSubscriptions (c : ConnectionInfo) (l : list string) (t : Z)
  : ConnectionInfo :=
  {| connectionId := connectionId c; userId := userId c;
     subscriptions := l; deviceSubscriptions := deviceSubscriptions c;
     alertSubscriptions := alertSubscriptions c;
     replayConfig := replayConfig c; lastActivity := t |}.

Definition setDeviceSubscriptions (c : ConnectionInfo) (l : list string)
    (t : Z) : ConnectionInfo :=
  {| connectionId := connectionId c; userId := userId c;
     subscriptions := subscriptions c; deviceSubscriptions := l;
     alertSubscriptions := alertSubscriptions c;
     replayConfig := replayConfig c; lastActivity := t |}.

Definition setAlertSubscriptions (c : ConnectionInfo) (b : bool) (t : Z)
  : ConnectionInfo :=
  {| connectionId := connectionId c; userId := userId c;
     subscriptions := subscriptions c;
     deviceSubscriptions := deviceSubscriptions c;
     alertSubscriptions := b;
     replayConfig := replayConfig c; lastActivity := t |}.

Definition setReplayConfig (c : ConnectionInfo) (r : option ReplayConfig)
    (t : Z) : ConnectionInfo :=
  {| connectionId := connectionId c; userId := userId c;
     subscriptions := subscriptions c;
     deviceSubscriptions := deviceSubscriptions c;
     alertSubscriptions := alertSubscriptions c;
     replayConfig := r; lastActivity := t |}.

(** The [data] of [subscribe] and [unsubscribe]. *)
Record TopicData : Type := {
  sources : option (list string);
  types : option (list string);
}.

(** The [data] of [subscribe_devices] and [unsubscribe_devices]. *)
Record DeviceData : Type := {
  deviceIds : option (list string);
}.

(** A parsed message, by its [action]; [data] is absent or has the shape the
    action expects.  A body that does not parse is answered with an error
    message and leaves the registry alone, as an unknown action does. *)
Inductive Request : Type :=
  | subscribe (data : option TopicData)
  | unsubscribe (data : option TopicData)
  | subscribe_devices (data : option DeviceData)
  | unsubscribe_devices (data : option DeviceData)
  | subscribe_alerts
  | unsubscribe_alerts
  | query_events (filters : EventFilters)
  | start_replay (config : ReplayConfig)
  | stop_replay
  | ping
  | unknown (action : string).

Record WebSocketMessage : Type := {
  request : Request;
  requestId : option string;
}.

Definition actionOf (r : Request) : string :=
  match r with
  | subscribe _ => "subscribe"
  | unsubscribe _ => "unsubscribe"
  | subscribe_devices _ => "subscribe_devices"
  | unsubscribe_devices _ => "unsubscribe_devices"
  | subscribe_alerts => "subscribe_alerts"
  | unsubscribe_alerts => "unsubscribe_alerts"
  | query_events _ => "query_events"
  | start_replay _ => "start_replay"
  | stop_replay => "stop_replay"
  | ping => "ping"
  | unknown a => a
  end.

Inductive ResponseData : Type :=
  | NoData
  | Subscribed (subscribed : list string)
  | SubscribedDevices (subscribedDevices : list string)
  | AlertsSubscribed (subscribed : bool)
  | QueryResult (events : list Event)
  | ReplayStarted (config : ReplayConfig)
  | ReplayStopped
  | Pong
  | EventData (event : Event).

Record WebSocketResponse : Type := {
  action : string;
  data : ResponseData;
  error : option string;
  resp_requestId : option string;
  resp_timestamp : Z;
}.

Definition withData (r : WebSocketResponse) (d : ResponseData)
  : WebSocketResponse :=
  {| action := action r; data := d; error := error r;
     resp_requestId := resp_requestId r; resp_timestamp := resp_timestamp r |}.

Definition withError (r : WebSocketResponse) (e : string)
  : WebSocketResponse :=
  {| action := action r; data := data r; error := Some e;
     resp_requestId := resp_requestId r; resp_timestamp := resp_timestamp r |}.

(** Who sent a message to a connection: a route handler, or a replay. *)
Inductive Sender : Type :=
  | ByHandler
  | ByReplay (task : nat).

Record Sent : Type := {
  sent_to : string;
  sent_by : Sender;
  sent_msg : WebSocketResponse;
}.

(** A call of [startReplay] that has not returned: it awaits the events, or
    it is between two deliveries with [events] still to deliver. *)
Inductive ReplayTask : Type :=
  | Fetching (connectionId : string) (config : ReplayConfig)
  | Delivering (connectionId : string) (events : list Event).

Record State : Type := {
  connections : gmap string ConnectionInfo;
  eventsTable : list EventItem;
  tasks : gmap nat ReplayTask;
  nextTask : nat;
  sent : list Sent;
  clock : Z;
}.

Definition setConnections (st : State) (m : gmap string ConnectionInfo)
  : State :=
  {| connections := m; eventsTable := eventsTable st; tasks := tasks st;
     nextTask := nextTask st; sent := sent st; clock := clock st |}.

Definition setTasks (st : State) (m : gmap nat ReplayTask) : State :=
  {| connections := connections st; eventsTable := eventsTable st;
     tasks := m; nextTask := nextTask st; sent := sent st;
     clock := clock st |}.

(** [[...new Set(l)]]: the first occurrence of each element, in order. *)
Fixpoint dedupe (seen l : list string) : list string :=
  match l with
  | [] => []
  | x :: r =>
      if bool_decide (x ∈ seen) then dedupe seen r
      else x :: dedupe (x :: seen) r
  end.

Definition handleConnect (connectionId : string) (st : State) : State :=
  setConnections st
    (<[connectionId :=
         {| connectionId := connectionId; userId := None;
            subscriptions := []; deviceSubscriptions := [];
            alertSubscriptions := false; replayConfig := None;
            lastActivity := clock st |}]> (connections st)).

Definition handleDisconnect (connectionId : string) (st : State) : State :=
  setConnections st (delete connectionId (connections st)).

Definition handleSubscribe (connectionId : string) (data : option TopicData)
    (response : WebSocketResponse) (st : State) : State * WebSocketResponse :=
  match connections st !! connectionId with
  | None => (st, withError response "Connection not found")
  | Some connection =>
      let pushed1 :=
        (subscriptions connection ++ default [] (data ≫= sources))%list in
      let pushed2 := (pushed1 ++ default [] (data ≫= types))%list in
      let subs := dedupe [] pushed2 in
      (setConnections st
         (<[connectionId := setSubscriptions connection subs (clock st)]>
            (connections st)),
       withData response (Subscribed subs))
  end.

Definition handleUnsubscribe (connectionId : string) (data : option TopicData)
    (response : WebSocketResponse) (st : State) : State * WebSocketResponse :=
  match connections st !! connectionId with
  | None => (st, withError response "Connection not found")
  | Some connection =>
      let toUnsubscribe :=
        (default [] (data ≫= sources) ++ default [] (data ≫= types))%list in
      let subs :=
        List.filter (fun sub => negb (bool_decide (sub ∈ toUnsubscribe)))
          (subscriptions connection) in
      (setConnections st
         (<[connectionId := setSubscriptions connection subs (clock st)]>
            (connections st)),
       withData response (Subscribed subs))
  end.

Definition handleSubscribeDevices (connectionId : string)
    (data : option DeviceData) (response : WebSocketResponse) (st : State)
  : State * WebSocketResponse :=
  match connections st !! connectionId with
  | None => (st, withError response "Connection not found")
  | Some connection =>
      let devs :=
        match data ≫= deviceIds with
        | Some ids => dedupe [] (deviceSubscriptions connection ++ ids)%list
        | None => deviceSubscriptions connection
        end in
      (setConnections st
         (<[connectionId := setDeviceSubscriptions connection devs (clock st)]>
            (connections st)),
       withData response (SubscribedDevices devs))
  end.

Definition handleUnsubscribeDevices (connectionId : string)
    (data : option DeviceData) (response : WebSocketResponse) (st : State)
  : State * WebSocketResponse :=
  match connections st !! connectionId with
  | None => (st, withError response "Connection not found")
  | Some connection =>
      let devs :=
        match data ≫= deviceIds with
        | Some ids =>
            List.filter (fun id => negb (bool_decide (id ∈ ids)))
              (deviceSubscriptions connection)
        | None => []
        end in
      (setConnections st
         (<[connectionId := setDeviceSubscriptions connection devs (clock st)]>
            (connections st)),
       withData response (SubscribedDevices devs))
  end.

Definition handleSubscribeAlerts (connectionId : string)
    (response : WebSocketResponse) (st : State) : State * WebSocketResponse :=
  match connections st !! connectionId with
  | None => (st, withError response "Connection not found")
  | Some connection =>
      (setConnections st
         (<[connectionId := setAlertSubscriptions connection true (clock st)]>
            (connections st)),
       withData response (AlertsSubscribed true))
  end.

Definition handleUnsubscribeAlerts (connectionId : string)
    (response : WebSocketResponse) (st : State) : State * WebSocketResponse :=
  match connections st !! connectionId with
  | None => (st, withError response "Connection not found")
  | Some connection =>
      (setConnections st
         (<[connectionId := setAlertSubscriptions connection false (clock st)]>
            (connections st)),
       withData response (AlertsSubscribed false))
  end.

(** A number used as a condition: [undefined] and [0] are falsy. *)
Definition truthyNum (z : option Z) : bool :=
  match z with
  | Some n => negb (n =? 0)
  | None => false
  end.

(** [l && l.length > 0]. *)
Definition nonEmpty (l : option (list string)) : option (list string) :=
  match l with
  | Some (_ :: _) => l
  | _ => None
  end.

Definition ownedByTestUser (i : EventItem) : bool :=
  bool_decide (item_userId i = Some TEST_USER_ID).

(** [ScanIndexForward: false]: the greatest timestamp first. *)
Definition newestFirst (a b : EventItem) : bool :=
  timestamp (item b) <=? timestamp (item a).

(** [queryEventsFromDynamoDB].  With sources, one [Query] per source on
    [SourceTimestampIndex]; else with types, one [Query] per type on
    [TypeTimestampIndex]; else a [Scan].  Every call carries [Limit: limit]
    and filters on the test user; [tags] is not read. *)
Definition queryEventsFromDynamoDB (table : list EventItem)
    (filters : EventFilters) : list Event :=
  let limit := Z.to_nat (default 100 (f_limit filters)) in
  let startTime := f_startTime filters in
  let endTime := f_endTime filters in
  let between (i : EventItem) :=
    if truthyNum startTime && truthyNum endTime then
      (default 0 startTime <=? timestamp (item i))
      && (timestamp (item i) <=? default 0 endTime)
    else true in
  match nonEmpty (f_sources filters) with
  | Some srcs =>
      map item
        (List.flat_map
           (fun s =>
              Ddb.query
                (fun i => bool_decide (source (item i) = s) && between i)
                newestFirst limit ownedByTestUser table)
           srcs)
  | None =>
      match nonEmpty (f_types filters) with
      | Some tys =>
          map item
            (List.flat_map
               (fun t =>
                  Ddb.query
                    (fun i => bool_decide (type (item i) = t) && between i)
                    newestFirst limit ownedByTestUser table)
               tys)
      | None =>
          map item
            (Ddb.scan (Some limit)
               (fun i =>
                  ownedByTestUser i
                  && (if truthyNum startTime
                      then default 0 startTime <=? timestamp (item i)
                      else true)
                  && (if truthyNum endTime
                      then timestamp (item i) <=? default 0 endTime
                      else true))
               table)
      end
  end.

Definition handleQueryEvents (filters : EventFilters)
    (response : WebSocketResponse) (st : State) : State * WebSocketResponse :=
  (st, withData response
         (QueryResult (queryEventsFromDynamoDB (eventsTable st) filters))).

(** [handleStartReplay]: the configuration is stored and [startReplay] is
    called without being awaited. *)
Definition handleStartReplay (connectionId : string) (config : ReplayConfig)
    (response : WebSocketResponse) (st : State) : State * WebSocketResponse :=
  match connections st !! connectionId with
  | None => (st, withError response "Connection not found")
  | Some connection =>
      ({| connections :=
            <[connectionId := setReplayConfig connection (Some config) (clock st)]>
              (connections st);
          eventsTable := eventsTable st;
          tasks := <[nextTask st := Fetching connectionId config]> (tasks st);
          nextTask := S (nextTask st);
          sent := sent st;
          clock := clock st |},
       withData response (ReplayStarted config))
  end.

Definition handleStopReplay (connectionId : string)
    (response : WebSocketResponse) (st : State) : State * WebSocketResponse :=
  match connections st !! connectionId with
  | None => (st, withError response "Connection not found")
  | Some connection =>
      (setConnections st
         (<[connectionId := setReplayConfig connection None (clock st)]>
            (connections st)),
       withData response ReplayStopped)
  end.

(** [sendToConnection]: a failed delivery removes the connection. *)
Definition sendToConnection (by_ : Sender) (connectionId : string)
    (message : WebSocketResponse) (delivered : bool) (st : State) : State :=
  if delivered then
    {| connections := connections st; eventsTable := eventsTable st;
       tasks := tasks st; nextTask := nextTask st;
       sent := (sent st ++ [{| sent_to := connectionId; sent_by := by_;
                               sent_msg := message |}])%list;
       clock := clock st |}
  else setConnections st (delete connectionId (connections st)).

(** [handleMessage] on a parsed body. *)
Definition handleMessage (connectionId : string) (message : WebSocketMessage)
    (delivered : bool) (st : State) : State :=
  let response :=
    {| action := actionOf (request message); data := NoData; error := None;
       resp_requestId := requestId message; resp_timestamp := clock st |} in
  let '(st', response') :=
    match request message with
    | subscribe d => handleSubscribe connectionId d response st
    | unsubscribe d => handleUnsubscribe connectionId d response st
    | subscribe_devices d => handleSubscribeDevices connectionId d response st
    | unsubscribe_devices d =>
        handleUnsubscribeDevices connectionId d response st
    | subscribe_alerts => handleSubscribeAlerts connectionId response st
    | unsubscribe_alerts => handleUnsubscribeAlerts connectionId response st
    | query_events f => handleQueryEvents f response st
    | start_replay c => handleStartReplay connectionId c response st
    | stop_replay => handleStopReplay connectionId response st
    | ping => (st, withData response Pong)
    | unknown a => (st, withError response ("Unknown action: " ++ a))
    end in
  sendToConnection ByHandler connectionId response' delivered st'.

(** The filters [startReplay] queries with:
    [{ ...filters, startTime, endTime, limit: 1000 }]. *)
Definition replayFilters (config : ReplayConfig) : EventFilters :=
  {| f_sources := filters config ≫= r_sources;
     f_types := filters config ≫= r_types;
     f_startTime := Some (startTime config);
     f_endTime := Some (endTime config);
     f_tags := filters config ≫= r_tags;
     f_limit := Some 1000;
     f_offset := None |}.

(** [(a, b) => a.timestamp - b.timestamp] is negative or zero. *)
Definition byTimestamp (a b : Event) : bool := timestamp a <=? timestamp b.

(** The events of a replay, fetched and sorted. *)
Definition replayEvents (table : list EventItem) (config : ReplayConfig)
  : list Event :=
  Ddb.sortBy byTimestamp (queryEventsFromDynamoDB table (replayFilters config)).

(** The [replayMessage] of an event. *)
Definition replayMessage (event : Event) (now : Z) : WebSocketResponse :=
  {| action := "replay_event"; data := EventData event; error := None;
     resp_requestId := None; resp_timestamp := now |}.

(** One round of [for (const event of events)]: the loop ends when the list
    is exhausted or when the check of the connection fails; otherwise the
    event is sent and the replay waits [1000 / speed] ms. *)
Definition deliverNext (task : nat) (connectionId : string)
    (events : list Event) (delivered : bool) (st : State) : State :=
  match events with
  | [] => setTasks st (delete task (tasks st))
  | event :: rest =>
      match connections st !! connectionId ≫= replayConfig with
      | None => setTasks st (delete task (tasks st))
      | Some _ =>
          sendToConnection (ByReplay task) connectionId
            (replayMessage event (clock st)) delivered
            (setTasks st (<[task := Delivering connectionId rest]> (tasks st)))
      end
  end.

(** A replay is resumed: with the answer of the query, or after a wait. *)
Definition resumeReplay (task : nat) (delivered : bool) (st : State) : State :=
  match tasks st !! task with
  | None => st
  | Some (Fetching connectionId config) =>
      deliverNext task connectionId
        (replayEvents (eventsTable st) config) delivered st
  | Some (Delivering connectionId events) =>
      deliverNext task connectionId events delivered st
  end.

(** The turns: a route of the handler, or a replay resumed. *)
Inductive Turn : Type :=
  | Connect (connectionId : string)
  | Disconnect (connectionId : string)
  | Message (connectionId : string) (message : WebSocketMessage)
            (delivered : bool)
  | Resume (task : nat) (delivered : bool).

Definition step (t : Turn) (st : State) : State :=
  match t with
  | Connect c => handleConnect c st
  | Disconnect c => handleDisconnect c st
  | Message c m d => handleMessage c m d st
  | Resume k d => resumeReplay k d st
  end.

Definition run (turns : list Turn) (st : State) : State :=
  foldl (fun s t => step t s) st turns.

(** The event of a message, if replay [task] sent it to the connection. *)
Definition replayEventOf (task : nat) (connectionId : string) (s : Sent)
  : option Event :=
  match sent_by s, data (sent_msg s) with
  | ByReplay k, EventData e =>
      if bool_decide (k = task) && bool_decide (sent_to s = connectionId)
      then Some e else None
  | _, _ => None
  end.

(** The events a replay has delivered to a connection, in order. *)
Definition replayed (task : nat) (connectionId : string) (st : State)
  : list Event :=
  omap (replayEventOf task connectionId) (sent st).

(** The connection a replay delivers to, and the events it has yet to
    deliver. *)
Definition owner (t : ReplayTask) : string :=
  match t with
  | Fetching c _ => c
  | Delivering c _ => c
  end.

Definition pending (table : list EventItem) (t : ReplayTask) : list Event :=
  match t with
  | Fetching _ config => replayEvents table config
  | Delivering _ events => events
  end.

(** The connection is gone, or it has no replay configuration. *)
Definition replayCleared (st : State) (connectionId : string) : Prop :=
  connections st !! connectionId ≫= replayConfig = None.

(** The turn is a [start_replay] message of the connection. *)
Definition startsReplayFor (connectionId : string) (t : Turn) : bool :=
  match t with
  | Message c m _ =>
      match request m with
      | start_replay _ => bool_decide (c = connectionId)
      | _ => false
      end
  | _ => false
  end.

(** What a replay sends for an event. *)
Definition sentByReplay (task : nat) (connectionId : string) (now : Z)
    (event : Event) : Sent :=
  {| sent_to := connectionId; sent_by := ByReplay task;
     sent_msg := replayMessage event now |}.

End WebSocket.

(** ** Notions used to state what the alert processor does *)
Module ProcessorNotions.
Import Js Alert Events Processor.

(** The world with one more identifier drawn, an instance put into the
    alerts table, a notification put on the bus. *)
Definition drawn (w : World) : World :=
  {| now := now w; rulesTable := rulesTable w; alertsTable := alertsTable w;
     eventBus := eventBus w; uuids := S (uuids w); console := console w |}.

Definition stored (i : AlertInstance) (w : World) : World :=
  {| now := now w; rulesTable := rulesTable w;
     alertsTable :=
       Ddb.put (fun a b => bool_decide (inst_alertId a = inst_alertId b))
         i (alertsTable w);
     eventBus := eventBus w; uuids := uuids w; console := console w |}.

Definition published (i : AlertInstance) (rule : AlertRule) (w : World)
  : World :=
  {| now := now w; rulesTable := rulesTable w; alertsTable := alertsTable w;
     eventBus := eventBus w ++ [{| n_alertInstance := i; n_rule := rule |}];
     uuids := uuids w; console := console w |}.

Definition logged (l : LogLine) (w : World) : World :=
  {| now := now w; rulesTable := rulesTable w; alertsTable := alertsTable w;
     eventBus := eventBus w; uuids := uuids w; console := console w ++ [l] |}.

(** The handler goes on only with sensor readings of [iot_sensors]. *)
Definition isTelemetry (ev : Event) : bool :=
  bool_decide (type ev = "sensor_reading")
  && bool_decide (source ev = "iot_sensors").

(** The rule is enabled and is unscoped or scoped to the device [d] of the
    reading. *)
Definition applies (rule : AlertRule) (d : option string) : bool :=
  enabled rule
  && negb (truthyStr (Alert.deviceId rule)
           && negb (bool_decide (Alert.deviceId rule = d))).

(** The rule applies and its conditions match the reading. *)
Definition concerns (rule : AlertRule) (ev : Event) (d : option string)
  : bool :=
  applies rule d
  && bool_decide
       (evaluateAlertConditions (conditions rule) (Events.data ev)
        = Some true).

(** The loop passes over the rule: it does not apply, or its conditions do
    not match the reading. *)
Definition passesOver (rule : AlertRule) (ev : Event) (d : option string)
  : bool :=
  negb (applies rule d)
  || bool_decide
       (evaluateAlertConditions (conditions rule) (Events.data ev)
        = Some false).

(** The rule applies and the evaluation of its conditions throws. *)
Definition conversionThrows (rule : AlertRule) (ev : Event)
    (d : option string) : bool :=
  applies rule d
  && bool_decide
       (evaluateAlertConditions (conditions rule) (Events.data ev) = None).

(** What one round of the loop over the rules can come to. *)
Inductive RuleOutcome (sv : Services) (ev : Event) (d : option string)
    (rule : AlertRule) (w : World) : Result unit * World -> Prop :=
  | rule_skipped :
      passesOver rule ev d = true ->
      RuleOutcome sv ev d rule w (Ok tt, w)
  | rule_conversion_threw :
      conversionThrows rule ev d = true ->
      RuleOutcome sv ev d rule w (Thrown ConversionThrew, w)
  | rule_lookup_rejected :
      concerns rule ev d = true ->
      RuleOutcome sv ev d rule w (Thrown QueryRejected, w)
  | rule_in_cooldown last cd :
      concerns rule ev d = true ->
      cooldownPeriod rule = Some cd -> cd <> 0 ->
      now w - triggeredAt last < cd * 1000 ->
      inst_alertId last = alertId rule -> inst_deviceId last = d ->
      last ∈ alertsTable w ->
      RuleOutcome sv ev d rule w
        (Ok tt, logged (LogCooldown (alertId rule)) w)
  | rule_store_rejected :
      concerns rule ev d = true ->
      putRejects sv (instanceFor ev d rule (uuids w) (now w)) = true ->
      RuleOutcome sv ev d rule w (Thrown PutRejected, drawn w)
  | rule_publish_rejected :
      concerns rule ev d = true ->
      putRejects sv (instanceFor ev d rule (uuids w) (now w)) = false ->
      putEventsRejects sv (instanceFor ev d rule (uuids w) (now w)) = true ->
      RuleOutcome sv ev d rule w
        (Thrown PutEventsRejected,
         stored (instanceFor ev d rule (uuids w) (now w)) (drawn w))
  | rule_fired :
      concerns rule ev d = true ->
      putRejects sv (instanceFor ev d rule (uuids w) (now w)) = false ->
      putEventsRejects sv (instanceFor ev d rule (uuids w) (now w)) = false ->
      RuleOutcome sv ev d rule w
        (Ok tt,
         published (instanceFor ev d rule (uuids w) (now w)) rule
           (stored (instanceFor ev d rule (uuids w) (now w)) (drawn w))).

(** [w'] comes from [w] by handler activity that leaves the rules and the
    clock alone, only draws identifiers, and only adds to the console and
    to the bus. *)
Definition extends (w w' : World) : Prop :=
  rulesTable w' = rulesTable w
  /\ now w' = now w
  /\ (uuids w <= uuids w')%nat
  /\ console w `prefix_of` console w'
  /\ eventBus w `prefix_of` eventBus w'.

(** The instance [i] is what a pass over reading [ev], started in world
    [w], creates for [rule]. *)
Definition createdFor (sv : Services) (ev : Event) (w : World)
    (rule : AlertRule) (i : AlertInstance) : Prop :=
  rule ∈ rulesTable w
  /\ concerns rule ev (readingDeviceId ev) = true
  /\ (exists uuid, (uuids w <= uuid)%nat
        /\ i = instanceFor ev (readingDeviceId ev) rule uuid (now w))
  /\ putRejects sv i = false.

End ProcessorNotions.

(** ** Rules: how they are made, and the table they share with instances *)
Module AlertRules.
Import Js Alert.

(** The [options] of [createAlertRule]. *)
Record RuleOptions : Type := {
  o_description : option string;
  o_deviceId : option string;
  o_severity : option Severity;
  o_notificationChannels : option (list Channel);
  o_emailRecipients : option (list string);
  o_webhookUrl : option string;
  o_cooldownPeriod : option Z;
  o_userId : option string;
}.

(** [createAlertRule], given the identifier drawn by [uuidv4()] and the two
    readings of [Date.now()]. *)
Definition createAlertRule (uuid : string) (created updated : Z)
    (name : string) (conditions : list AlertCondition)
    (options : option RuleOptions) : AlertRule :=
  {| alertId := uuid;
     name := name;
     description := options ≫= o_description;
     deviceId := options ≫= o_deviceId;
     conditions := conditions;
     severity := default info (options ≫= o_severity);
     enabled := true;
     notificationChannels := default [ui] (options ≫= o_notificationChannels);
     emailRecipients := options ≫= o_emailRecipients;
     webhookUrl := options ≫= o_webhookUrl;
     cooldownPeriod := options ≫= o_cooldownPeriod;
     createdAt := created;
     updatedAt := updated;
     userId := options ≫= o_userId |}.

(** What [uuidv4()] returns: 32 hexadecimal digits in groups of 8, 4, 4, 4
    and 12, separated by hyphens. *)
Definition isHex (a : ascii) : bool :=
  let n := N_of_ascii a in
  ((48 <=? n) && (n <=? 57) || (97 <=? n) && (n <=? 102))%N.

Fixpoint hexes (n : nat) (s : string) : option string :=
  match n, s with
  | O, _ => Some s
  | S m, String a r => if isHex a then hexes m r else None
  | S _, EmptyString => None
  end.

Definition hyphen (s : string) : option string :=
  match s with
  | String "-" r => Some r
  | _ => None
  end.

Fixpoint hexGroups (sizes : list nat) (s : string) : option string :=
  match sizes with
  | [] => Some s
  | n :: rest =>
      match hexes n s with
      | Some r =>
          match rest with
          | [] => Some r
          | _ :: _ =>
              match hyphen r with
              | Some r' => hexGroups rest r'
              | None => None
              end
          end
      | None => None
      end
  end.

Definition isUuid (s : string) : bool :=
  match hexGroups [8; 4; 4; 4; 12]%nat s with
  | Some EmptyString => true
  | _ => false
  end.

(** In the deployed stack (infrastructure/app.ts) [ALERT_RULES_TABLE] and
    [ALERTS_TABLE] name one table, with the partition key [alertId] and no
    sort key: its items are rules and instances. *)
Inductive AlertsItem : Type :=
  | RuleItem (rule : AlertRule)
  | InstanceItem (instance : AlertInstance).

Definition keyOf (x : AlertsItem) : string :=
  match x with
  | RuleItem rule => alertId rule
  | InstanceItem instance => inst_alertId instance
  end.

(** The [PutItem] of [storeAlertInstance] on that table. *)
Definition putInstance (instance : AlertInstance) (table : list AlertsItem)
  : list AlertsItem :=
  Ddb.put (fun a b => bool_decide (keyOf a = keyOf b))
    (InstanceItem instance) table.

(** The [Scan] of [getAlertRules] on that table. *)
Definition scanForRules (table : list AlertsItem) : list AlertsItem :=
  Ddb.scan None (fun x => String.prefix "rule_" (keyOf x)) table.

(** An item of the scan's answer, read as an [AlertRule]: a rule is itself;
    of an instance the loop reads [deviceId] and [enabled], which the
    instance does not have. *)
Definition readAs (x : AlertsItem) (r : AlertRule) : Prop :=
  match x with
  | RuleItem rule => r = rule
  | InstanceItem instance =>
      alertId r = inst_alertId instance
      /\ Alert.deviceId r = inst_deviceId instance
      /\ enabled r = false
  end.

End AlertRules.

(** ** [broadcastEvent] and notions used to state what the WebSocket
    handler does *)
Module WebSocketNotions.
Import Events WebSocket.

(** The message of [broadcastEvent]. *)
Definition eventMessage (event : Event) (now : Z) : WebSocketResponse :=
  {| action := "event"; data := EventData event; error := None;
     resp_requestId := None; resp_timestamp := now |}.

(** [broadcastEvent]: one [sendToConnection] per key of the registry, taken
    when the function is called; [delivered] says which deliveries succeed.
    The calls are taken as one turn, in the order in which the map lists
    its keys, which is not the registry's insertion order. *)
Definition broadcastEvent (event : Event) (delivered : string -> bool)
    (st : State) : State :=
  foldl
    (fun s c =>
       sendToConnection ByHandler c (eventMessage event (clock st))
         (delivered c) s)
    st (map_to_list (connections st)).*1.

(** What [broadcastEvent] sends to a connection. *)
Definition sentByBroadcast (event : Event) (now : Z) (connectionId : string)
  : Sent :=
  {| sent_to := connectionId; sent_by := ByHandler;
     sent_msg := eventMessage event now |}.

(** The switch of [handleMessage]: the handler of the message's action, run
    on the response that echoes the action and the request id. *)
Definition dispatch (connectionId : string) (message : WebSocketMessage)
    (st : State) : State * WebSocketResponse :=
  let response :=
    {| action := actionOf (request message); data := NoData; error := None;
       resp_requestId := requestId message; resp_timestamp := clock st |} in
  match request message with
  | subscribe d => handleSubscribe connectionId d response st
  | unsubscribe d => handleUnsubscribe connectionId d response st
  | subscribe_devices d => handleSubscribeDevices connectionId d response st
  | unsubscribe_devices d =>
      handleUnsubscribeDevices connectionId d response st
  | subscribe_alerts => handleSubscribeAlerts connectionId response st
  | unsubscribe_alerts => handleUnsubscribeAlerts connectionId response st
  | query_events f => handleQueryEvents f response st
  | start_replay c => handleStartReplay connectionId c response st
  | stop_replay => handleStopReplay connectionId response st
  | ping => (st, withData response Pong)
  | unknown a => (st, withError response ("Unknown action: " ++ a))
  end.

(** The actions whose handler looks the session up in the registry. *)
Definition needsSession (r : Request) : bool :=
  match r with
  | query_events _ | ping | unknown _ => false
  | _ => true
  end.

(** The connection a turn is about: the one named by the route, or the one
    the resumed replay delivers to. *)
Definition turnConnection (st : State) (t : Turn) : option string :=
  match t with
  | Connect c => Some c
  | Disconnect c => Some c
  | Message c _ _ => Some c
  | Resume k _ => owner <$> tasks st !! k
  end.

(** No session lists a topic or a device twice. *)
Definition duplicateFree (st : State) : Prop :=
  forall c conn, connections st !! c = Some conn ->
    NoDup (subscriptions conn) /\ NoDup (deviceSubscriptions conn).

(** The topics and the devices a message names. *)
Definition namedTopics (d : option TopicData) : list string :=
  (default [] (d ≫= sources) ++ default [] (d ≫= types))%list.

(** The number of [Query] or [Scan] calls [queryEventsFromDynamoDB] issues. *)
Definition callsIssued (filters : EventFilters) : nat :=
  match nonEmpty (f_sources filters) with
  | Some srcs => length srcs
  | None =>
      match nonEmpty (f_types filters) with
      | Some tys => length tys
      | None => 1
      end
  end.

(** The filters with the window replaced. *)
Definition withWindow (filters : EventFilters) (startTime endTime : option Z)
  : EventFilters :=
  {| f_sources := f_sources filters; f_types := f_types filters;
     f_startTime := startTime; f_endTime := endTime;
     f_tags := f_tags filters; f_limit := f_limit filters;
     f_offset := f_offset filters |}.

(** *** What a replay asks the store for

    The reading of a replay request that [queryEventsFromDynamoDB]
    implements: the window, and the sources when the filter names any, or
    else the types when it names any.  The tags take no part. *)
Definition inWindow (config : ReplayConfig) (e : Event) : bool :=
  (startTime config <=? timestamp e) && (timestamp e <=? endTime config).

Definition matchesFilter (config : ReplayConfig) (e : Event) : bool :=
  match nonEmpty (filters config ≫= r_sources) with
  | Some srcs => bool_decide (source e ∈ srcs)
  | None =>
      match nonEmpty (filters config ≫= r_types) with
      | Some tys => bool_decide (type e ∈ tys)
      | None => true
      end
  end.

(** The stored items a replay is to deliver: those of the test account, in
    the window, that match the filter. *)
Definition requested (config : ReplayConfig) (i : EventItem) : bool :=
  ownedByTestUser i && inWindow config (item i)
  && matchesFilter config (item i).

End WebSocketNotions.

(** ** The event processor (functions/event-processor.ts)

    The handler runs against a world: the clock, the events table, the
    bucket, the event bus and the console.  Every [Date.now()] is a reading
    of its own.  A call to a service succeeds or rejects with an error
    message; [Services] says which calls reject.  The events table rejects
    every item that does not fit its keys (infrastructure/app.ts): [id] and
    [timestamp] are the key of the table, a string and a number, and
    [source] and [type] are keys of its indexes, strings; a string that is
    a key is not empty. *)
Module EventProcessor.
Import Js.

(** A value used as a condition. *)
Definition truthy (v : value) : bool :=
  match v with
  | JUndefined | JNull => false
  | JBool b => b
  | JNum n => truthyNum n
  | JStr s => negb (bool_decide (s = ""))
  | JArr _ | JObj _ | JFun _ => true
  end.

(** [v.name] for the members the handler reads ([id], [source], [type],
    [timestamp], [data], [metadata]): the property of an object, and
    [undefined] on every other value but [null] and [undefined], where the
    access throws; the callers below say where that happens. *)
Definition member (name : string) (v : value) : value :=
  match v with
  | JObj props =>
      match List.find (fun p => bool_decide (p.1 = name)) props with
      | Some p => p.2
      | None => JUndefined
      end
  | _ => JUndefined
  end.

(** [v === undefined || v === null]. *)
Definition nullish (v : value) : bool :=
  match v with
  | JUndefined | JNull => true
  | _ => false
  end.

Inductive Error : Type :=
  | SyntaxError (message : string)
  | InvalidStructure
  | TypeError (message : string)
  | Rejected (message : string).

(** [error.message]. *)
Definition messageOf (e : Error) : string :=
  match e with
  | SyntaxError m | TypeError m | Rejected m => m
  | InvalidStructure => "Invalid event structure"
  end.

(** The texts of the [TypeError]s: for [v.name] on [null] or [undefined],
    for an object that has no string form, and for a call of a [toString]
    that is no function. *)
Definition cannotRead (v : value) (name : string) : string :=
  "Cannot read properties of "
  ++ match v with JNull => "null" | _ => "undefined" end
  ++ " (reading '" ++ name ++ "')".

Definition cannotConvert : string :=
  "Cannot convert object to primitive value".

Definition notAFunction : string :=
  "event.timestamp.toString is not a function".

(** An item of the events table, as [storeEventInDynamoDB] builds it. *)
Record Item : Type := {
  item_id : value;
  item_timestamp : value;
  item_source : value;
  item_type : value;
  item_data : value;
  item_metadata : value;
  ttl : Z;
  createdAt : Z;
  updatedAt : Z;
}.

(** An object of the bucket, as [storeEventInS3] builds it. *)
Record S3Object : Type := {
  body : value;
  contentType : string;
  meta_event_id : value;
  meta_event_source : value;
  meta_event_type : value;
  meta_timestamp : string;
}.

(** The entries the handler puts on the bus, by [DetailType]. *)
Inductive Entry : Type :=
  | EventProcessed (originalEvent : value) (processedAt : Z)
  | EventError (originalEvent : value) (error : string) (timestamp : Z).

Inductive LogLine : Type :=
  | LogReceived
  | LogStoredInDynamoDB (id : value)
  | LogStoredInS3 (key : string)
  | LogProcessedEmitted (id : value)
  | LogProcessed (id : value)
  | LogError (eventId : value) (message : string)
  | LogErrorEmitted (id : value).

Record World : Type := {
  clock : nat -> Z;
  reads : nat;
  eventsTable : list Item;
  bucket : gmap string S3Object;
  eventBus : list Entry;
  console : list LogLine;
}.

(** [putRejects] is asked about the items that fit the keys of the table;
    [validationMessage] is the message of the rejection of one that does
    not. *)
Record Services : Type := {
  putRejects : Item -> option string;
  validationMessage : Item -> string;
  putObjectRejects : string -> S3Object -> option string;
  putEventsRejects : Entry -> option string;
}.

Record EventProcessorResponse : Type := {
  success : bool;
  eventId : value;
  timestamp : Z;
  errors : option (list string);
}.

(** [event.detail] after [typeof event.detail === 'string' ?
    JSON.parse(event.detail) : event.detail]: the parse throws, or there is
    a value. *)
Inductive Detail : Type :=
  | Unparsable (message : string)
  | Parsed (eventData : value).

Inductive Result (A : Type) : Type :=
  | Ok (a : A)
  | Thrown (e : Error).
Arguments Ok {A} a.
Arguments Thrown {A} e.

Definition M (A : Type) : Type := World -> Result A * World.

#[global] Instance M_ret : MRet M := fun A a w => (Ok a, w).

#[global] Instance M_bind : MBind M := fun A B f m w =>
  match m w with
  | (Ok a, w') => f a w'
  | (Thrown e, w') => (Thrown e, w')
  end.

Definition throw {A : Type} (e : Error) : M A := fun w => (Thrown e, w).

Definition tryCatch {A : Type} (body : M A) (handle : Error -> M A) : M A :=
  fun w =>
    match body w with
    | (Ok a, w') => (Ok a, w')
    | (Thrown e, w') => handle e w'
    end.

Definition dateNow : M Z := fun w =>
  (Ok (clock w (reads w)),
   {| clock := clock w; reads := S (reads w); eventsTable := eventsTable w;
      bucket := bucket w; eventBus := eventBus w; console := console w |}).

Definition consoleLog (l : LogLine) : M unit := fun w =>
  (Ok tt,
   {| clock := clock w; reads := reads w; eventsTable := eventsTable w;
      bucket := bucket w; eventBus := eventBus w;
      console := (console w ++ [l])%list |}).

(** A line that prints a value inside a template literal: the value is
    converted to a string, which may throw. *)
Definition consoleLogOf (line : value -> LogLine) (v : value) : M unit :=
  match ToString v with
  | None => throw (TypeError cannotConvert)
  | Some _ => consoleLog (line v)
  end.

(** The events table has the partition key [id] and the sort key
    [timestamp]. *)
Definition sameKey (a b : Item) : bool :=
  strictEquals (item_id a) (item_id b)
  && strictEquals (item_timestamp a) (item_timestamp b).

(** A value that can be a string key: a string that is not empty. *)
Definition keyString (v : value) : bool :=
  match v with
  | JStr s => negb (bool_decide (s = ""))
  | _ => false
  end.

(** The item fits the keys of the table and of its indexes. *)
Definition wellKeyed (item : Item) : bool :=
  keyString (item_id item)
  && match item_timestamp item with JNum _ => true | _ => false end
  && keyString (item_source item)
  && keyString (item_type item).

Definition putItem (sv : Services) (item : Item) : M unit := fun w =>
  if negb (wellKeyed item) then
    (Thrown (Rejected (validationMessage sv item)), w)
  else
    match putRejects sv item with
    | Some m => (Thrown (Rejected m), w)
    | None =>
        (Ok tt,
         {| clock := clock w; reads := reads w;
            eventsTable := Ddb.put sameKey item (eventsTable w);
            bucket := bucket w; eventBus := eventBus w;
            console := console w |})
    end.

Definition putObject (sv : Services) (key : string) (object : S3Object)
  : M unit := fun w =>
  match putObjectRejects sv key object with
  | Some m => (Thrown (Rejected m), w)
  | None =>
      (Ok tt,
       {| clock := clock w; reads := reads w; eventsTable := eventsTable w;
          bucket := <[key := object]> (bucket w);
          eventBus := eventBus w; console := console w |})
  end.

Definition putEvents (sv : Services) (entry : Entry) : M unit := fun w =>
  match putEventsRejects sv entry with
  | Some m => (Thrown (Rejected m), w)
  | None =>
      (Ok tt,
       {| clock := clock w; reads := reads w; eventsTable := eventsTable w;
          bucket := bucket w; eventBus := (eventBus w ++ [entry])%list;
          console := console w |})
  end.

(** [Math.floor(Date.now() / 1000) + (30 * 24 * 60 * 60)], then the item,
    whose [createdAt] and [updatedAt] are two more readings. *)
Definition storeEventInDynamoDB (sv : Services) (event : value) : M unit :=
  t ← dateNow;
  created ← dateNow;
  updated ← dateNow;
  putItem sv
    {| item_id := member "id" event;
       item_timestamp := member "timestamp" event;
       item_source := member "source" event;
       item_type := member "type" event;
       item_data := member "data" event;
       item_metadata :=
         if truthy (member "metadata" event) then member "metadata" event
         else JObj [];
       ttl := t / 1000 + 30 * 24 * 60 * 60;
       createdAt := created;
       updatedAt := updated |};;
  consoleLogOf LogStoredInDynamoDB (member "id" event).

(** The key [`events/${event.source}/${event.type}/${event.id}.json`];
    [None] when one of the three has no string form. *)
Definition objectKey (event : value) : option string :=
  source ← ToString (member "source" event);
  type ← ToString (member "type" event);
  id ← ToString (member "id" event);
  Some ("events/" ++ source ++ "/" ++ type ++ "/" ++ id ++ ".json").

(** The key is built first.  [event.timestamp.toString()] throws when the
    event has no timestamp, and when the timestamp has no string form. *)
Definition storeEventInS3 (sv : Services) (event : value) : M unit :=
  match objectKey event with
  | None => throw (TypeError cannotConvert)
  | Some key =>
      if nullish (member "timestamp" event) then
        throw (TypeError (cannotRead (member "timestamp" event) "toString"))
      else
        match ToString (member "timestamp" event) with
        | None =>
            throw (TypeError match member "timestamp" event with
                             | JArr _ => cannotConvert
                             | _ => notAFunction
                             end)
        | Some timestamp =>
            putObject sv key
              {| body := event;
                 contentType := "application/json";
                 meta_event_id := member "id" event;
                 meta_event_source := member "source" event;
                 meta_event_type := member "type" event;
                 meta_timestamp := timestamp |};;
            consoleLog (LogStoredInS3 key)
        end
  end.

Definition emitProcessedEvent (sv : Services) (event : value) : M unit :=
  processedAt ← dateNow;
  putEvents sv (EventProcessed event processedAt);;
  consoleLogOf LogProcessedEmitted (member "id" event).

(** After the entry is sent, the line for the console reads [event.id],
    which throws when the event is [null] or [undefined], and prints it. *)
Definition emitErrorEvent (sv : Services) (event : value)
    (errorMessage : string) : M unit :=
  t ← dateNow;
  putEvents sv (EventError event errorMessage t);;
  if nullish event then throw (TypeError (cannotRead event "id"))
  else consoleLogOf LogErrorEmitted (member "id" event).

(** [!eventData || !eventData.id || !eventData.source || !eventData.type]. *)
Definition invalid (eventData : value) : bool :=
  negb (truthy eventData)
  || negb (truthy (member "id" eventData))
  || negb (truthy (member "source" eventData))
  || negb (truthy (member "type" eventData)).

(** [eventData?.id || 'unknown']. *)
Definition idOrUnknown (eventData : value) : value :=
  if truthy (member "id" eventData) then member "id" eventData
  else JStr "unknown".

(** [eventData] is assigned once the parse has returned. *)
Definition eventDataOf (detail : Detail) : value :=
  match detail with
  | Unparsable _ => JUndefined
  | Parsed v => v
  end.

Definition handler (sv : Services) (detail : Detail)
  : M EventProcessorResponse :=
  consoleLog LogReceived;;
  timestamp ← dateNow;
  tryCatch
    (match detail with
     | Unparsable m => throw (SyntaxError m)
     | Parsed eventData =>
         (if invalid eventData then throw InvalidStructure else mret tt);;
         storeEventInDynamoDB sv eventData;;
         storeEventInS3 sv eventData;;
         emitProcessedEvent sv eventData;;
         consoleLogOf LogProcessed (member "id" eventData);;
         mret {| success := true; eventId := member "id" eventData;
                 timestamp := timestamp; errors := None |}
     end)
    (fun error =>
       let eventData := eventDataOf detail in
       let errorMessage := messageOf error in
       consoleLogOf (fun eventId => LogError eventId errorMessage)
         (idOrUnknown eventData);;
       emitErrorEvent sv eventData errorMessage;;
       mret {| success := false; eventId := idOrUnknown eventData;
               timestamp := timestamp; errors := Some [errorMessage] |}).

End EventProcessor.

(** ** Concrete rules, readings and worlds *)
Module Examples.
Import Js Alert Events Processor.

Definition valueAbove40 : AlertCondition :=
  {| field := "value"; operator := OpGt; value := JNum (of_Z 40) |}.

Definition mkRule (alertId : string) (deviceId : option string)
    (cooldownPeriod : option Z) : AlertRule :=
  {| alertId := alertId; name := "High value"; description := None;
     deviceId := deviceId; conditions := [valueAbove40];
     severity := critical; enabled := true; notificationChannels := [ui];
     emailRecipients := None; webhookUrl := None;
     cooldownPeriod := cooldownPeriod;
     createdAt := 1; updatedAt := 1; userId := None |}.

(** A condition on a field the readings do not carry. *)
Definition humidityIsNotX : AlertCondition :=
  {| field := "humidity"; operator := OpNeq; value := JStr "x" |}.

(** A numeric comparison with a value that is not a number. *)
Definition valueAboveAbc : AlertCondition :=
  {| field := "value"; operator := OpGt; value := JStr "abc" |}.

Definition ruleA : AlertRule := mkRule "rule_A" (Some "d1") (Some 60).
Definition ruleB : AlertRule := mkRule "rule_B" (Some "d1") (Some 60).
Definition ruleG : AlertRule := mkRule "rule_G" None (Some 60).

(** A sensor reading of device [d1] with value 45. *)
Definition reading45 : Event :=
  {| id := "e1"; timestamp := 1; source := "iot_sensors";
     type := "sensor_reading";
     data := {[ "deviceId" := JStr "d1"; "value" := JNum (of_Z 45) ]};
     metadata := None |}.

Definition firedAt (alertId : string) (uuid : nat) (t : Z) : AlertInstance :=
  createAlertInstance uuid t alertId "High value"
    "Alert triggered: High value - Device: d1" critical (Some "d1")
    (Some "e0") None.

(** Every service call succeeds. *)
Definition reliable : Services :=
  {| scanRejects := false; queryRejects := fun _ _ => false;
     putRejects := fun _ => false; putEventsRejects := fun _ => false |}.

(** Storing an instance of [rule_A] is rejected. *)
Definition putOfARejected : Services :=
  {| scanRejects := false; queryRejects := fun _ _ => false;
     putRejects := fun i => bool_decide (inst_alertId i = "rule_A");
     putEventsRejects := fun _ => false |}.

Definition mkWorld (now : Z) (rules : list AlertRule)
    (alerts : list AlertInstance) : World :=
  {| now := now; rulesTable := rules; alertsTable := alerts;
     eventBus := []; uuids := 7; console := [] |}.

(** *** Sessions, stored events and replays *)

Definition mkEvent (id : string) (t : Z) (source type : string)
    (tags : list string) : Event :=
  {| id := id; timestamp := t; source := source; type := type; data := ∅;
     metadata := Some {| version := "1.0.0"; tags := Some tags;
                         correlationId := None; meta_userId := None |} |}.

Import WebSocket.

Definition stored (e : Event) : EventItem :=
  {| item := e; item_userId := Some TEST_USER_ID |}.

Definition e1200 : Event := mkEvent "a" 1200 "iot_sensors" "sensor_reading" ["lab"].
Definition e3400 : Event := mkEvent "b" 3400 "iot_sensors" "device_status" ["roof"].
Definition e4800 : Event := mkEvent "c" 4800 "iot_sensors" "sensor_reading" ["lab"].

(** The store holds the three events in the order 4800, 1200, 3400. *)
Definition threeEvents : list EventItem :=
  [stored e4800; stored e1200; stored e3400].

Definition mkConfig (filters : option ReplayFilters) : ReplayConfig :=
  {| startTime := 1000; endTime := 5000; speed := 5; filters := filters |}.

(** Sensor readings of [iot_sensors] carrying the tag [lab]. *)
Definition labReadings : ReplayFilters :=
  {| r_sources := Some ["iot_sensors"]; r_types := Some ["sensor_reading"];
     r_tags := Some ["lab"] |}.

Definition session (connectionId : string) (topics devices : list string)
    (replay : option ReplayConfig) : ConnectionInfo :=
  {| connectionId := connectionId; userId := None; subscriptions := topics;
     deviceSubscriptions := devices; alertSubscriptions := false;
     replayConfig := replay; lastActivity := 0 |}.

Definition mkState (sessions : list ConnectionInfo) (table : list EventItem)
  : State :=
  {| connections := list_to_map (map (fun c => (connectionId c, c)) sessions);
     eventsTable := table; tasks := ∅; nextTask := 0; sent := [];
     clock := 10 |}.

Definition msg (r : Request) : WebSocketMessage :=
  {| request := r; requestId := Some "r1" |}.

(** One session, subscribed to two topics and one device, and the three
    stored events. *)
Definition oneSession : State :=
  mkState [session "c1" ["iot_sensors"; "sensor_reading"] ["d1"] None]
    threeEvents.

(** The session has asked for a replay: replay 0 awaits its events. *)
Definition replayRequested (config : ReplayConfig) : State :=
  step (Message "c1" (msg (start_replay config)) true) oneSession.

End Examples.

(** ** More rules, worlds and sessions *)
Module MoreExamples.
Import Js Alert Events Processor Examples.

(** A rule of another device, and a rule of [d1] without a cooldown. *)
Definition ruleOfD2 : AlertRule := mkRule "rule_C" (Some "d2") (Some 60).
Definition ruleNoCooldown : AlertRule := mkRule "rule_N" (Some "d1") None.

(** A rule of every device whose condition no reading matches. *)
Definition ruleOnAbc : AlertRule :=
  {| alertId := "rule_X"; name := "Above abc"; description := None;
     deviceId := None; conditions := [valueAboveAbc];
     severity := info; enabled := true; notificationChannels := [ui];
     emailRecipients := None; webhookUrl := None;
     cooldownPeriod := None;
     createdAt := 1; updatedAt := 1; userId := None |}.

(** An item of the rules table whose [alertId] lacks the prefix. *)
Definition notARule : AlertRule := mkRule "alert_7" None None.

End MoreExamples.

(** ** Events and services of the event processor *)
Module EventExamples.
Import Js EventProcessor.

(** A sensor reading as it arrives in [event.detail]. *)
Definition reading1200 : value :=
  JObj [("id", JStr "e1"); ("timestamp", JNum (of_Z 1200));
        ("source", JStr "iot_sensors"); ("type", JStr "sensor_reading");
        ("data", JObj [("deviceId", JStr "d1"); ("value", JNum (of_Z 45))])].

(** A reading with an empty source. *)
Definition noSource : value :=
  JObj [("id", JStr "e1"); ("timestamp", JNum (of_Z 1200));
        ("source", JStr ""); ("type", JStr "sensor_reading")].

Definition keyMismatch : string :=
  "One or more parameter values were invalid".

(** Every call succeeds; the table throttles; the bucket denies access. *)
Definition allAccepted : Services :=
  {| putRejects := fun _ => None;
     validationMessage := fun _ => keyMismatch;
     putObjectRejects := fun _ _ => None;
     putEventsRejects := fun _ => None |}.

Definition tableThrottled : Services :=
  {| putRejects := fun _ => Some "Throughput exceeded";
     validationMessage := fun _ => keyMismatch;
     putObjectRejects := fun _ _ => None;
     putEventsRejects := fun _ => None |}.

Definition bucketDenied : Services :=
  {| putRejects := fun _ => None;
     validationMessage := fun _ => keyMismatch;
     putObjectRejects := fun _ _ => Some "Access Denied";
     putEventsRejects := fun _ => None |}.

(** Nothing stored, nothing sent; the clock reads 5000, 5001, ... *)
Definition emptyWorld : World :=
  {| clock := fun n => 5000 + Z.of_nat n; reads := 0; eventsTable := [];
     bucket := ∅; eventBus := []; console := [] |}.

End EventExamples.

(** * Properties *)

(** ** The condition evaluator *)
Module AlertFacts.
Import Js Alert.

(** *** Comparisons with [NaN] *)

Lemma num_lt_NaN_l y : num_lt NaN y = false.
Proof. reflexivity. Qed.

Lemma num_lt_NaN_r x : num_lt x NaN = false.
Proof. by destruct x. Qed.

Lemma num_le_NaN_l y : num_le NaN y = false.
Proof. reflexivity. Qed.

Lemma num_le_NaN_r x : num_le x NaN = false.
Proof. by destruct x. Qed.

Lemma numericOrder_NaN op a b :
  a = NaN \/ b = NaN -> numericOrder op a b = false.
Proof.
  intros [-> | ->]; destruct op; simpl; unfold num_gt, num_ge;
    auto using num_lt_NaN_l, num_lt_NaN_r, num_le_NaN_l, num_le_NaN_r.
Qed.

(** *** The callback on a field the payload carries *)

Lemma applyOperator_numeric op fv v :
  isNumericOp op = true ->
  applyOperator op fv v
  = (a ← ToNumber fv; b ← ToNumber v; Some (numericOrder op a b)).
Proof. by destruct op. Qed.

Lemma getField_own data f fv : data !! f = Some fv -> getField data f = fv.
Proof. unfold getField. by intros ->. Qed.

Lemma conditionHolds_present data c fv :
  data !! field c = Some fv -> fv <> JNull -> fv <> JUndefined ->
  conditionHolds data c = applyOperator (operator c) fv (value c).
Proof.
  intros Hfv Hnull Hundef. unfold conditionHolds.
  rewrite (getField_own data (field c) fv Hfv). by destruct fv.
Qed.

(** The callback agrees with the specification's reading of a condition. *)
Lemma applyOperator_sem op fv v :
  applyOperator op fv v = Some true <-> OperatorSem fv v op.
Proof.
  split.
  - destruct op; simpl; intros H;
      try (destruct (ToNumber fv) as [a|] eqn:Ha; [|done];
           destruct (ToNumber v) as [b|] eqn:Hb; [|done];
           simpl in H; injection H as H;
           by apply (sem_order fv v _ a b));
      try (destruct (ToString fv) as [s|] eqn:Hs; [|done];
           destruct (ToString v) as [t|] eqn:Ht; [|done];
           simpl in H; injection H as H).
    + injection H as H. by apply sem_eq.
    + injection H as H. apply sem_neq. by apply negb_true_iff.
    + by apply (sem_contains fv v s t).
    + apply (sem_not_contains fv v s t); try done. by apply negb_true_iff.
  - intros [op' a b Hop Ha Hb H | H | H | s t Hs Ht H | s t Hs Ht H];
      simpl.
    + rewrite applyOperator_numeric, Ha, Hb by done. simpl. by rewrite H.
    + by rewrite H.
    + by rewrite H.
    + rewrite Hs, Ht. simpl. by rewrite H.
    + rewrite Hs, Ht. simpl. by rewrite H.
Qed.

(** A condition that is true as the specification reads it is true for the
    callback. *)
Lemma conditionHolds_of_sem data c :
  ConditionTrue data c -> conditionHolds data c = Some true.
Proof.
  intros [fv Hfv Hnull Hundef Hsem].
  rewrite (conditionHolds_present data c fv) by done.
  by apply applyOperator_sem.
Qed.

(** The converse holds when the callback reads what the payload carries:
    the payload has the field, or no object inherits a member of that
    name. *)
Lemma conditionHolds_sem data c :
  is_Some (data !! field c) \/ inherited (field c) = JUndefined ->
  conditionHolds data c = Some true <-> ConditionTrue data c.
Proof.
  intros Hown. split; [|apply conditionHolds_of_sem].
  unfold conditionHolds, getField.
  destruct (data !! field c) as [fv|] eqn:Hfv.
  - intros H. apply (condition_true data c fv); try done.
    + by intros ->.
    + by intros ->.
    + apply applyOperator_sem. by destruct fv.
  - destruct Hown as [[? ?] | ->]; done.
Qed.

(** *** [every] *)

Lemma every_true {A : Type} (f : A -> option bool) (l : list A) :
  every f l = Some true <-> Forall (fun x => f x = Some true) l.
Proof.
  induction l as [|x l IH]; simpl.
  - split; [constructor | done].
  - rewrite Forall_cons, <- IH.
    destruct (f x) as [[]|]; split; try done; by intros [? ?].
Qed.

(** Where every condition names a field the payload carries, or a name no
    object inherits, the list matches exactly when every condition is true
    as the specification reads it; the empty list matches. *)
Lemma evaluate_conjunction (C : list AlertCondition) (P : Payload) :
  Forall (fun c => is_Some (P !! field c)
                   \/ inherited (field c) = JUndefined) C ->
  (evaluateAlertConditions C P = Some true <-> Forall (ConditionTrue P) C)
  /\ evaluateAlertConditions [] P = Some true.
Proof.
  intros Hown. split; [|reflexivity].
  unfold evaluateAlertConditions. rewrite every_true.
  induction Hown as [|c C Hc _ IH]; [by split; constructor|].
  by rewrite !Forall_cons, IH, conditionHolds_sem.
Qed.

(** On a field the payload carries, a numeric operator compares the numbers
    the two values convert to, and is false when one of them is [NaN]. *)
Lemma numeric_operators_compare_numbers data c fv a b :
  isNumericOp (operator c) = true ->
  data !! field c = Some fv -> fv <> JNull -> fv <> JUndefined ->
  ToNumber fv = Some a -> ToNumber (value c) = Some b ->
  conditionHolds data c = Some (numericOrder (operator c) a b)
  /\ (a = NaN \/ b = NaN -> conditionHolds data c = Some false).
Proof.
  intros Hop Hfv Hnull Hundef Ha Hb.
  rewrite (conditionHolds_present data c fv) by done.
  rewrite applyOperator_numeric, Ha, Hb by done. simpl.
  split; [done|]. intros H. by rewrite numericOrder_NaN.
Qed.

(** A field that is [null], or that the payload does not carry and no
    object inherits, makes the condition false and keeps every list that
    holds the condition from matching. *)
Lemma missing_own_field_is_false data c :
  data !! field c = Some JNull
  \/ (data !! field c = None /\ inherited (field c) = JUndefined) ->
  conditionHolds data c = Some false
  /\ forall C, c ∈ C -> evaluateAlertConditions C data <> Some true.
Proof.
  intros H.
  assert (Hc : conditionHolds data c = Some false).
  { unfold conditionHolds, getField.
    destruct H as [-> | [-> ->]]; reflexivity. }
  split; [done|]. intros C Hin Hall.
  apply every_true in Hall. rewrite Forall_forall in Hall.
  specialize (Hall c Hin). congruence.
Qed.

(** **** C1, on the code.  The reading carries [deviceId] and [value] and no
    field [constructor]; the one condition of the list is
    [constructor neq "x"].  As the specification reads it the condition is
    not true of the reading, so the list should not match.  The callback
    reads [data["constructor"]], finds the function [Object] that every
    object inherits, which is neither [undefined] nor [null] and is not
    ["x"], and the list matches. *)
Theorem inherited_member_makes_list_match :
  let c := {| field := "constructor"; operator := OpNeq;
              value := JStr "x" |} in
  let P := Events.data Examples.reading45 in
  P !! "constructor" = None
  /\ ~ Forall (ConditionTrue P) [c]
  /\ getField P "constructor" = JFun "Object"
  /\ evaluateAlertConditions [c] P = Some true.
Proof.
  cbv zeta. split; [reflexivity|]. split; [|split; reflexivity].
  intros H. apply Forall_inv in H as [fv Hfv _ _ _]. discriminate Hfv.
Qed.

(** **** C2, on the code.  The reading has no field [toString], so the
    condition [toString contains "native"] refers to a missing field and
    should be false.  The callback reads the method every object inherits,
    whose string form contains ["native"]: the condition is true, and so is
    a list that holds it. *)
Theorem missing_field_found_in_prototype :
  let c := {| field := "toString"; operator := OpContains;
              value := JStr "native" |} in
  let P := Events.data Examples.reading45 in
  missingField P c
  /\ ToString (getField P "toString")
     = Some "function toString() { [native code] }"
  /\ conditionHolds P c = Some true
  /\ evaluateAlertConditions [Examples.valueAbove40; c] P = Some true.
Proof.
  cbv zeta. split; [by left|]. repeat split; vm_compute; reflexivity.
Qed.

(** **** C3, on the code.  The field [value] of the payload is the object
    [{toString: 1}], which is no number; the condition is [value gt 40].
    The condition should be false.  [Number(fieldValue)] finds no method
    that gives a primitive and throws a [TypeError], which the evaluator
    throws on. *)
Theorem numeric_conversion_throws :
  let fv := JObj [("toString", JNum (of_Z 1))] in
  let P : Payload := {[ "deviceId" := JStr "d1"; "value" := fv ]} in
  isNumericOp (operator Examples.valueAbove40) = true
  /\ P !! field Examples.valueAbove40 = Some fv
  /\ nonNumeric fv
  /\ ToNumber fv = None
  /\ conditionHolds P Examples.valueAbove40 = None
  /\ evaluateAlertConditions [Examples.valueAbove40] P = None.
Proof.
  cbv zeta. split; [reflexivity|]. split; [reflexivity|].
  split; [by left|]. repeat split; reflexivity.
Qed.

End AlertFacts.

(** ** The DynamoDB operations *)
Module DdbFacts.
Section SortBy.
Context {Item : Type} (le : Item -> Item -> bool).
Hypothesis le_total : forall a b, le a b = true \/ le b a = true.

Lemma insertBy_perm (x : Item) (l : list Item) :
  Ddb.insertBy le x l ≡ₚ x :: l.
Proof.
  induction l as [|y r IH]; simpl; [done|].
  destruct (le x y); [done|]. rewrite IH. apply Permutation_swap.
Qed.

Lemma sortBy_perm (l : list Item) : Ddb.sortBy le l ≡ₚ l.
Proof.
  induction l as [|x l IH]; simpl; [done|].
  fold (Ddb.sortBy le l). by rewrite insertBy_perm, IH.
Qed.

Lemma insertBy_sorted (x : Item) (l : list Item) :
  Sorted (fun a b => le a b = true) l ->
  Sorted (fun a b => le a b = true) (Ddb.insertBy le x l).
Proof.
  induction 1 as [|y r Hr IH Hhd]; simpl.
  - repeat constructor.
  - destruct (le x y) eqn:Hxy.
    + constructor; [by constructor | by constructor].
    + constructor; [done|].
      destruct Hhd as [|z r' Hyz]; simpl.
      * constructor. destruct (le_total x y); congruence.
      * destruct (le x z); constructor; [|done].
        destruct (le_total x y); congruence.
Qed.

Lemma sortBy_sorted (l : list Item) :
  Sorted (fun a b => le a b = true) (Ddb.sortBy le l).
Proof.
  induction l as [|x l IH]; simpl; [constructor|].
  by apply insertBy_sorted.
Qed.
End SortBy.

Section Answers.
Context {Item : Type}.

(** An item of a [Query]'s answer is in the table and satisfies the key
    condition and the filter. *)
Lemma query_elem (kc : Item -> bool) (order : Item -> Item -> bool)
    (limit : nat) (fe : Item -> bool) (table : list Item) (x : Item) :
  x ∈ Ddb.query kc order limit fe table ->
  x ∈ table /\ kc x = true /\ fe x = true.
Proof.
  unfold Ddb.query. intros H.
  apply list_elem_of_In, filter_In in H as [H Hfe].
  apply list_elem_of_In, elem_of_take in H as (i & Hi & _).
  apply list_elem_of_lookup_2 in Hi. rewrite sortBy_perm in Hi.
  apply list_elem_of_In, filter_In in Hi as [Hi Hkc].
  by apply list_elem_of_In in Hi.
Qed.

(** An item of a [Scan]'s answer is in the table and satisfies the filter. *)
Lemma scan_elem (limit : option nat) (fe : Item -> bool)
    (table : list Item) (x : Item) :
  x ∈ Ddb.scan limit fe table -> x ∈ table /\ fe x = true.
Proof.
  unfold Ddb.scan. intros H.
  apply list_elem_of_In, filter_In in H as [H Hfe]. split; [|done].
  apply list_elem_of_In in H. destruct limit as [n|]; [|done].
  apply elem_of_take in H as (i & Hi & _).
  by apply list_elem_of_lookup_2 in Hi.
Qed.

(** With [Limit: 1], an item that fails the filter and is the first of its
    partition in index order hides every other item from the answer. *)
Lemma query_limit_one_hidden (kc : Item -> bool)
    (order : Item -> Item -> bool) (fe : Item -> bool)
    (table : list Item) (first : Item) :
  head (Ddb.sortBy order (List.filter kc table)) = Some first ->
  fe first = false ->
  Ddb.query kc order 1 fe table = [].
Proof.
  unfold Ddb.query. intros Hhead Hfe.
  destruct (Ddb.sortBy order (List.filter kc table)) as [|y r]; [done|].
  simpl in Hhead. injection Hhead as ->.
  change (take 1 (first :: r)) with [first]. simpl. by rewrite Hfe.
Qed.
End Answers.
End DdbFacts.

(** ** The alert processor *)
Module ProcessorFacts.
Import Js Alert Events Processor.

Ltac unfold_m := unfold mbind, M_bind, mret, M_ret.

(** A loop over [l1 ++ l2] runs [l2] only if [l1] ran without a rejection. *)
Lemma forEach_app {A : Type} (body : A -> M unit) (l1 l2 : list A) (w : World) :
  forEach body (l1 ++ l2) w =
  match forEach body l1 w with
  | (Ok _, w1) => forEach body l2 w1
  | (Thrown e, w1) => (Thrown e, w1)
  end.
Proof.
  revert w. induction l1 as [|x l1 IH]; intros w; simpl.
  - reflexivity.
  - unfold_m. destruct (body x w) as [[[]|e] w']; [apply IH | reflexivity].
Qed.

Lemma forEach_cons_thrown {A : Type} (body : A -> M unit) (x : A)
    (l : list A) (w w' : World) (e : Error) :
  body x w = (Thrown e, w') -> forEach body (x :: l) w = (Thrown e, w').
Proof. intros H. simpl. unfold_m. by rewrite H. Qed.

Lemma getLastAlertForRule_no_device sv a d w :
  truthyStr d = false -> getLastAlertForRule sv a d w = (Ok None, w).
Proof. intros H. unfold getLastAlertForRule. by rewrite H. Qed.

Lemma getLastAlertForRule_answer sv a d w :
  truthyStr d = true -> queryRejects sv a (default "" d) = false ->
  getLastAlertForRule sv a d w
  = (Ok (head (queryDeviceIndex (alertsTable w) a d)), w).
Proof. intros H1 H2. unfold getLastAlertForRule. by rewrite H1, H2. Qed.

(** What the lookup returns is an instance of that rule and that device. *)
Lemma queryDeviceIndex_head table a d last :
  head (queryDeviceIndex table a d) = Some last ->
  inst_alertId last = a /\ inst_deviceId last = d /\ last ∈ table.
Proof.
  unfold queryDeviceIndex, Ddb.query. intros H.
  apply head_Some_elem_of, list_elem_of_In, filter_In in H as [Hin Ha].
  apply bool_decide_eq_true in Ha. split; [done|].
  apply list_elem_of_In, elem_of_take in Hin as (i & Hi & _).
  apply list_elem_of_lookup_2 in Hi.
  rewrite DdbFacts.sortBy_perm in Hi.
  apply list_elem_of_In, filter_In in Hi as [Hi Hd].
  apply bool_decide_eq_true in Hd. split; [done | by apply list_elem_of_In].
Qed.

(** A rule that is enabled, applies to the reading's device and matches the
    reading reaches the cooldown test, which decides between the log line
    and the creation of an instance. *)
Lemma processRule_matching sv ev d rule w last :
  enabled rule = true ->
  truthyStr (Alert.deviceId rule)
    && negb (bool_decide (Alert.deviceId rule = d)) = false ->
  evaluateAlertConditions (conditions rule) (Events.data ev) = Some true ->
  getLastAlertForRule sv (alertId rule) d w = (Ok last, w) ->
  processRule sv ev d rule w =
    if inCooldown last (cooldownPeriod rule) (now w)
    then consoleLog (LogCooldown (alertId rule)) w
    else fireAlert sv ev d rule w.
Proof.
  intros Hen Happ Hmatch Hlast. unfold processRule.
  rewrite Hen, Happ, Hmatch. simpl. unfold_m. rewrite Hlast.
  unfold dateNow. by destruct (inCooldown _ _ _).
Qed.

Lemma fireAlert_put_rejected sv ev d rule w :
  putRejects sv (instanceFor ev d rule (uuids w) (now w)) = true ->
  fireAlert sv ev d rule w = (Thrown PutRejected, (uuidv4 w).2).
Proof.
  intros H. unfold fireAlert, uuidv4, dateNow, storeAlertInstance.
  unfold_m. simpl. by rewrite H.
Qed.

(** When the store accepts it, the new instance is in the table, replacing
    the item with its key; a rejected notification does not undo that. *)
Lemma fireAlert_stores sv ev d rule w :
  putRejects sv (instanceFor ev d rule (uuids w) (now w)) = false ->
  alertsTable (fireAlert sv ev d rule w).2
  = Ddb.put (fun i j => bool_decide (inst_alertId i = inst_alertId j))
      (instanceFor ev d rule (uuids w) (now w)) (alertsTable w).
Proof.
  intros H.
  unfold fireAlert, uuidv4, dateNow, storeAlertInstance, triggerNotification.
  unfold_m. simpl. rewrite H. simpl. by case_match.
Qed.

(** The lookup reads one item, the newest of the device.  When that item
    belongs to another rule the lookup returns nothing, and a rule that is
    enabled, applies and matches creates an instance, whatever instances of
    its own the table holds for the device. *)
Lemma cooldown_skipped_when_newest_is_other_rule sv ev d rule w newest :
  enabled rule = true ->
  truthyStr (Alert.deviceId rule)
    && negb (bool_decide (Alert.deviceId rule = d)) = false ->
  evaluateAlertConditions (conditions rule) (Events.data ev) = Some true ->
  truthyStr d = true ->
  queryRejects sv (alertId rule) (default "" d) = false ->
  head (Ddb.sortBy (fun a b => triggeredAt b <=? triggeredAt a)
          (List.filter (fun i => bool_decide (inst_deviceId i = d))
             (alertsTable w))) = Some newest ->
  inst_alertId newest <> alertId rule ->
  getLastAlertForRule sv (alertId rule) d w = (Ok None, w)
  /\ processRule sv ev d rule w = fireAlert sv ev d rule w.
Proof.
  intros Hen Happ Hmatch Hd Hq Hnewest Hother.
  assert (Hl : getLastAlertForRule sv (alertId rule) d w = (Ok None, w)).
  { rewrite getLastAlertForRule_answer by done.
    unfold queryDeviceIndex.
    rewrite (DdbFacts.query_limit_one_hidden _ _ _ _ newest); [done..|].
    by apply bool_decide_eq_false_2. }
  split; [done|].
  by rewrite (processRule_matching sv ev d rule w None).
Qed.

(** **** C4, on the code.  Rule [rule_A] of device [d1] has a cooldown of 60
    seconds and fired for [d1] two seconds ago; [rule_B] fired for [d1] one
    second ago.  The lookup reads the newest item of [d1] only, which is
    [rule_B]'s, discards it by the filter and returns nothing: the matching
    reading is not suppressed, and a new instance of [rule_A] is created
    and stored (in the place of the earlier one, [alertId] being the key of
    the table). *)
Theorem cooldown_lookup_misses_prior_firing :
  let w := Examples.mkWorld 3000 [Examples.ruleA]
             [Examples.firedAt "rule_A" 1 1000;
              Examples.firedAt "rule_B" 2 2000] in
  Alert.deviceId Examples.ruleA = Some "d1"
  /\ cooldownPeriod Examples.ruleA = Some 60
  /\ evaluateAlertConditions (conditions Examples.ruleA)
       (Events.data Examples.reading45) = Some true
  /\ Examples.firedAt "rule_A" 1 1000 ∈ alertsTable w
  /\ now w - triggeredAt (Examples.firedAt "rule_A" 1 1000) < 60 * 1000
  /\ getLastAlertForRule Examples.reliable "rule_A" (Some "d1") w
     = (Ok None, w)
  /\ exists w',
       handler Examples.reliable Examples.reading45 w = (Ok tt, w')
       /\ console w' = [LogReceived]
       /\ alertsTable w'
          = [instanceFor Examples.reading45 (Some "d1") Examples.ruleA 7 3000;
             Examples.firedAt "rule_B" 2 2000].
Proof.
  cbv zeta. repeat split; try reflexivity; try lia.
  - apply list_elem_of_here.
  - eexists. split; [vm_compute; reflexivity|]. split; reflexivity.
Qed.




(** C6 as stated fails: [rule_A] and [rule_B] both match the reading, the
    store rejects the instance of [rule_A] and would accept one of [rule_B].
    The handler throws, and nothing is stored or published for [rule_B]. *)
Lemma store_failure_skips_remaining_rules :
  let w := Examples.mkWorld 3000 [Examples.ruleA; Examples.ruleB] [] in
  getAlertRules Examples.putOfARejected
    (readingDeviceId Examples.reading45) w
  = (Ok [Examples.ruleA; Examples.ruleB], w)
  /\ enabled Examples.ruleB = true
  /\ evaluateAlertConditions (conditions Examples.ruleB)
       (Events.data Examples.reading45) = Some true
  /\ (forall i, inst_alertId i = "rule_B" ->
        putRejects Examples.putOfARejected i = false)
  /\ (handler Examples.putOfARejected Examples.reading45 w).1
     = Thrown PutRejected
  /\ alertsTable (handler Examples.putOfARejected Examples.reading45 w).2 = []
  /\ eventBus (handler Examples.putOfARejected Examples.reading45 w).2 = [].
Proof.
  cbv zeta. repeat split; try (vm_compute; reflexivity).
  intros i Hi. simpl. rewrite Hi. reflexivity.
Qed.

(** **** C6, amended.  When the store rejects the instance of one rule, the
    handler logs the error and throws it again: the pass over the rules ends
    there.  The world it leaves is the one reached before that rule, with
    one identifier drawn and the error logged, whatever rules remained: no
    remaining rule is evaluated, and what earlier rules stored and published
    stays.  ([w0] is the world after the first line of the handler is
    written.) *)
Theorem store_failure_ends_the_pass sv ev w pre rule post w1 last :
  let d := readingDeviceId ev in
  let w0 := (consoleLog LogReceived w).2 in
  type ev = "sensor_reading" -> source ev = "iot_sensors" ->
  getAlertRules sv d w0 = (Ok (pre ++ rule :: post)%list, w0) ->
  forEach (processRule sv ev d) pre w0 = (Ok tt, w1) ->
  enabled rule = true ->
  truthyStr (Alert.deviceId rule)
    && negb (bool_decide (Alert.deviceId rule = d)) = false ->
  evaluateAlertConditions (conditions rule) (Events.data ev) = Some true ->
  getLastAlertForRule sv (alertId rule) d w1 = (Ok last, w1) ->
  inCooldown last (cooldownPeriod rule) (now w1) = false ->
  putRejects sv (instanceFor ev d rule (uuids w1) (now w1)) = true ->
  handler sv ev w
  = (Thrown PutRejected, (consoleLog (LogError PutRejected) (uuidv4 w1).2).2)
  /\ alertsTable (handler sv ev w).2 = alertsTable w1
  /\ eventBus (handler sv ev w).2 = eventBus w1.
Proof.
  intros d w0 Hty Hsrc Hrules Hpre Hen Happ Hmatch Hlast Hcool Hput.
  assert (Hrun : handler sv ev w
    = (Thrown PutRejected,
       (consoleLog (LogError PutRejected) (uuidv4 w1).2).2)).
  { unfold handler. rewrite Hty, Hsrc. unfold_m.
    change (consoleLog LogReceived w) with (Ok tt, w0). simpl.
    unfold tryCatch. unfold_m. fold d. rewrite Hrules.
    rewrite forEach_app, Hpre.
    rewrite (forEach_cons_thrown _ rule post w1 (uuidv4 w1).2 PutRejected).
    - reflexivity.
    - rewrite (processRule_matching sv ev d rule w1 last) by done.
      rewrite Hcool. by apply fireAlert_put_rejected. }
  rewrite Hrun. done.
Qed.

(** C6, amended, at [rule_A] followed by [rule_B]. *)
Lemma store_failure_ends_the_pass_witness :
  let w := Examples.mkWorld 3000 [Examples.ruleA; Examples.ruleB] [] in
  let w0 := (consoleLog LogReceived w).2 in
  let d := readingDeviceId Examples.reading45 in
  type Examples.reading45 = "sensor_reading"
  /\ source Examples.reading45 = "iot_sensors"
  /\ getAlertRules Examples.putOfARejected d w0
     = (Ok ([] ++ Examples.ruleA :: [Examples.ruleB])%list, w0)
  /\ forEach (processRule Examples.putOfARejected Examples.reading45 d) [] w0
     = (Ok tt, w0)
  /\ enabled Examples.ruleA = true
  /\ truthyStr (Alert.deviceId Examples.ruleA)
       && negb (bool_decide (Alert.deviceId Examples.ruleA = d)) = false
  /\ evaluateAlertConditions (conditions Examples.ruleA)
       (Events.data Examples.reading45) = Some true
  /\ getLastAlertForRule Examples.putOfARejected (alertId Examples.ruleA) d w0
     = (Ok None, w0)
  /\ inCooldown None (cooldownPeriod Examples.ruleA) (now w0) = false
  /\ putRejects Examples.putOfARejected
       (instanceFor Examples.reading45 d Examples.ruleA (uuids w0) (now w0))
     = true
  /\ (handler Examples.putOfARejected Examples.reading45 w
      = (Thrown PutRejected,
         (consoleLog (LogError PutRejected) (uuidv4 w0).2).2)
      /\ alertsTable (handler Examples.putOfARejected Examples.reading45 w).2
         = alertsTable w0
      /\ eventBus (handler Examples.putOfARejected Examples.reading45 w).2
         = eventBus w0).
Proof.
  cbv zeta.
  repeat (split; [reflexivity|]).
  apply (store_failure_ends_the_pass Examples.putOfARejected
           Examples.reading45
           (Examples.mkWorld 3000 [Examples.ruleA; Examples.ruleB] [])
           [] Examples.ruleA [Examples.ruleB]
           (consoleLog LogReceived
              (Examples.mkWorld 3000 [Examples.ruleA; Examples.ruleB] [])).2
           None); reflexivity.
Defined.

End ProcessorFacts.

(** ** The session registry and the replays *)
Module WebSocketFacts.
Import Events WebSocket WebSocketNotions.

(** *** Replays deliver in timestamp order *)

Lemma byTimestamp_total (a b : Event) :
  byTimestamp a b = true \/ byTimestamp b a = true.
Proof. unfold byTimestamp. rewrite !Z.leb_le. lia. Qed.

Lemma sorted_by_timestamp (l : list Event) :
  Sorted Z.le (map timestamp (Ddb.sortBy byTimestamp l)).
Proof.
  pose proof (DdbFacts.sortBy_sorted byTimestamp byTimestamp_total l) as H.
  induction H as [|x r Hr IH Hhd]; simpl; constructor; [done|].
  destruct Hhd as [|y r' Hxy]; simpl; constructor.
  by apply Z.leb_le.
Qed.

(** Two answers with the same events give the same sequence of timestamps. *)
Lemma sorted_timestamps_unique (l1 l2 : list Event) :
  l1 ≡ₚ l2 ->
  map timestamp (Ddb.sortBy byTimestamp l1)
  = map timestamp (Ddb.sortBy byTimestamp l2).
Proof.
  intros Hp.
  apply (Sorted_unique Z.le); try apply sorted_by_timestamp.
  apply Permutation_map.
  by rewrite !(DdbFacts.sortBy_perm byTimestamp).
Qed.

(** Every event of the query's answer is an item of the events table that
    belongs to the test account. *)
Lemma query_answer_from_store table filters e :
  e ∈ queryEventsFromDynamoDB table filters ->
  exists i, i ∈ table /\ item i = e /\ item_userId i = Some TEST_USER_ID.
Proof.
  unfold queryEventsFromDynamoDB.
  assert (Hq : forall (kc : string -> EventItem -> bool) n keys,
    e ∈ map item
          (List.flat_map
             (fun s => Ddb.query (kc s) newestFirst n ownedByTestUser table)
             keys) ->
    exists i, i ∈ table /\ item i = e /\ item_userId i = Some TEST_USER_ID).
  { intros kc n keys H.
    apply list_elem_of_fmap in H as (i & -> & Hi).
    apply list_elem_of_In, in_flat_map in Hi as (s & _ & Hi).
    apply list_elem_of_In, DdbFacts.query_elem in Hi as (Hin & _ & Hown).
    exists i. repeat split; [done|]. by apply bool_decide_eq_true in Hown. }
  destruct (nonEmpty (f_sources filters)) as [srcs|].
  - apply (Hq (fun s i => bool_decide (source (item i) = s) && _)).
  - destruct (nonEmpty (f_types filters)) as [tys|].
    + apply (Hq (fun t i => bool_decide (type (item i) = t) && _)).
    + intros H. apply list_elem_of_fmap in H as (i & -> & Hi).
      apply DdbFacts.scan_elem in Hi as [Hin Hfe].
      apply andb_true_iff in Hfe as [Hfe _].
      apply andb_true_iff in Hfe as [Hown _].
      exists i. repeat split; [done|]. by apply bool_decide_eq_true in Hown.
Qed.

(** With both bounds of the window non-zero, every event of the answer has
    its timestamp in the window. *)
Lemma query_answer_in_window table filters s e' e :
  f_startTime filters = Some s -> f_endTime filters = Some e' ->
  s <> 0 -> e' <> 0 ->
  e ∈ queryEventsFromDynamoDB table filters ->
  s <= timestamp e <= e'.
Proof.
  intros Hs He Hs0 He0. unfold queryEventsFromDynamoDB.
  rewrite Hs, He. simpl.
  apply Z.eqb_neq in Hs0 as ->. apply Z.eqb_neq in He0 as ->. simpl.
  assert (Hq : forall (key : EventItem -> string) n keys,
    e ∈ map item
          (List.flat_map
             (fun k =>
                Ddb.query
                  (fun i => bool_decide (key i = k)
                            && ((s <=? timestamp (item i))
                                && (timestamp (item i) <=? e')))
                  newestFirst n ownedByTestUser table)
             keys) ->
    s <= timestamp e <= e').
  { intros key n keys H.
    apply list_elem_of_fmap in H as (i & -> & Hi).
    apply list_elem_of_In, in_flat_map in Hi as (k & _ & Hi).
    apply list_elem_of_In, DdbFacts.query_elem in Hi as (_ & Hkc & _).
    apply andb_true_iff in Hkc as [_ Hw].
    apply andb_true_iff in Hw as [H1 H2].
    apply Z.leb_le in H1, H2. lia. }
  destruct (nonEmpty (f_sources filters)) as [srcs|].
  - apply (Hq (fun i => source (item i))).
  - destruct (nonEmpty (f_types filters)) as [tys|].
    + apply (Hq (fun i => type (item i))).
    + intros H. apply list_elem_of_fmap in H as (i & -> & Hi).
      apply DdbFacts.scan_elem in Hi as [_ Hfe].
      apply andb_true_iff in Hfe as [Hfe H2].
      apply andb_true_iff in Hfe as [_ H1].
      apply Z.leb_le in H1, H2. lia.
Qed.

(** Every event of the answer matches the filter as the query reads it: it
    is of a named source, or of a named type when no source is named. *)
Lemma query_answer_matches table config e :
  e ∈ queryEventsFromDynamoDB table (replayFilters config) ->
  matchesFilter config e = true.
Proof.
  unfold queryEventsFromDynamoDB, matchesFilter. simpl.
  assert (Hq : forall (key : EventItem -> string) (w : EventItem -> bool)
                      n keys,
    e ∈ map item
          (List.flat_map
             (fun k =>
                Ddb.query (fun i => bool_decide (key i = k) && w i)
                  newestFirst n ownedByTestUser table)
             keys) ->
    exists i, item i = e /\ key i ∈ keys).
  { intros key w n keys H.
    apply list_elem_of_fmap in H as (i & -> & Hi).
    apply list_elem_of_In, in_flat_map in Hi as (k & Hk & Hi).
    apply list_elem_of_In, DdbFacts.query_elem in Hi as (_ & Hkc & _).
    apply andb_true_iff in Hkc as [Hkc _].
    apply bool_decide_eq_true in Hkc.
    exists i. split; [done|]. rewrite Hkc. by apply list_elem_of_In. }
  destruct (nonEmpty (filters config ≫= r_sources)) as [srcs|].
  - intros H. apply (Hq (fun i => source (item i))) in H as (i & <- & Hi).
    by apply bool_decide_eq_true.
  - destruct (nonEmpty (filters config ≫= r_types)) as [tys|]; [|done].
    intros H. apply (Hq (fun i => type (item i))) in H as (i & <- & Hi).
    by apply bool_decide_eq_true.
Qed.

(** *** A table small enough for the limit not to cut the answer *)

Lemma filter_perm {A : Type} (f : A -> bool) (l l' : list A) :
  l ≡ₚ l' -> List.filter f l ≡ₚ List.filter f l'.
Proof.
  induction 1 as [|x l l' _ IH|x y l|l l' l'' _ IH1 _ IH2]; simpl.
  - done.
  - destruct (f x); [by constructor | done].
  - destruct (f x), (f y); try done. apply perm_swap.
  - by etransitivity.
Qed.

Lemma filter_filter {A : Type} (f g : A -> bool) (l : list A) :
  List.filter f (List.filter g l) = List.filter (fun x => g x && f x) l.
Proof.
  induction l as [|x l IH]; [done|]. simpl.
  destruct (g x); simpl; [|done]. destruct (f x); by rewrite IH.
Qed.

Lemma filter_length_le {A : Type} (f : A -> bool) (l : list A) :
  (length (List.filter f l) <= length l)%nat.
Proof.
  induction l as [|x l IH]; simpl; [done|]. destruct (f x); simpl; lia.
Qed.

(** Two conditions that no item meets together split a filter in two. *)
Lemma filter_split {A : Type} (f g : A -> bool) (l : list A) :
  (forall x, f x = true -> g x = true -> False) ->
  List.filter (fun x => f x || g x) l
  ≡ₚ (List.filter f l ++ List.filter g l)%list.
Proof.
  intros Hfg. induction l as [|x l IH]; [done|]. simpl.
  destruct (f x) eqn:Hf, (g x) eqn:Hg; simpl.
  - destruct (Hfg x Hf Hg).
  - by constructor.
  - rewrite IH. apply Permutation_middle.
  - done.
Qed.

Lemma flat_map_perm {A B : Type} (f g : A -> list B) (l : list A) :
  (forall x, f x ≡ₚ g x) -> List.flat_map f l ≡ₚ List.flat_map g l.
Proof.
  intros H. induction l as [|x l IH]; [done|]. simpl.
  by apply Permutation_app.
Qed.

(** With a limit the table does not reach, a [Query] returns the items that
    meet the key condition and the filter expression. *)
Lemma query_unlimited {Item : Type} (kc : Item -> bool)
    (order : Item -> Item -> bool) (n : nat) (fe : Item -> bool)
    (table : list Item) :
  (length table <= n)%nat ->
  Ddb.query kc order n fe table
  ≡ₚ List.filter (fun i => kc i && fe i) table.
Proof.
  intros Hn. unfold Ddb.query. rewrite take_ge.
  - rewrite <- filter_filter. apply filter_perm, DdbFacts.sortBy_perm.
  - rewrite (Permutation_length (DdbFacts.sortBy_perm order _)).
    pose proof (filter_length_le kc table). lia.
Qed.

(** One [Query] per key, each key named once: together the items whose
    key is among the named ones. *)
Lemma queries_by_key (key : EventItem -> string) (w : EventItem -> bool)
    (table : list EventItem) (keys : list string) :
  NoDup keys ->
  List.flat_map
    (fun k => List.filter (fun i => bool_decide (key i = k) && w i) table)
    keys
  ≡ₚ List.filter (fun i => bool_decide (key i ∈ keys) && w i) table.
Proof.
  induction 1 as [|k keys Hk Hnd IH]; cbn [List.flat_map].
  - induction table as [|i table IHt]; [done|]. cbn [List.filter].
    rewrite (bool_decide_eq_false_2 (key i ∈ [])) by apply not_elem_of_nil.
    exact IHt.
  - rewrite IH, <- filter_split.
    + erewrite List.filter_ext; [done|]. intros i. cbv beta.
      destruct (w i); rewrite ?andb_true_r, ?andb_false_r; [|done].
      apply eq_true_iff_eq.
      rewrite orb_true_iff, !bool_decide_eq_true, elem_of_cons. done.
    + intros i H1 H2.
      apply andb_true_iff in H1 as [H1 _]. apply andb_true_iff in H2 as [H2 _].
      apply bool_decide_eq_true in H1, H2. by subst k.
Qed.

Lemma nonEmpty_Some l srcs : nonEmpty l = Some srcs -> l = Some srcs.
Proof. destruct l as [[|? ?]|]; simpl; congruence. Qed.

(** With both bounds of the window non-zero, a table of at most 1000 items
    and no source or type named twice, the answer holds the requested items
    of the table, each once. *)
Lemma query_answer_complete table config :
  startTime config <> 0 -> endTime config <> 0 ->
  (length table <= 1000)%nat ->
  NoDup (default [] (filters config ≫= r_sources)) ->
  NoDup (default [] (filters config ≫= r_types)) ->
  queryEventsFromDynamoDB table (replayFilters config)
  ≡ₚ map item (List.filter (requested config) table).
Proof.
  intros Hs He Hlen Hsrc Hty.
  unfold queryEventsFromDynamoDB, requested, matchesFilter, inWindow. simpl.
  apply Z.eqb_neq in Hs as ->. apply Z.eqb_neq in He as ->. simpl.
  change (Z.to_nat 1000) with 1000%nat.
  assert (Hq : forall (key : EventItem -> string) keys,
    NoDup keys ->
    map item
      (List.flat_map
         (fun k =>
            Ddb.query
              (fun i => bool_decide (key i = k)
                        && ((startTime config <=? timestamp (item i))
                            && (timestamp (item i) <=? endTime config)))
              newestFirst 1000 ownedByTestUser table)
         keys)
    ≡ₚ map item
         (List.filter
            (fun i =>
               ownedByTestUser i
               && ((startTime config <=? timestamp (item i))
                   && (timestamp (item i) <=? endTime config))
               && bool_decide (key i ∈ keys))
            table)).
  { intros key keys Hnd. apply Permutation_map.
    pose (w := fun i : EventItem =>
                 ((startTime config <=? timestamp (item i))
                  && (timestamp (item i) <=? endTime config))
                 && ownedByTestUser i).
    transitivity
      (List.filter (fun i => bool_decide (key i ∈ keys) && w i) table).
    - rewrite <- (queries_by_key key w table keys Hnd).
      apply flat_map_perm. intros k. rewrite query_unlimited by done.
      erewrite List.filter_ext; [reflexivity|].
      intros i. unfold w. symmetry. apply andb_assoc.
    - erewrite List.filter_ext; [reflexivity|].
      intros i. unfold w.
      destruct (bool_decide _), (ownedByTestUser i), (_ <=? _), (_ <=? _);
        reflexivity. }
  destruct (nonEmpty (filters config ≫= r_sources)) as [srcs|] eqn:Hns.
  - apply nonEmpty_Some in Hns. rewrite Hns in Hsrc.
    apply (Hq (fun i => source (item i)) srcs Hsrc).
  - destruct (nonEmpty (filters config ≫= r_types)) as [tys|] eqn:Hnt.
    + apply nonEmpty_Some in Hnt. rewrite Hnt in Hty.
      apply (Hq (fun i => type (item i)) tys Hty).
    + apply Permutation_map. unfold Ddb.scan. rewrite take_ge by done.
      erewrite List.filter_ext; [reflexivity|].
      intros i. simpl. by rewrite andb_true_r, andb_assoc.
Qed.

(** *** A replay that nothing interrupts *)

Lemma replayed_app task c st st' (more : list Sent) :
  sent st' = (sent st ++ more)%list ->
  replayed task c st'
  = (replayed task c st ++ omap (replayEventOf task c) more)%list.
Proof. unfold replayed. intros ->. apply omap_app. Qed.

(** While its connection keeps a replay configuration and the deliveries
    succeed, a replay sends its pending events one per turn and then
    returns; it changes nothing else. *)
Lemma replay_runs_to_completion (evs : list Event) :
  forall st task k c conn cfg,
    tasks st !! k = Some task -> owner task = c ->
    pending (eventsTable st) task = evs ->
    connections st !! c = Some conn -> replayConfig conn = Some cfg ->
    run (replicate (S (length evs)) (Resume k true)) st
    = {| connections := connections st; eventsTable := eventsTable st;
         tasks := delete k (tasks st); nextTask := nextTask st;
         sent := (sent st ++ map (sentByReplay k c (clock st)) evs)%list;
         clock := clock st |}.
Proof.
  induction evs as [|e rest IH]; intros st task k c conn cfg Ht Ho Hp Hc Hcfg.
  - simpl. unfold resumeReplay. rewrite Ht.
    destruct task as [c' config | c' evs']; simpl in Ho, Hp; subst c';
      rewrite Hp; simpl; unfold setTasks; by rewrite app_nil_r.
  - change (run (replicate (S (length (e :: rest))) (Resume k true)) st)
      with (run (replicate (S (length rest)) (Resume k true))
              (resumeReplay k true st)).
    assert (Hstep : resumeReplay k true st
      = {| connections := connections st; eventsTable := eventsTable st;
           tasks := <[k := Delivering c rest]> (tasks st);
           nextTask := nextTask st;
           sent := (sent st ++ [sentByReplay k c (clock st) e])%list;
           clock := clock st |}).
    { unfold resumeReplay. rewrite Ht.
      destruct task as [c' config | c' evs']; simpl in Ho, Hp; subst c';
        rewrite Hp; simpl; rewrite Hc; simpl; by rewrite Hcfg. }
    rewrite Hstep.
    rewrite (IH _ (Delivering c rest) k c conn cfg); simpl; try done.
    + by rewrite delete_insert_eq, <- app_assoc.
    + apply lookup_insert_eq.
Qed.

Lemma omap_cons_eq {A B : Type} (f : A -> option B) (x : A) (l : list A) :
  omap f (x :: l)
  = match f x with Some y => y :: omap f l | None => omap f l end.
Proof. reflexivity. Qed.

Lemma replayed_sentByReplay k c t (evs : list Event) :
  omap (replayEventOf k c) (map (sentByReplay k c t) evs) = evs.
Proof.
  induction evs as [|e r IH]; [done|].
  change (map (sentByReplay k c t) (e :: r))
    with (sentByReplay k c t e :: map (sentByReplay k c t) r).
  rewrite omap_cons_eq, IH. unfold replayEventOf. simpl.
  by rewrite !bool_decide_eq_true_2.
Qed.




(** *** Completion *)

(** Resuming a replay leaves every connection as it is, or removes it. *)
Lemma resumeReplay_connection k d st c :
  connections (resumeReplay k d st) !! c = connections st !! c
  \/ connections (resumeReplay k d st) !! c = None.
Proof.
  assert (Hd : forall c' evs,
    connections (deliverNext k c' evs d st) !! c = connections st !! c
    \/ connections (deliverNext k c' evs d st) !! c = None).
  { intros c' evs. unfold deliverNext.
    destruct evs as [|e r]; [by left|].
    destruct (connections st !! c' ≫= replayConfig); [|by left].
    unfold sendToConnection. destruct d; [by left|]. simpl.
    destruct (decide (c' = c)) as [->|Hne].
    - right. apply lookup_delete_eq.
    - left. by apply lookup_delete_ne. }
  unfold resumeReplay. destruct (tasks st !! k) as [[c' cfg|c' evs]|]; auto.
Qed.

(** C9 as stated fails: replay 0 delivers its three events and returns, and
    the session still has the configuration [start_replay] stored. *)
Lemma completed_replay_keeps_config :
  let config := Examples.mkConfig None in
  let st := run [Resume 0 true; Resume 0 true; Resume 0 true; Resume 0 true]
              (Examples.replayRequested config) in
  replayed 0 "c1" st = [Examples.e1200; Examples.e3400; Examples.e4800]
  /\ tasks st !! 0%nat = None
  /\ connections st !! "c1" ≫= replayConfig = Some config.
Proof. cbv zeta. repeat split; vm_compute; reflexivity. Qed.

(** **** C9, amended.  A replay that delivers its full event list returns
    and leaves the registry as it found it: the session's replay
    configuration is still the one it had.  [startReplay] never writes
    [replayConfig]: whenever a replay is resumed, each connection stays as
    it is or, after a failed delivery, is removed. *)
Theorem completed_replay_leaves_config st k task c conn cfg :
  tasks st !! k = Some task -> owner task = c ->
  connections st !! c = Some conn -> replayConfig conn = Some cfg ->
  let evs := pending (eventsTable st) task in
  let st' := run (replicate (S (length evs)) (Resume k true)) st in
  replayed k c st' = (replayed k c st ++ evs)%list
  /\ tasks st' !! k = None
  /\ connections st' = connections st
  /\ connections st' !! c ≫= replayConfig = Some cfg
  /\ (forall st0 k0 d c0,
        connections (resumeReplay k0 d st0) !! c0 = connections st0 !! c0
        \/ connections (resumeReplay k0 d st0) !! c0 = None).
Proof.
  intros Ht Ho Hc Hcfg evs st'. unfold st'.
  rewrite (replay_runs_to_completion evs st task k c conn cfg) by done.
  repeat split.
  - erewrite replayed_app by (simpl; reflexivity).
    by rewrite replayed_sentByReplay.
  - apply lookup_delete_eq.
  - simpl. by rewrite Hc.
  - intros st0 k0 d c0. apply resumeReplay_connection.
Qed.

(** C9, amended, at the replay of the three events. *)
Lemma completed_replay_leaves_config_witness :
  let config := Examples.mkConfig None in
  let st := Examples.replayRequested config in
  let conn := setReplayConfig (Examples.session "c1"
                ["iot_sensors"; "sensor_reading"] ["d1"] None)
                (Some config) 10 in
  tasks st !! 0%nat = Some (Fetching "c1" config)
  /\ owner (Fetching "c1" config) = "c1"
  /\ connections st !! "c1" = Some conn
  /\ replayConfig conn = Some config
  /\ connections
       (run (replicate
               (S (length (pending (eventsTable st) (Fetching "c1" config))))
               (Resume 0 true)) st) !! "c1" ≫= replayConfig
     = Some config.
Proof.
  cbv zeta. repeat (split; [reflexivity|]).
  apply (completed_replay_leaves_config
           (Examples.replayRequested (Examples.mkConfig None)) 0
           (Fetching "c1" (Examples.mkConfig None)) "c1"
           (setReplayConfig (Examples.session "c1"
              ["iot_sensors"; "sensor_reading"] ["d1"] None)
              (Some (Examples.mkConfig None)) 10)
           (Examples.mkConfig None)); reflexivity.
Defined.

(** *** Cancellation *)

Lemma replayCleared_insert st c0 c x :
  replayCleared st c0 ->
  (c = c0 -> replayConfig x = None) ->
  <[c := x]> (connections st) !! c0 ≫= replayConfig = None.
Proof.
  intros Hcl Hx. destruct (decide (c = c0)) as [->|Hne].
  - rewrite lookup_insert_eq. simpl. by apply Hx.
  - by rewrite lookup_insert_ne.
Qed.

Lemma replayCleared_delete st c0 c :
  replayCleared st c0 -> delete c (connections st) !! c0 ≫= replayConfig = None.
Proof.
  intros Hcl. destruct (decide (c = c0)) as [->|Hne].
  - by rewrite lookup_delete_eq.
  - by rewrite lookup_delete_ne.
Qed.

Lemma replayCleared_lookup st c conn :
  replayCleared st c -> connections st !! c = Some conn ->
  replayConfig conn = None.
Proof. unfold replayCleared. intros H Hc. by rewrite Hc in H. Qed.

Lemma sendToConnection_cleared by_ c m d st c0 :
  replayCleared st c0 -> replayCleared (sendToConnection by_ c m d st) c0.
Proof.
  intros H. unfold sendToConnection. destruct d; [done|].
  by apply replayCleared_delete.
Qed.

Lemma sendToConnection_replayed by_ c m d st k c0 :
  replayEventOf k c0 {| sent_to := c; sent_by := by_; sent_msg := m |} = None ->
  replayed k c0 (sendToConnection by_ c m d st) = replayed k c0 st.
Proof.
  intros H. unfold sendToConnection. destruct d; [|done].
  erewrite replayed_app by (simpl; reflexivity).
  rewrite omap_cons_eq, H. apply app_nil_r.
Qed.

(** A handler keeps a cleared connection cleared, unless it is
    [handleStartReplay] for that connection; it sends nothing itself. *)
Ltac handler_case c0 Hcl :=
  match goal with
  | |- context [connections ?st !! ?c] =>
      let conn := fresh "conn" in
      let Hc := fresh "Hc" in
      destruct (connections st !! c) as [conn|] eqn:Hc; simpl;
      [split; [|done];
       apply replayCleared_insert; [done|];
       intros ->; try done;
       by apply (replayCleared_lookup st c0 conn)
      | by split]
  end.

Lemma dispatch_cleared st c0 c m :
  replayCleared st c0 ->
  startsReplayFor c0 (Message c m true) = false ->
  forall response,
  let r :=
    match request m with
    | subscribe d => handleSubscribe c d response st
    | unsubscribe d => handleUnsubscribe c d response st
    | subscribe_devices d => handleSubscribeDevices c d response st
    | unsubscribe_devices d => handleUnsubscribeDevices c d response st
    | subscribe_alerts => handleSubscribeAlerts c response st
    | unsubscribe_alerts => handleUnsubscribeAlerts c response st
    | query_events f => handleQueryEvents f response st
    | start_replay cfg => handleStartReplay c cfg response st
    | stop_replay => handleStopReplay c response st
    | ping => (st, withData response Pong)
    | unknown a => (st, withError response ("Unknown action: " ++ a))
    end in
  replayCleared r.1 c0 /\ sent r.1 = sent st.
Proof.
  intros Hcl Hstart response. unfold startsReplayFor in Hstart.
  destruct (request m) as [d|d|d|d| | |f|cfg| | |a]; simpl;
    try (by split);
    unfold handleSubscribe, handleUnsubscribe, handleSubscribeDevices,
      handleUnsubscribeDevices, handleSubscribeAlerts,
      handleUnsubscribeAlerts, handleStartReplay, handleStopReplay,
      replayCleared;
    try handler_case c0 Hcl.
  destruct (connections st !! c) as [conn|] eqn:Hc; simpl; [|by split].
  split; [|done]. apply replayCleared_insert; [done|].
  intros ->. by rewrite bool_decide_eq_true_2 in Hstart.
Qed.

Lemma step_cleared st c0 t :
  replayCleared st c0 -> startsReplayFor c0 t = false ->
  replayCleared (step t st) c0.
Proof.
  intros Hcl Hstart. destruct t as [c|c|c m d|k d]; simpl.
  - apply replayCleared_insert; [done | by intros _].
  - by apply replayCleared_delete.
  - unfold handleMessage.
    match goal with
    | |- context [let '(_, _) := ?r in _] =>
        pose proof (dispatch_cleared st c0 c m Hcl Hstart
          {| action := actionOf (request m); data := NoData; error := None;
             resp_requestId := requestId m; resp_timestamp := clock st |})
          as [H1 _];
        destruct r as [st1 r1]
    end.
    by apply sendToConnection_cleared.
  - unfold resumeReplay.
    destruct (tasks st !! k) as [[c cfg|c evs]|]; [| |done];
      unfold deliverNext;
      match goal with
      | |- context [match ?l with [] => _ | _ :: _ => _ end] =>
          destruct l as [|e r]; [done|]
      end;
      (destruct (connections st !! c ≫= replayConfig); [|done]);
      by apply sendToConnection_cleared.
Qed.

Lemma step_silent st c0 t k :
  replayCleared st c0 -> replayed k c0 (step t st) = replayed k c0 st.
Proof.
  intros Hcl. destruct t as [c|c|c m d|k' d]; simpl; try done.
  - unfold handleMessage.
    assert (Hsent : forall response,
      sent (match request m with
            | subscribe d => handleSubscribe c d response st
            | unsubscribe d => handleUnsubscribe c d response st
            | subscribe_devices d => handleSubscribeDevices c d response st
            | unsubscribe_devices d => handleUnsubscribeDevices c d response st
            | subscribe_alerts => handleSubscribeAlerts c response st
            | unsubscribe_alerts => handleUnsubscribeAlerts c response st
            | query_events f => handleQueryEvents f response st
            | start_replay cfg => handleStartReplay c cfg response st
            | stop_replay => handleStopReplay c response st
            | ping => (st, withData response Pong)
            | unknown a => (st, withError response ("Unknown action: " ++ a))
            end).1 = sent st).
    { intros response.
      destruct (request m); simpl; try done;
        unfold handleSubscribe, handleUnsubscribe, handleSubscribeDevices,
          handleUnsubscribeDevices, handleSubscribeAlerts,
          handleUnsubscribeAlerts, handleStartReplay, handleStopReplay;
        by destruct (connections st !! c). }
    match goal with
    | |- context [let '(_, _) := ?r in _] =>
        pose proof (Hsent
          {| action := actionOf (request m); data := NoData; error := None;
             resp_requestId := requestId m; resp_timestamp := clock st |})
          as H1;
        destruct r as [st1 r1]
    end.
    rewrite sendToConnection_replayed by done.
    simpl in H1. unfold replayed. by rewrite H1.
  - unfold resumeReplay.
    destruct (tasks st !! k') as [[c cfg|c evs]|]; [| |done];
      unfold deliverNext;
      match goal with
      | |- context [match ?l with [] => _ | _ :: _ => _ end] =>
          destruct l as [|e r]; [done|]
      end;
      (destruct (connections st !! c ≫= replayConfig) eqn:Hc; [|done]);
      (rewrite sendToConnection_replayed; [done|]);
      unfold replayEventOf; simpl;
      (destruct (decide (c = c0)) as [->|Hne];
         [unfold replayCleared in Hcl; congruence|]);
      rewrite (bool_decide_eq_false_2 (c = c0)) by done;
      by rewrite andb_false_r.
Qed.

(** C8 as stated fails: replay 0 has delivered the event of 1200 when
    [stop_replay] clears the configuration; a [start_replay] arrives before
    replay 0 is resumed, its check finds a configuration, and replay 0
    delivers the event of 3400. *)
Lemma stopped_replay_resumes_after_restart :
  let config := Examples.mkConfig None in
  let st1 := step (Resume 0 true) (Examples.replayRequested config) in
  let st2 := step (Message "c1" (Examples.msg stop_replay) true) st1 in
  let st3 := run [Message "c1" (Examples.msg (start_replay config)) true;
                  Resume 0 true] st2 in
  replayed 0 "c1" st1 = [Examples.e1200]
  /\ connections st2 !! "c1" ≫= replayConfig = None
  /\ replayed 0 "c1" st3 = [Examples.e1200; Examples.e3400].
Proof. cbv zeta. repeat split; vm_compute; reflexivity. Qed.

(** **** C8, amended.  Before each delivery a replay checks that its
    connection exists and has a replay configuration, and when either check
    fails it returns, sending nothing and throwing nothing.  So once the
    configuration is cleared, by [stop_replay] or by the removal of the
    connection, no replay delivers an event to that connection for as long
    as no [start_replay] of the connection stores a configuration again. *)
Theorem cleared_connection_gets_no_replay_event st c turns :
  replayCleared st c ->
  forallb (fun t => negb (startsReplayFor c t)) turns = true ->
  (forall k d task,
      tasks st !! k = Some task -> owner task = c ->
      resumeReplay k d st = setTasks st (delete k (tasks st)))
  /\ replayCleared (run turns st) c
  /\ (forall k, replayed k c (run turns st) = replayed k c st).
Proof.
  intros Hcl Hturns. split.
  - intros k d task Ht Ho. unfold resumeReplay. rewrite Ht.
    unfold replayCleared in Hcl.
    destruct task as [c' cfg|c' evs]; simpl in Ho; subst c';
      unfold deliverNext;
      match goal with
      | |- context [match ?l with [] => _ | _ :: _ => _ end] =>
          destruct l as [|e r]; [done|]
      end; by rewrite Hcl.
  - revert st Hcl. induction turns as [|t turns IH]; intros st Hcl.
    + by split.
    + simpl in Hturns. apply andb_true_iff in Hturns as [Ht Hrest].
      apply negb_true_iff in Ht.
      pose proof (step_cleared st c t Hcl Ht) as Hcl'.
      destruct (IH Hrest (step t st) Hcl') as [H1 H2].
      split; [exact H1|].
      intros k. change (run (t :: turns) st) with (run turns (step t st)).
      by rewrite H2, step_silent.
Qed.

(** C8, amended, at a replay stopped after its first delivery. *)
Lemma cleared_connection_gets_no_replay_event_witness :
  let st := step (Message "c1" (Examples.msg stop_replay) true)
              (step (Resume 0 true)
                 (Examples.replayRequested (Examples.mkConfig None))) in
  let turns := [Resume 0 true;
                Message "c1" (Examples.msg (subscribe None)) true;
                Resume 0 true] in
  replayCleared st "c1"
  /\ forallb (fun t => negb (startsReplayFor "c1" t)) turns = true
  /\ (forall k, replayed k "c1" (run turns st) = replayed k "c1" st).
Proof.
  cbv zeta. repeat (split; [reflexivity|]).
  apply (cleared_connection_gets_no_replay_event
           (step (Message "c1" (Examples.msg stop_replay) true)
              (step (Resume 0 true)
                 (Examples.replayRequested (Examples.mkConfig None))))
           "c1"
           [Resume 0 true;
            Message "c1" (Examples.msg (subscribe None)) true;
            Resume 0 true]); reflexivity.
Defined.

(** *** Unsubscribing *)

Lemma filter_not_in_nil (l : list string) :
  List.filter (fun x => negb (bool_decide (x ∈ @nil string))) l = l.
Proof.
  induction l as [|x l IH]; [done|].
  cbn [List.filter]. rewrite IH.
  case_bool_decide as Hx; [by apply not_elem_of_nil in Hx | done].
Qed.

(** With no sources and no types, [handleUnsubscribe] removes nothing. *)
Lemma handleUnsubscribe_no_filter c d response st conn :
  connections st !! c = Some conn ->
  default [] (d ≫= sources) = [] -> default [] (d ≫= types) = [] ->
  connections (handleUnsubscribe c d response st).1 !! c
  = Some (setSubscriptions conn (subscriptions conn) (clock st)).
Proof.
  intros Hc Hs Ht. unfold handleUnsubscribe. rewrite Hc, Hs, Ht. simpl.
  rewrite lookup_insert_eq. by rewrite filter_not_in_nil.
Qed.

(** With [deviceIds] omitted, [handleUnsubscribeDevices] removes all. *)
Lemma handleUnsubscribeDevices_omitted c d response st conn :
  connections st !! c = Some conn -> d ≫= deviceIds = None ->
  connections (handleUnsubscribeDevices c d response st).1 !! c
  = Some (setDeviceSubscriptions conn [] (clock st)).
Proof.
  intros Hc Hd. unfold handleUnsubscribeDevices. rewrite Hc, Hd. simpl.
  by rewrite lookup_insert_eq.
Qed.

(** **** C10, on the code.  The session is subscribed to two topics and one
    device.  An [unsubscribe] message without [data], or with [data] that
    has neither sources nor types, leaves both topics subscribed, where the
    claim has them cleared; [unsubscribe_devices] without [deviceIds] does
    clear the devices. *)
Theorem unsubscribe_without_filter_keeps_topics :
  let st := Examples.oneSession in
  let absent := step (Message "c1" (Examples.msg (unsubscribe None)) true) st in
  let empty :=
    step (Message "c1"
            (Examples.msg
               (unsubscribe (Some {| sources := Some []; types := None |})))
            true) st in
  let devices :=
    step (Message "c1" (Examples.msg (unsubscribe_devices None)) true) st in
  subscriptions <$> connections st !! "c1"
  = Some ["iot_sensors"; "sensor_reading"]
  /\ subscriptions <$> connections absent !! "c1"
     = Some ["iot_sensors"; "sensor_reading"]
  /\ subscriptions <$> connections empty !! "c1"
     = Some ["iot_sensors"; "sensor_reading"]
  /\ deviceSubscriptions <$> connections st !! "c1" = Some ["d1"]
  /\ deviceSubscriptions <$> connections devices !! "c1" = Some [].
Proof. cbv zeta. repeat split; vm_compute; reflexivity. Qed.

End WebSocketFacts.

(** * Further properties of the code *)

(** ** Lists filtered by a boolean test *)
Module ListExtras.

Lemma filter_sublist {A : Type} (f : A -> bool) (l : list A) :
  List.filter f l `sublist_of` l.
Proof.
  induction l as [|x l IH]; simpl; [done|].
  destruct (f x); [by apply sublist_skip | by apply sublist_cons].
Qed.

Lemma filter_elem {A : Type} (f : A -> bool) (l : list A) (x : A) :
  x ∈ List.filter f l <-> x ∈ l /\ f x = true.
Proof. by rewrite !list_elem_of_In, filter_In. Qed.

Lemma filter_length {A : Type} (f : A -> bool) (l : list A) :
  (length (List.filter f l) <= length l)%nat.
Proof. apply sublist_length, filter_sublist. Qed.

(** The first item of a sorted list precedes every item. *)
Lemma sortBy_head_first {A : Type} (le : A -> A -> bool) (l : list A) (x : A) :
  (forall a b, le a b = true \/ le b a = true) ->
  (forall a b c, le a b = true -> le b c = true -> le a c = true) ->
  head (Ddb.sortBy le l) = Some x ->
  forall y, y ∈ l -> le x y = true.
Proof.
  intros Htotal Htrans Hhead y Hy.
  pose proof (DdbFacts.sortBy_sorted le Htotal l) as Hsorted.
  apply Sorted_StronglySorted in Hsorted;
    [|intros a b c; apply Htrans].
  rewrite <- (DdbFacts.sortBy_perm le l) in Hy.
  destruct (Ddb.sortBy le l) as [|z r]; [done|].
  simpl in Hhead. injection Hhead as ->.
  apply StronglySorted_inv in Hsorted as [_ Hall].
  apply elem_of_cons in Hy as [->|Hy].
  - by destruct (Htotal x x).
  - rewrite Forall_forall in Hall. by apply Hall.
Qed.

Lemma put_elem {A : Type} (sameKey : A -> A -> bool) (i x : A) (l : list A) :
  x ∈ Ddb.put sameKey i l -> x = i \/ x ∈ l.
Proof.
  unfold Ddb.put. intros H. apply elem_of_cons in H as [->|H]; [by left|].
  right. by apply filter_elem in H as [H _].
Qed.

End ListExtras.

(** ** The condition evaluator: order, and operators that negate each other *)
Module EvaluatorExtras.
Import Js Alert.

Lemma evaluate_app (C D : list AlertCondition) (P : Payload) :
  evaluateAlertConditions (C ++ D) P
  = match evaluateAlertConditions C P with
    | Some true => evaluateAlertConditions D P
    | verdict => verdict
    end.
Proof.
  unfold evaluateAlertConditions.
  induction C as [|c C IH]; simpl; [done|].
  by destruct (conditionHolds P c) as [[]|].
Qed.

(** Where no condition throws, [every] is the conjunction. *)
Lemma every_forallb {A : Type} (f : A -> option bool) (l : list A) :
  Forall (fun x => is_Some (f x)) l ->
  every f l = Some (forallb (fun x => bool_decide (f x = Some true)) l).
Proof.
  induction 1 as [|x l [b Hb] _ IH]; simpl; [done|].
  rewrite Hb. destruct b; simpl; [|done].
  by rewrite IH.
Qed.

Lemma forallb_perm {A : Type} (g : A -> bool) (l l' : list A) :
  l ≡ₚ l' -> forallb g l = forallb g l'.
Proof.
  induction 1 as [|x l l' _ IH|x y l|l l' l'' _ IH1 _ IH2]; simpl.
  - done.
  - by rewrite IH.
  - by destruct (g x), (g y).
  - by rewrite IH1.
Qed.

(** X1.  Whether a rule matches does not depend on the order in which it
    lists its conditions: a list matches exactly when its permutations do.
    Where no condition throws, the verdict is the same for every order; a
    condition that throws is reached or not according to whether a false
    condition comes before it.  A list put together from two lists gives
    the verdict of the second when the first matches, and the verdict of
    the first otherwise. *)
Theorem evaluate_order_irrelevant (C C' : list AlertCondition) (P : Payload) :
  C ≡ₚ C' ->
  (evaluateAlertConditions C P = Some true
   <-> evaluateAlertConditions C' P = Some true)
  /\ (Forall (fun c => is_Some (conditionHolds P c)) C ->
      evaluateAlertConditions C P = evaluateAlertConditions C' P)
  /\ forall D, evaluateAlertConditions (C ++ D) P
               = match evaluateAlertConditions C P with
                 | Some true => evaluateAlertConditions D P
                 | verdict => verdict
                 end.
Proof.
  intros Hp. split; [|split].
  - unfold evaluateAlertConditions.
    rewrite !AlertFacts.every_true. by rewrite Hp.
  - intros Hall. unfold evaluateAlertConditions.
    rewrite !every_forallb; [|by rewrite <- Hp | done].
    f_equal. by apply forallb_perm.
  - intros D. apply evaluate_app.
Qed.

Lemma evaluate_order_irrelevant_witness :
  [Examples.valueAbove40; Examples.humidityIsNotX]
    ≡ₚ [Examples.humidityIsNotX; Examples.valueAbove40]
  /\ evaluateAlertConditions
       [Examples.valueAbove40; Examples.humidityIsNotX]
       (Events.data Examples.reading45)
     = evaluateAlertConditions
         [Examples.humidityIsNotX; Examples.valueAbove40]
         (Events.data Examples.reading45).
Proof.
  split; [apply Permutation_swap|].
  destruct (evaluate_order_irrelevant
              [Examples.valueAbove40; Examples.humidityIsNotX]
              [Examples.humidityIsNotX; Examples.valueAbove40]
              (Events.data Examples.reading45)
              (Permutation_swap _ _ _)) as (_ & H & _).
  apply H. repeat constructor; by eexists.
Defined.

(** Comparing the other way round gives the opposite answer. *)
Lemma SFcompare_antisym (x y : number) :
  SFcompare y x = CompOpp <$> SFcompare x y.
Proof.
  destruct x as [sx|sx| |sx mx ex], y as [sy|sy| |sy my ey]; simpl;
    try done; try (by destruct sx); try (by destruct sy);
    try (by destruct sx, sy).
  destruct sx, sy; simpl; try done; f_equal;
    rewrite (Z.compare_antisym ey ex); destruct (ey ?= ex); simpl; try done.
  - f_equal. symmetry. apply (Pos.compare_cont_antisym mx my Eq).
  - symmetry. apply (Pos.compare_cont_antisym mx my Eq).
Qed.

Lemma SFcompare_not_NaN (x y : number) :
  x <> NaN -> y <> NaN -> is_Some (SFcompare x y).
Proof.
  intros Hx Hy. destruct x, y; simpl; try done; eauto.
Qed.

Lemma num_gt_le (a b : number) :
  a <> NaN -> b <> NaN -> num_gt a b = negb (num_le a b).
Proof.
  intros Ha Hb. unfold num_gt, num_le, SFltb, SFleb.
  rewrite (SFcompare_antisym a b).
  destruct (SFcompare_not_NaN a b Ha Hb) as [c ->]. by destruct c.
Qed.

Lemma num_lt_ge (a b : number) :
  a <> NaN -> b <> NaN -> num_lt a b = negb (num_ge a b).
Proof.
  intros Ha Hb. unfold num_lt, num_ge, SFltb, SFleb.
  rewrite (SFcompare_antisym a b).
  destruct (SFcompare_not_NaN a b Ha Hb) as [c ->]. by destruct c.
Qed.

(** X2.  On a field that the payload carries, [neq] is the negation of
    [eq] and [not_contains] the negation of [contains]; and unless the
    field or the rule's value converts to [NaN], [lte] is the negation of
    [gt] and [gte] the negation of [lt].  Where a conversion throws, it
    throws for both operators of a pair. *)
Theorem operators_negate_each_other (data : Payload) (f : string)
    (v fv : Js.value) :
  data !! f = Some fv -> fv <> JNull -> fv <> JUndefined ->
  let holds op :=
    conditionHolds data {| field := f; operator := op; value := v |} in
  holds OpNeq = negb <$> holds OpEq
  /\ holds OpNotContains = negb <$> holds OpContains
  /\ (ToNumber fv <> Some NaN -> ToNumber v <> Some NaN ->
      holds OpLte = negb <$> holds OpGt
      /\ holds OpGte = negb <$> holds OpLt).
Proof.
  intros Hf Hnull Hundef holds.
  assert (Hh : forall op, holds op = applyOperator op fv v).
  { intros op. unfold holds.
    by rewrite (AlertFacts.conditionHolds_present _ _ fv). }
  rewrite !Hh. simpl. split; [done|]. split.
  - destruct (ToString fv); [|done]. by destruct (ToString v).
  - intros Ha Hb.
    destruct (ToNumber fv) as [a|]; [|done].
    destruct (ToNumber v) as [b|]; [|done]. simpl.
    assert (a <> NaN) by congruence. assert (b <> NaN) by congruence.
    rewrite num_gt_le, num_lt_ge by done.
    by rewrite !negb_involutive.
Qed.

Lemma operators_negate_each_other_witness :
  Events.data Examples.reading45 !! "value" = Some (JNum (of_Z 45))
  /\ JNum (of_Z 45) <> JNull /\ JNum (of_Z 45) <> JUndefined
  /\ conditionHolds (Events.data Examples.reading45)
       {| field := "value"; operator := OpNeq; value := JStr "45" |}
     = negb <$> conditionHolds (Events.data Examples.reading45)
                  {| field := "value"; operator := OpEq;
                     value := JStr "45" |}.
Proof.
  split; [reflexivity|]. split; [discriminate|]. split; [discriminate|].
  pose proof (operators_negate_each_other (Events.data Examples.reading45)
                "value" (JStr "45") (JNum (of_Z 45))
                eq_refl ltac:(discriminate) ltac:(discriminate)) as [H _].
  exact H.
Defined.

End EvaluatorExtras.

(** ** The alert processor: what a pass over the rules does *)
Module ProcessorExtras.
Import Js Alert Events Processor ProcessorNotions ProcessorFacts.

Lemma fireAlert_outcome sv ev d rule w :
  concerns rule ev d = true ->
  RuleOutcome sv ev d rule w (fireAlert sv ev d rule w).
Proof.
  intros Hc.
  destruct (putRejects sv (instanceFor ev d rule (uuids w) (now w))) eqn:Hput.
  - rewrite fireAlert_put_rejected by done. by apply rule_store_rejected.
  - destruct (putEventsRejects sv (instanceFor ev d rule (uuids w) (now w)))
      eqn:Hpub.
    + replace (fireAlert sv ev d rule w)
        with (@Thrown unit PutEventsRejected,
              stored (instanceFor ev d rule (uuids w) (now w)) (drawn w)).
      { by apply rule_publish_rejected. }
      unfold fireAlert, uuidv4, dateNow, storeAlertInstance,
        triggerNotification. unfold_m. simpl. rewrite Hput. simpl.
      by rewrite Hpub.
    + replace (fireAlert sv ev d rule w)
        with (Ok tt,
              published (instanceFor ev d rule (uuids w) (now w)) rule
                (stored (instanceFor ev d rule (uuids w) (now w)) (drawn w))).
      { by apply rule_fired. }
      unfold fireAlert, uuidv4, dateNow, storeAlertInstance,
        triggerNotification. unfold_m. simpl. rewrite Hput. simpl.
      by rewrite Hpub.
Qed.

Lemma concerns_cases rule ev d :
  (concerns rule ev d = true
   /\ applies rule d = true
   /\ evaluateAlertConditions (conditions rule) (Events.data ev) = Some true)
  \/ passesOver rule ev d = true
  \/ conversionThrows rule ev d = true.
Proof.
  unfold concerns, passesOver, conversionThrows.
  destruct (applies rule d); simpl; [|by right; left].
  destruct (evaluateAlertConditions _ _) as [[]|]; simpl.
  - by left.
  - right. by left.
  - right. by right.
Qed.

Lemma applies_true rule d :
  applies rule d = true ->
  enabled rule = true
  /\ truthyStr (Alert.deviceId rule)
     && negb (bool_decide (Alert.deviceId rule = d)) = false.
Proof.
  unfold applies. intros [H1 H2]%andb_true_iff.
  by apply negb_true_iff in H2.
Qed.

Lemma concerns_true rule ev d :
  concerns rule ev d = true ->
  enabled rule = true
  /\ truthyStr (Alert.deviceId rule)
     && negb (bool_decide (Alert.deviceId rule = d)) = false
  /\ evaluateAlertConditions (conditions rule) (Events.data ev) = Some true.
Proof.
  unfold concerns. intros [H1 H2]%andb_true_iff.
  apply applies_true in H1 as [? ?]. by apply bool_decide_eq_true in H2.
Qed.

(** Every round of the loop comes to one of the seven outcomes. *)
Lemma processRule_outcome sv ev d rule w :
  RuleOutcome sv ev d rule w (processRule sv ev d rule w).
Proof.
  destruct (concerns_cases rule ev d) as [(Hc & Happ & Hmatch)|[Hp|Ht]].
  - apply applies_true in Happ as [Hen Happ].
    destruct (truthyStr d) eqn:Hd.
    + destruct (queryRejects sv (alertId rule) (default "" d)) eqn:Hq.
      * replace (processRule sv ev d rule w)
          with (@Thrown unit QueryRejected, w);
          [by apply rule_lookup_rejected|].
        unfold processRule. rewrite Hen, Happ, Hmatch. simpl. unfold_m.
        unfold getLastAlertForRule. by rewrite Hd, Hq.
      * rewrite (processRule_matching sv ev d rule w
                   (head (queryDeviceIndex (alertsTable w) (alertId rule) d)))
          by (try done; by apply getLastAlertForRule_answer).
        destruct (inCooldown _ _ _) eqn:Hcool;
          [|by apply fireAlert_outcome].
        unfold inCooldown in Hcool.
        destruct (head _) as [last|] eqn:Hlast; [|done].
        destruct (cooldownPeriod rule) as [cd|] eqn:Hcd; [|done].
        apply andb_true_iff in Hcool as [Hnz Hlt].
        apply negb_true_iff, Z.eqb_neq in Hnz. apply Z.ltb_lt in Hlt.
        apply queryDeviceIndex_head in Hlast as (Ha & Hdev & Hin).
        by apply (rule_in_cooldown sv ev d rule w last cd).
    + rewrite (processRule_matching sv ev d rule w None)
        by (try done; by apply getLastAlertForRule_no_device).
      by apply fireAlert_outcome.
  - replace (processRule sv ev d rule w) with (Ok tt, w);
      [by apply rule_skipped|].
    unfold passesOver, applies in Hp. unfold processRule.
    destruct (enabled rule); simpl in *; [|done].
    destruct (truthyStr (deviceId rule)
              && negb (bool_decide (deviceId rule = d))); simpl in *; [done|].
    apply bool_decide_eq_true in Hp. by rewrite Hp.
  - replace (processRule sv ev d rule w)
      with (@Thrown unit ConversionThrew, w);
      [by apply rule_conversion_threw|].
    unfold conversionThrows in Ht.
    apply andb_true_iff in Ht as [Happ Ht].
    apply applies_true in Happ as [Hen Happ].
    apply bool_decide_eq_true in Ht.
    unfold processRule. by rewrite Hen, Happ, Ht.
Qed.

(** A property that holds in a world and that every round keeps holds
    after the loop. *)
Lemma forEach_keeps {A : Type} (I : World -> Prop) (body : A -> M unit)
    (l : list A) :
  (forall x w, x ∈ l -> I w -> I (body x w).2) ->
  forall w, I w -> I (forEach body l w).2.
Proof.
  induction l as [|x l IH]; intros Hbody w Hw; simpl; [done|].
  unfold_m.
  pose proof (Hbody x w (list_elem_of_here x l) Hw) as Hx.
  destruct (body x w) as [[[]|e] w1]; simpl in *; [|done].
  apply IH; [|done]. intros y w0 Hy. apply Hbody. by apply list_elem_of_further.
Qed.

Lemma extends_refl w : extends w w.
Proof. by repeat split. Qed.

Lemma extends_trans w1 w2 w3 : extends w1 w2 -> extends w2 w3 -> extends w1 w3.
Proof.
  intros (H1 & H2 & H3 & H4 & H5) (G1 & G2 & G3 & G4 & G5).
  repeat split; try congruence; try lia; by etrans.
Qed.

Lemma outcome_extends sv ev d rule w r :
  RuleOutcome sv ev d rule w r -> extends w r.2.
Proof.
  destruct 1; simpl; repeat split; simpl;
    try done; try lia; try by apply prefix_app_r.
Qed.

(** What [getAlertRules] answers. *)
Lemma getAlertRules_answer sv d w :
  scanRejects sv = false ->
  getAlertRules sv d w
  = (Ok (List.filter
           (fun rule =>
              negb (truthyStr d)
              || negb (truthyStr (Alert.deviceId rule))
              || bool_decide (Alert.deviceId rule = d))
           (List.filter (fun r => String.prefix "rule_" (alertId r))
              (rulesTable w))), w).
Proof.
  intros Hs. unfold getAlertRules, Ddb.scan. rewrite Hs.
  destruct (truthyStr d); simpl; [done|].
  f_equal. f_equal. symmetry.
  generalize (List.filter (fun r => String.prefix "rule_" (alertId r))
                (rulesTable w)).
  induction l as [|x l IH]; simpl; [done|]. by rewrite IH.
Qed.

Lemma getAlertRules_members sv d w :
  scanRejects sv = false ->
  exists rules,
    getAlertRules sv d w = (Ok rules, w)
    /\ forall r, r ∈ rules ->
         r ∈ rulesTable w /\ String.prefix "rule_" (alertId r) = true.
Proof.
  intros Hs. eexists. split; [by apply getAlertRules_answer|].
  intros r. rewrite !list_elem_of_In, !filter_In. tauto.
Qed.

(** X3.  When the scan is answered, [getAlertRules] returns, in the order of
    the table, exactly the items whose [alertId] begins with [rule_] and
    which, for a reading with a device id, are unscoped or scoped to that
    device; it changes nothing.  For a reading without a device id it
    returns rules of every scope. *)
Theorem getAlertRules_selects sv d w :
  scanRejects sv = false ->
  exists rules,
    getAlertRules sv d w = (Ok rules, w)
    /\ rules `sublist_of` rulesTable w
    /\ forall r,
         r ∈ rules <->
         r ∈ rulesTable w
         /\ String.prefix "rule_" (alertId r) = true
         /\ (truthyStr d = false
             \/ truthyStr (Alert.deviceId r) = false
             \/ Alert.deviceId r = d).
Proof.
  intros Hs. eexists. split; [by apply getAlertRules_answer|]. split.
  - etrans; apply ListExtras.filter_sublist.
  - intros r. rewrite !list_elem_of_In, !filter_In.
    rewrite !orb_true_iff, !negb_true_iff, bool_decide_eq_true. tauto.
Qed.

Lemma getAlertRules_selects_witness :
  scanRejects Examples.reliable = false
  /\ getAlertRules Examples.reliable (Some "d1")
       (Examples.mkWorld 3000
          [Examples.ruleA; MoreExamples.ruleOfD2; MoreExamples.notARule;
           Examples.ruleG] [])
     = (Ok [Examples.ruleA; Examples.ruleG],
        Examples.mkWorld 3000
          [Examples.ruleA; MoreExamples.ruleOfD2; MoreExamples.notARule;
           Examples.ruleG] []).
Proof.
  split; [reflexivity|].
  destruct (getAlertRules_selects Examples.reliable (Some "d1")
              (Examples.mkWorld 3000
                 [Examples.ruleA; MoreExamples.ruleOfD2;
                  MoreExamples.notARule; Examples.ruleG] []) eq_refl)
    as (rules & Hrun & _).
  reflexivity.
Defined.

Lemma getAlertRules_logged sv d w rules l :
  getAlertRules sv d w = (Ok rules, w) ->
  getAlertRules sv d (logged l w) = (Ok rules, logged l w).
Proof.
  unfold getAlertRules. destruct (scanRejects sv); [done|]. simpl.
  destruct (truthyStr d); by intros [= <-].
Qed.

Lemma handler_not_telemetry sv ev w :
  isTelemetry ev = false ->
  handler sv ev w
  = (Ok tt, logged LogSkipNonTelemetry (logged LogReceived w)).
Proof.
  unfold isTelemetry, handler. intros H. unfold_m. simpl.
  rewrite <- negb_andb, H. reflexivity.
Qed.

Lemma handler_scan_rejected sv ev w :
  isTelemetry ev = true -> scanRejects sv = true ->
  handler sv ev w
  = (Thrown ScanRejected,
     logged (LogError ScanRejected) (logged LogReceived w)).
Proof.
  unfold isTelemetry, handler. intros H Hs. unfold_m. simpl.
  rewrite <- negb_andb, H. simpl.
  unfold tryCatch, getAlertRules. unfold_m. by rewrite Hs.
Qed.

(** The handler is its first line and the loop, with what the loop throws
    logged and thrown again. *)
Lemma handler_telemetry sv ev w rules :
  isTelemetry ev = true ->
  getAlertRules sv (readingDeviceId ev) w = (Ok rules, w) ->
  handler sv ev w =
  match forEach (processRule sv ev (readingDeviceId ev)) rules
          (logged LogReceived w) with
  | (Ok a, w') => (Ok a, w')
  | (Thrown e, w') => (Thrown e, logged (LogError e) w')
  end.
Proof.
  unfold isTelemetry, handler. intros H Hr. unfold_m. simpl.
  rewrite <- negb_andb, H. simpl.
  unfold tryCatch. unfold_m.
  change {| now := now w; rulesTable := rulesTable w;
            alertsTable := alertsTable w; eventBus := eventBus w;
            uuids := uuids w;
            console := (console w ++ [LogReceived])%list |}
    with (logged LogReceived w).
  rewrite (getAlertRules_logged sv _ w rules LogReceived Hr).
  by destruct (forEach _ rules _) as [[[]|e] w'].
Qed.

(** X4.  Rules that are disabled, scoped to another device or not matched by
    the reading cost nothing: when the loop passes over every rule, the
    handler returns normally and leaves the world as it is but for its
    first console line, calling neither the lookup nor the store nor the
    bus (the result is the same whether or not these would reject). *)
Theorem unconcerned_rules_do_nothing sv ev w rules :
  isTelemetry ev = true ->
  getAlertRules sv (readingDeviceId ev) w = (Ok rules, w) ->
  Forall (fun r => passesOver r ev (readingDeviceId ev) = true) rules ->
  handler sv ev w = (Ok tt, logged LogReceived w).
Proof.
  intros Ht Hr Hall. rewrite (handler_telemetry sv ev w rules) by done.
  assert (Hloop : forall w0,
    forEach (processRule sv ev (readingDeviceId ev)) rules w0 = (Ok tt, w0)).
  { clear Hr. intros w0.
    induction Hall as [|r rules Hp _ IH]; simpl; [done|].
    unfold_m.
    replace (processRule sv ev (readingDeviceId ev) r w0) with (Ok tt, w0);
      [done|].
    unfold passesOver, applies in Hp. unfold processRule.
    destruct (enabled r); simpl in *; [|done].
    destruct (truthyStr (deviceId r)
              && negb (bool_decide (deviceId r = readingDeviceId ev)));
      simpl in *; [done|].
    apply bool_decide_eq_true in Hp. by rewrite Hp. }
  by rewrite Hloop.
Qed.

(** Every service rejects. *)
Lemma unconcerned_rules_do_nothing_witness :
  let sv := {| scanRejects := false; queryRejects := fun _ _ => true;
               putRejects := fun _ => true;
               putEventsRejects := fun _ => true |} in
  let w := Examples.mkWorld 3000
             [MoreExamples.ruleOfD2; MoreExamples.ruleOnAbc] [] in
  isTelemetry Examples.reading45 = true
  /\ getAlertRules sv (readingDeviceId Examples.reading45) w
     = (Ok [MoreExamples.ruleOnAbc], w)
  /\ Forall (fun r => passesOver r Examples.reading45
                        (readingDeviceId Examples.reading45) = true)
        [MoreExamples.ruleOnAbc]
  /\ handler sv Examples.reading45 w = (Ok tt, logged LogReceived w).
Proof.
  cbv zeta. split; [reflexivity|]. split; [reflexivity|].
  assert (Hc : Forall (fun r => passesOver r Examples.reading45
                          (readingDeviceId Examples.reading45) = true)
                 [MoreExamples.ruleOnAbc])
    by (repeat constructor; vm_compute; reflexivity).
  split; [exact Hc|].
  apply (unconcerned_rules_do_nothing _ Examples.reading45 _
           [MoreExamples.ruleOnAbc]); [reflexivity | reflexivity | exact Hc].
Defined.



(** The loop keeps what every outcome keeps. *)
Lemma loop_keeps sv ev d (I : World -> Prop) (rules : list AlertRule) :
  (forall rule w r, rule ∈ rules -> I w ->
     RuleOutcome sv ev d rule w r -> I r.2) ->
  forall w, I w -> I (forEach (processRule sv ev d) rules w).2.
Proof.
  intros Hstep. apply forEach_keeps. intros rule w Hin Hw.
  apply (Hstep rule w _ Hin Hw). apply processRule_outcome.
Qed.

Lemma put_head {A : Type} (sameKey : A -> A -> bool) (i : A) (l : list A) :
  i ∈ Ddb.put sameKey i l.
Proof. unfold Ddb.put. by left. Qed.

Lemma put_keeps_other_keys (i x : AlertInstance) (l : list AlertInstance) :
  x ∈ l ->
  x ∈ Ddb.put (fun a b => bool_decide (inst_alertId a = inst_alertId b)) i l
  \/ inst_alertId x = inst_alertId i.
Proof.
  intros Hx. destruct (decide (inst_alertId x = inst_alertId i)) as [|Hne];
    [by right|].
  left. unfold Ddb.put. right. apply ListExtras.filter_elem.
  split; [done|]. by rewrite bool_decide_eq_false_2.
Qed.

Lemma put_keyed (i : AlertInstance) (l : list AlertInstance) :
  NoDup (inst_alertId <$> l) ->
  NoDup (inst_alertId
           <$> Ddb.put (fun a b => bool_decide (inst_alertId a = inst_alertId b))
                 i l).
Proof.
  intros Hnd. unfold Ddb.put. rewrite fmap_cons. apply NoDup_cons. split.
  - intros Hin. apply list_elem_of_fmap in Hin as (x & Hk & Hx).
    apply ListExtras.filter_elem in Hx as [_ Hx].
    apply negb_true_iff, bool_decide_eq_false in Hx. by destruct Hx.
  - induction l as [|x l IH]; simpl; [constructor|].
    rewrite fmap_cons in Hnd. apply NoDup_cons in Hnd as [Hx Hnd].
    destruct (negb _); [|by apply IH].
    rewrite fmap_cons. apply NoDup_cons. split; [|by apply IH].
    intros Hin. apply Hx.
    apply list_elem_of_fmap in Hin as (y & Hk & Hy).
    apply ListExtras.filter_elem in Hy as [Hy _].
    apply list_elem_of_fmap. by exists y.
Qed.

(** X6.  The alerts table is keyed by [alertId], and an instance carries the
    [alertId] of its rule, so a pass keeps at most one instance per rule:
    if no two items of the table share an [alertId] before the pass, none
    do after it; and an item that was in the table is still there after the
    pass unless an instance with the same [alertId], created in this pass,
    has taken its place. *)
Theorem handler_replaces_by_key sv ev w :
  (NoDup (inst_alertId <$> alertsTable w) ->
   NoDup (inst_alertId <$> alertsTable (handler sv ev w).2))
  /\ forall i, i ∈ alertsTable w ->
       i ∈ alertsTable (handler sv ev w).2
       \/ exists i', i' ∈ alertsTable (handler sv ev w).2
                     /\ inst_alertId i' = inst_alertId i
                     /\ (uuids w <= alertInstanceId i')%nat.
Proof.
  set (I := fun w1 : World =>
    (uuids w <= uuids w1)%nat
    /\ (NoDup (inst_alertId <$> alertsTable w) ->
        NoDup (inst_alertId <$> alertsTable w1))
    /\ forall i, i ∈ alertsTable w ->
         i ∈ alertsTable w1
         \/ exists i', i' ∈ alertsTable w1
                       /\ inst_alertId i' = inst_alertId i
                       /\ (uuids w <= alertInstanceId i')%nat).
  assert (Hlog : forall l w1, I w1 -> I (logged l w1)) by done.
  assert (Hput : forall w1 i0,
    I w1 -> (uuids w <= alertInstanceId i0)%nat -> I (stored i0 (drawn w1))).
  { intros w1 i0 (Hu & Hnd & Hk) Hi0. split; [simpl; lia|]. split.
    - intros H. simpl. by apply put_keyed, Hnd.
    - intros i Hi. simpl.
      destruct (Hk i Hi) as [Hin|(i' & Hin & Hsame & Hnew)].
      + destruct (put_keeps_other_keys i0 i _ Hin) as [?|Hsame];
          [by left|].
        right. exists i0. split; [apply put_head | done].
      + destruct (put_keeps_other_keys i0 i' _ Hin) as [?|Hsame'].
        * right. by exists i'.
        * right. exists i0. split; [apply put_head|].
          split; [congruence | done]. }
  assert (HI : I (handler sv ev w).2).
  { assert (H0 : I (logged LogReceived w)).
    { apply Hlog. split; [done|]. split; [done|]. intros i Hi. by left. }
    destruct (isTelemetry ev) eqn:Ht;
      [|rewrite handler_not_telemetry by done; by apply Hlog].
    destruct (scanRejects sv) eqn:Hs;
      [rewrite handler_scan_rejected by done; by apply Hlog|].
    rewrite (handler_telemetry sv ev w _ Ht (getAlertRules_answer _ _ _ Hs)).
    match goal with
    | |- context [forEach ?b ?l _] =>
        pose proof (loop_keeps sv ev (readingDeviceId ev) I l) as H
    end.
    lapply H.
    - intros Hloop. specialize (Hloop _ H0).
      destruct (forEach _ _ _) as [[[]|e] w']; simpl in *;
        [done | by apply Hlog].
    - intros rule w0 r _ Hw0 Ho.
      destruct Ho; simpl; try done.
      + destruct Hw0 as (Hu & ? & ?). split; [simpl; lia | by split].
      + apply Hput; [done|]. simpl. by destruct Hw0.
      + apply Hput; [done|]. simpl. by destruct Hw0. }
  destruct HI as (_ & Hnd & Hk). by split.
Qed.


(** X8.  Whatever happens, every item of the alerts table after the handler
    was there before or is an instance created in this pass: an instance for
    a rule of the rules table that concerns the reading, carrying that
    rule's id and name, the reading's device and event id, the clock
    reading as [triggeredAt] and the status [active], and accepted by the
    store.  Every entry of the bus was there before or announces such an
    instance.  In particular nothing is announced that the store rejected. *)
Theorem handler_stores_and_announces_created_instances sv ev w :
  (forall i, i ∈ alertsTable (handler sv ev w).2 ->
     i ∈ alertsTable w \/ exists rule, createdFor sv ev w rule i)
  /\ (forall n, n ∈ eventBus (handler sv ev w).2 ->
       n ∈ eventBus w
       \/ (createdFor sv ev w (n_rule n) (n_alertInstance n)
           /\ putEventsRejects sv (n_alertInstance n) = false)).
Proof.
  set (I := fun w1 : World =>
    extends w w1
    /\ (forall i, i ∈ alertsTable w1 ->
          i ∈ alertsTable w \/ exists rule, createdFor sv ev w rule i)
    /\ (forall n, n ∈ eventBus w1 ->
          n ∈ eventBus w
          \/ (createdFor sv ev w (n_rule n) (n_alertInstance n)
              /\ putEventsRejects sv (n_alertInstance n) = false))).
  assert (Hlog : forall l w1, I w1 -> I (logged l w1)).
  { intros l w1 (Hext & Ha & Hb). split; [|by split].
    apply (extends_trans _ _ _ Hext).
    repeat split; simpl; try done. by apply prefix_app_r. }
  assert (HI : I (handler sv ev w).2).
  { assert (H0 : I (logged LogReceived w))
      by (apply Hlog; split; [apply extends_refl | split; auto]).
    destruct (isTelemetry ev) eqn:Ht;
      [|rewrite handler_not_telemetry by done; by apply Hlog].
    destruct (scanRejects sv) eqn:Hs;
      [rewrite handler_scan_rejected by done; by apply Hlog|].
    destruct (getAlertRules_members sv (readingDeviceId ev) w Hs)
      as (rules & Hrun & Hrules).
    rewrite (handler_telemetry sv ev w rules Ht Hrun).
    pose proof (loop_keeps sv ev (readingDeviceId ev) I rules) as H.
    lapply H.
    - intros Hloop. specialize (Hloop _ H0).
      destruct (forEach _ rules _) as [[[]|e] w']; simpl in *;
        [done | by apply Hlog].
    - intros rule w0 r Hin (Hext & Ha & Hb) Ho.
      apply Hrules in Hin as (Hin & _).
      pose proof (outcome_extends _ _ _ _ _ _ Ho) as Hext'.
      pose proof (extends_trans _ _ _ Hext Hext') as Hext''.
      destruct Hext as (_ & Hnow & Huuid & _).
      assert (Hnew : forall i,
        i = instanceFor ev (readingDeviceId ev) rule (uuids w0) (now w0) ->
        concerns rule ev (readingDeviceId ev) = true ->
        putRejects sv i = false -> createdFor sv ev w rule i).
      { intros i -> Hc Hput. repeat split; try done.
        exists (uuids w0). split; [done|]. by rewrite Hnow. }
      destruct Ho as [Hc|Hc|Hc|last cd Hc|Hc Hput|Hc Hput Hpub|Hc Hput Hpub];
        simpl in *; (split; [done|]); try (by split).
      + split; [|done]. intros i Hi.
        apply ListExtras.put_elem in Hi as [->|Hi]; [|by apply Ha].
        right. exists rule. by apply Hnew.
      + split.
        * intros i Hi.
          apply ListExtras.put_elem in Hi as [->|Hi]; [|by apply Ha].
          right. exists rule. by apply Hnew.
        * intros n Hn. apply elem_of_app in Hn as [Hn|Hn]; [by apply Hb|].
          apply list_elem_of_singleton in Hn as ->. simpl.
          right. split; [by apply Hnew | done]. }
  destruct HI as (_ & Ha & Hb). by split.
Qed.

(** X9.  What the lookup returns, if anything, is an item of the alerts
    table for that rule and that device, and no item of the table for that
    device is newer; the lookup changes nothing. *)
Theorem lookup_answer_is_newest_of_device sv a d w w' last :
  getLastAlertForRule sv a d w = (Ok (Some last), w') ->
  w' = w
  /\ last ∈ alertsTable w
  /\ inst_alertId last = a /\ inst_deviceId last = d
  /\ forall i, i ∈ alertsTable w -> inst_deviceId i = d ->
       triggeredAt i <= triggeredAt last.
Proof.
  unfold getLastAlertForRule. intros H.
  destruct (truthyStr d); simpl in H; [|done].
  destruct (queryRejects sv a (default "" d)); [done|].
  injection H as Hhead <-. split; [done|].
  pose proof (queryDeviceIndex_head _ _ _ _ Hhead) as (Ha & Hd & Hin).
  repeat split; try done.
  intros i Hi Hdi. unfold queryDeviceIndex, Ddb.query in Hhead.
  set (partition := List.filter
         (fun i0 => bool_decide (inst_deviceId i0 = d)) (alertsTable w)) in *.
  set (order := fun a0 b : AlertInstance => triggeredAt b <=? triggeredAt a0)
    in *.
  destruct (Ddb.sortBy order partition) as [|first rest] eqn:Hsort; [done|].
  change (take 1 (first :: rest)) with [first] in Hhead. simpl in Hhead.
  destruct (bool_decide (inst_alertId first = a)); [|done].
  injection Hhead as ->.
  assert (Hle : order last i = true).
  { apply (ListExtras.sortBy_head_first order partition).
    - intros x y. unfold order. rewrite !Z.leb_le. lia.
    - intros x y z. unfold order. rewrite !Z.leb_le. lia.
    - by rewrite Hsort.
    - apply ListExtras.filter_elem. split; [done|].
      by apply bool_decide_eq_true. }
  unfold order in Hle. by apply Z.leb_le in Hle.
Qed.

Lemma lookup_answer_is_newest_of_device_witness :
  let w := Examples.mkWorld 31000 [Examples.ruleG]
             [Examples.firedAt "rule_G" 1 1000] in
  getLastAlertForRule Examples.reliable "rule_G" (Some "d1") w
  = (Ok (Some (Examples.firedAt "rule_G" 1 1000)), w)
  /\ Examples.firedAt "rule_G" 1 1000 ∈ alertsTable w.
Proof.
  cbv zeta. split; [reflexivity|].
  set (w := Examples.mkWorld 31000 [Examples.ruleG]
              [Examples.firedAt "rule_G" 1 1000]).
  assert (Hrun : getLastAlertForRule Examples.reliable "rule_G" (Some "d1") w
                 = (Ok (Some (Examples.firedAt "rule_G" 1 1000)), w))
    by reflexivity.
  exact (proj1 (proj2 (lookup_answer_is_newest_of_device _ _ _ _ _ _ Hrun))).
Defined.

(** *** Rules and the table of the deployed stack *)

Lemma uuid_is_no_rule_key (s : string) :
  AlertRules.isUuid s = true -> String.prefix "rule_" s = false.
Proof.
  intros Hu. destruct s as [|a s]; [done|].
  assert (Ha : AlertRules.isHex a = true).
  { unfold AlertRules.isUuid in Hu.
    cbn [AlertRules.hexGroups AlertRules.hexes] in Hu.
    by destruct (AlertRules.isHex a). }
  change (String.prefix "rule_" (String a s))
    with (if ascii_dec "r" a then String.prefix "ule_" s else false).
  destruct (ascii_dec "r" a) as [<-|Hne]; [|done].
  by vm_compute in Ha.
Qed.

(** X10.  A rule made by [createAlertRule] has the identifier [uuidv4()]
    drew as its [alertId], which does not begin with [rule_]: wherever it is
    stored, [getAlertRules] does not return it, so the alert processor never
    evaluates it. *)
Theorem created_rules_are_never_selected uuid created updated name conditions
    options sv d w rules w' :
  AlertRules.isUuid uuid = true ->
  getAlertRules sv d w = (Ok rules, w') ->
  AlertRules.createAlertRule uuid created updated name conditions options
  ∉ rules.
Proof.
  intros Hu Hrun Hin.
  assert (Hs : scanRejects sv = false).
  { unfold getAlertRules in Hrun. by destruct (scanRejects sv). }
  destruct (getAlertRules_members sv d w Hs) as (rules' & Hrun' & Hm).
  rewrite Hrun' in Hrun. injection Hrun as -> _.
  apply Hm in Hin as [_ Hp].
  unfold AlertRules.createAlertRule in Hp. cbn [alertId] in Hp.
  by rewrite (uuid_is_no_rule_key uuid Hu) in Hp.
Qed.

Lemma created_rules_are_never_selected_witness :
  let made :=
    AlertRules.createAlertRule "9b1deb4d-3b7d-4bad-9bdd-2b0d7b3dcb6d" 10 10
      "High temperature" [Examples.valueAbove40] None in
  made ∉ [Examples.ruleA].
Proof.
  cbv zeta.
  apply (created_rules_are_never_selected
           "9b1deb4d-3b7d-4bad-9bdd-2b0d7b3dcb6d" 10 10 "High temperature"
           [Examples.valueAbove40] None Examples.reliable (Some "d1")
           (Examples.mkWorld 3000
              [Examples.ruleA;
               AlertRules.createAlertRule
                 "9b1deb4d-3b7d-4bad-9bdd-2b0d7b3dcb6d" 10 10
                 "High temperature" [Examples.valueAbove40] None] [])
           [Examples.ruleA]
           (Examples.mkWorld 3000
              [Examples.ruleA;
               AlertRules.createAlertRule
                 "9b1deb4d-3b7d-4bad-9bdd-2b0d7b3dcb6d" 10 10
                 "High temperature" [Examples.valueAbove40] None] []));
    reflexivity.
Defined.

(** X11.  In the deployed stack rules and instances share one table keyed
    by [alertId], and an instance carries the [alertId] of its rule: storing
    the instance of a fired rule replaces the rule.  Afterwards the only
    item of the table under the rule's id is the instance; the scan for
    rules returns it if the id begins with [rule_]; and read as a rule it is
    not enabled, so the loop skips it whatever the reading. *)
Theorem fired_rule_is_replaced_by_its_instance ev d rule uuid t table :
  (AlertRules.RuleItem rule
   ∉ AlertRules.putInstance (instanceFor ev d rule uuid t) table)
  /\ (forall x,
        x ∈ AlertRules.putInstance (instanceFor ev d rule uuid t) table ->
        AlertRules.keyOf x = alertId rule ->
        x = AlertRules.InstanceItem (instanceFor ev d rule uuid t))
  /\ (String.prefix "rule_" (alertId rule) = true ->
      AlertRules.InstanceItem (instanceFor ev d rule uuid t)
      ∈ AlertRules.scanForRules
          (AlertRules.putInstance (instanceFor ev d rule uuid t) table))
  /\ forall r sv ev' d' w,
       AlertRules.readAs
         (AlertRules.InstanceItem (instanceFor ev d rule uuid t)) r ->
       processRule sv ev' d' r w = (Ok tt, w).
Proof.
  assert (Hkey : forall x,
    x ∈ AlertRules.putInstance (instanceFor ev d rule uuid t) table ->
    AlertRules.keyOf x = alertId rule ->
    x = AlertRules.InstanceItem (instanceFor ev d rule uuid t)).
  { intros x Hx Hk. unfold AlertRules.putInstance, Ddb.put in Hx.
    apply elem_of_cons in Hx as [->|Hx]; [done|].
    apply ListExtras.filter_elem in Hx as [_ Hx].
    apply negb_true_iff, bool_decide_eq_false in Hx. by destruct Hx. }
  split; [|split; [done|split]].
  - intros Hin. by specialize (Hkey _ Hin eq_refl).
  - intros Hp. unfold AlertRules.scanForRules, Ddb.scan.
    apply ListExtras.filter_elem. split; [|done].
    unfold AlertRules.putInstance, Ddb.put. by left.
  - intros r sv ev' d' w (_ & _ & He). unfold processRule. by rewrite He.
Qed.

End ProcessorExtras.

(** ** The WebSocket handler: subscriptions *)
Module WebSocketExtras.
Import Events WebSocket WebSocketNotions WebSocketFacts.
Local Open Scope list_scope.

Lemma dedupe_elem (l : list string) :
  forall seen x, x ∈ dedupe seen l <-> x ∈ l /\ x ∉ seen.
Proof.
  induction l as [|y l IH]; intros seen x; simpl.
  - split; [by intros H%elem_of_nil | by intros [H%elem_of_nil _]].
  - case_bool_decide as Hy.
    + rewrite IH, elem_of_cons. split.
      * intros [H1 H2]. split; [by right | done].
      * intros [[->|H1] H2]; [done | by split].
    + rewrite !elem_of_cons, IH, elem_of_cons. split.
      * intros [->|[H1 H2]]; [by split; [left|] |].
        split; [by right | tauto].
      * intros [[->|H1] H2]; [by left|].
        destruct (decide (x = y)) as [->|Hne]; [by left|].
        right. split; [done|]. by intros [?|?].
Qed.

Lemma dedupe_NoDup (l : list string) : forall seen, NoDup (dedupe seen l).
Proof.
  induction l as [|y l IH]; intros seen; simpl; [constructor|].
  case_bool_decide as Hy; [apply IH|].
  constructor; [|apply IH].
  rewrite dedupe_elem. intros [_ H]. apply H. by left.
Qed.

Lemma dedupe_ext (l : list string) :
  forall seen seen', (forall x, x ∈ seen <-> x ∈ seen') ->
  dedupe seen l = dedupe seen' l.
Proof.
  induction l as [|y l IH]; intros seen seen' Hs; simpl; [done|].
  rewrite (bool_decide_ext _ _ (Hs y)).
  case_bool_decide; [by apply IH|].
  f_equal. apply IH. intros x. rewrite !elem_of_cons. by rewrite Hs.
Qed.

Lemma dedupe_app (l m : list string) :
  forall seen, dedupe seen (l ++ m) = dedupe seen l ++ dedupe (l ++ seen) m.
Proof.
  induction l as [|y l IH]; intros seen; simpl; [done|].
  case_bool_decide as Hy.
  - rewrite IH. f_equal. apply dedupe_ext. intros x.
    rewrite elem_of_cons, !elem_of_app. split; [tauto|].
    intros [->|H]; [by right | done].
  - rewrite IH. simpl. do 2 f_equal. apply dedupe_ext. intros x.
    rewrite !elem_of_cons, !elem_of_app, elem_of_cons. tauto.
Qed.

Lemma dedupe_fresh (l : list string) :
  forall seen, NoDup l -> (forall x, x ∈ l -> x ∉ seen) -> dedupe seen l = l.
Proof.
  induction l as [|y l IH]; intros seen Hnd Hf; simpl; [done|].
  apply NoDup_cons in Hnd as [Hy Hnd].
  rewrite bool_decide_eq_false_2 by (apply Hf; by left).
  f_equal. apply IH; [done|].
  intros x Hx [->|Hs]%elem_of_cons; [done|].
  apply (Hf x); [by right | done].
Qed.

Lemma dedupe_seen (l : list string) :
  forall seen, (forall x, x ∈ l -> x ∈ seen) -> dedupe seen l = [].
Proof.
  induction l as [|y l IH]; intros seen Hs; simpl; [done|].
  rewrite bool_decide_eq_true_2 by (apply Hs; by left).
  apply IH. intros x Hx. apply Hs. by right.
Qed.

Lemma filter_all {A : Type} (f : A -> bool) (l : list A) :
  (forall x, x ∈ l -> f x = true) -> List.filter f l = l.
Proof.
  induction l as [|y l IH]; intros H; simpl; [done|].
  rewrite (H y) by (by left). f_equal. apply IH. intros x Hx. apply H.
  by right.
Qed.

Lemma filter_none {A : Type} (f : A -> bool) (l : list A) :
  (forall x, x ∈ l -> f x = false) -> List.filter f l = [].
Proof.
  induction l as [|y l IH]; intros H; simpl; [done|].
  rewrite (H y) by (by left). apply IH. intros x Hx. apply H. by right.
Qed.

Lemma filter_NoDup {A : Type} (f : A -> bool) (l : list A) :
  NoDup l -> NoDup (List.filter f l).
Proof. intros H. by apply (sublist_NoDup _ l), ListExtras.filter_sublist. Qed.

(** What [handleSubscribe] leaves in the registry. *)
Lemma handleSubscribe_entry c d response st conn :
  connections st !! c = Some conn ->
  handleSubscribe c d response st
  = (setConnections st
       (<[c := setSubscriptions conn
                 (dedupe [] (subscriptions conn ++ namedTopics d))
                 (clock st)]> (connections st)),
     withData response
       (Subscribed (dedupe [] (subscriptions conn ++ namedTopics d)))).
Proof.
  intros Hc. unfold handleSubscribe, namedTopics. rewrite Hc.
  by rewrite <- !app_assoc.
Qed.

Lemma handleUnsubscribe_entry c d response st conn :
  connections st !! c = Some conn ->
  handleUnsubscribe c d response st
  = (setConnections st
       (<[c := setSubscriptions conn
                 (List.filter
                    (fun sub => negb (bool_decide (sub ∈ namedTopics d)))
                    (subscriptions conn))
                 (clock st)]> (connections st)),
     withData response
       (Subscribed
          (List.filter (fun sub => negb (bool_decide (sub ∈ namedTopics d)))
             (subscriptions conn)))).
Proof. intros Hc. unfold handleUnsubscribe, namedTopics. by rewrite Hc. Qed.

(** X12.  [subscribe] from a registered session leaves it subscribed to
    the topics it had and to the sources and types the message names, each
    once, and answers with that list.  If the session listed no topic twice,
    the topics it had keep their places and the new ones follow.  The same
    message once more changes nothing in the list. *)
Theorem subscribe_merges_without_duplicates c d response st conn :
  connections st !! c = Some conn ->
  exists subs,
    subscriptions <$> connections (handleSubscribe c d response st).1 !! c
    = Some subs
    /\ data (handleSubscribe c d response st).2 = Subscribed subs
    /\ NoDup subs
    /\ (forall x, x ∈ subs <-> x ∈ subscriptions conn \/ x ∈ namedTopics d)
    /\ (NoDup (subscriptions conn) -> subscriptions conn `prefix_of` subs)
    /\ subscriptions
         <$> connections
               (handleSubscribe c d response
                  (handleSubscribe c d response st).1).1 !! c
       = Some subs.
Proof.
  intros Hc. rewrite (handleSubscribe_entry c d response st conn Hc).
  set (subs := dedupe [] (subscriptions conn ++ namedTopics d)).
  exists subs. simpl. rewrite lookup_insert_eq. simpl.
  assert (Hin : forall x, x ∈ subs
                <-> x ∈ subscriptions conn \/ x ∈ namedTopics d).
  { intros x. unfold subs. rewrite dedupe_elem, elem_of_app.
    split; [tauto|]. intros H. split; [done|]. apply not_elem_of_nil. }
  repeat split; try done.
  - apply dedupe_NoDup.
  - by apply Hin.
  - by apply Hin.
  - intros Hnd. unfold subs. rewrite dedupe_app.
    rewrite dedupe_fresh; [by eexists | done |].
    intros x _. apply not_elem_of_nil.
  - erewrite handleSubscribe_entry by (simpl; apply lookup_insert_eq).
    simpl. rewrite lookup_insert_eq. simpl. f_equal.
    rewrite dedupe_app.
    rewrite dedupe_fresh;
      [|apply dedupe_NoDup | intros x _; apply not_elem_of_nil].
    rewrite dedupe_seen; [apply app_nil_r|].
    intros x Hx. rewrite app_nil_r. apply Hin. by right.
Qed.

Lemma subscribe_merges_without_duplicates_witness :
  exists subs,
    subscriptions
      <$> connections
            (handleSubscribe "c1"
               (Some {| sources := Some ["weather"; "iot_sensors"];
                        types := Some ["weather"] |})
               (withData (replayMessage Examples.e1200 0) NoData)
               Examples.oneSession).1 !! "c1"
    = Some subs
    /\ NoDup subs.
Proof.
  destruct (subscribe_merges_without_duplicates "c1"
              (Some {| sources := Some ["weather"; "iot_sensors"];
                       types := Some ["weather"] |})
              (withData (replayMessage Examples.e1200 0) NoData)
              Examples.oneSession
              (Examples.session "c1" ["iot_sensors"; "sensor_reading"]
                 ["d1"] None) eq_refl)
    as (subs & H1 & _ & H2 & _).
  exists subs. by split.
Defined.

(** X13.  [unsubscribe] and [unsubscribe_devices] with a list remove what
    the message names and nothing else: what stays is what the session had
    and the message does not name, in the order it had. *)
Theorem unsubscribe_removes_the_named_only c response st conn :
  connections st !! c = Some conn ->
  (forall d, exists subs,
     subscriptions <$> connections (handleUnsubscribe c d response st).1 !! c
     = Some subs
     /\ data (handleUnsubscribe c d response st).2 = Subscribed subs
     /\ subs `sublist_of` subscriptions conn
     /\ forall x, x ∈ subs <-> x ∈ subscriptions conn /\ x ∉ namedTopics d)
  /\ (forall ids, exists devs,
        deviceSubscriptions
          <$> connections
                (handleUnsubscribeDevices c
                   (Some {| deviceIds := Some ids |}) response st).1 !! c
        = Some devs
        /\ data (handleUnsubscribeDevices c
                   (Some {| deviceIds := Some ids |}) response st).2
           = SubscribedDevices devs
        /\ devs `sublist_of` deviceSubscriptions conn
        /\ forall x, x ∈ devs <-> x ∈ deviceSubscriptions conn /\ x ∉ ids).
Proof.
  intros Hc. split.
  - intros d. rewrite (handleUnsubscribe_entry c d response st conn Hc).
    eexists. simpl. rewrite lookup_insert_eq. simpl.
    repeat split; try done.
    + apply ListExtras.filter_sublist.
    + by apply ListExtras.filter_elem in H as [H _].
    + apply ListExtras.filter_elem in H as [_ H].
      apply negb_true_iff in H. by apply bool_decide_eq_false in H.
    + intros [H1 H2]. apply ListExtras.filter_elem. split; [done|].
      apply negb_true_iff. by apply bool_decide_eq_false.
  - intros ids. unfold handleUnsubscribeDevices. rewrite Hc. simpl.
    eexists. rewrite lookup_insert_eq. simpl.
    repeat split; try done.
    + apply ListExtras.filter_sublist.
    + by apply ListExtras.filter_elem in H as [H _].
    + apply ListExtras.filter_elem in H as [_ H].
      apply negb_true_iff in H. by apply bool_decide_eq_false in H.
    + intros [H1 H2]. apply ListExtras.filter_elem. split; [done|].
      apply negb_true_iff. by apply bool_decide_eq_false.
Qed.

Lemma unsubscribe_removes_the_named_only_witness :
  exists subs,
    subscriptions
      <$> connections
            (handleUnsubscribe "c1"
               (Some {| sources := Some ["iot_sensors"]; types := None |})
               (withData (replayMessage Examples.e1200 0) NoData)
               Examples.oneSession).1 !! "c1"
    = Some subs
    /\ subs `sublist_of` ["iot_sensors"; "sensor_reading"].
Proof.
  destruct (unsubscribe_removes_the_named_only "c1"
              (withData (replayMessage Examples.e1200 0) NoData)
              Examples.oneSession
              (Examples.session "c1" ["iot_sensors"; "sensor_reading"]
                 ["d1"] None) eq_refl) as [H _].
  destruct (H (Some {| sources := Some ["iot_sensors"]; types := None |}))
    as (subs & H1 & _ & H2 & _).
  exists subs. by split.
Defined.

(** X14.  A session that lists no topic twice and none of the topics a
    message names has, after [subscribe] and then [unsubscribe] with that
    message, the list it had. *)
Theorem subscribe_then_unsubscribe_restores c d r1 r2 st conn :
  connections st !! c = Some conn ->
  NoDup (subscriptions conn) ->
  (forall x, x ∈ namedTopics d -> x ∉ subscriptions conn) ->
  subscriptions
    <$> connections
          (handleUnsubscribe c d r2 (handleSubscribe c d r1 st).1).1 !! c
  = Some (subscriptions conn).
Proof.
  intros Hc Hnd Hnew.
  rewrite (handleSubscribe_entry c d r1 st conn Hc).
  erewrite handleUnsubscribe_entry by (simpl; apply lookup_insert_eq).
  simpl. rewrite lookup_insert_eq. simpl. f_equal.
  rewrite dedupe_app.
  rewrite dedupe_fresh; [|done | intros x _; apply not_elem_of_nil].
  rewrite List.filter_app.
  rewrite filter_all, filter_none; [apply app_nil_r | |].
  - intros x Hx. apply dedupe_elem in Hx as [Hx _].
    apply negb_false_iff. by apply bool_decide_eq_true.
  - intros x Hx. apply negb_true_iff. apply bool_decide_eq_false.
    intros Hn. by apply (Hnew x).
Qed.

Lemma subscribe_then_unsubscribe_restores_witness :
  subscriptions
    <$> connections
          (handleUnsubscribe "c1"
             (Some {| sources := Some ["weather"]; types := Some ["alarm"] |})
             (withData (replayMessage Examples.e1200 0) NoData)
             (handleSubscribe "c1"
                (Some {| sources := Some ["weather"];
                         types := Some ["alarm"] |})
                (withData (replayMessage Examples.e1200 0) NoData)
                Examples.oneSession).1).1 !! "c1"
  = Some ["iot_sensors"; "sensor_reading"].
Proof.
  apply (subscribe_then_unsubscribe_restores "c1"
           (Some {| sources := Some ["weather"]; types := Some ["alarm"] |})
           _ _ Examples.oneSession
           (Examples.session "c1" ["iot_sensors"; "sensor_reading"]
              ["d1"] None) eq_refl).
  - by apply (bool_decide_unpack _).
  - apply Forall_forall.
    by apply (bool_decide_unpack
                (Forall (fun y => y ∉ ["iot_sensors"; "sensor_reading"])
                   ["weather"; "alarm"])).
Defined.

(** *** What a turn changes *)

Lemma handleMessage_dispatch c m d st :
  handleMessage c m d st
  = sendToConnection ByHandler c (dispatch c m st).2 d (dispatch c m st).1.
Proof.
  unfold handleMessage, dispatch.
  by destruct (match request m with
               | subscribe _ => _ | unsubscribe _ => _
               | subscribe_devices _ => _ | unsubscribe_devices _ => _
               | subscribe_alerts => _ | unsubscribe_alerts => _
               | query_events _ => _ | start_replay _ => _
               | stop_replay => _ | ping => _ | unknown _ => _
               end).
Qed.

(** A handler leaves the state alone, or it replaces the entry of its own
    session and, for [start_replay], starts one replay under the next
    number.  It sends nothing itself, and it echoes the action and the
    request id. *)
Lemma dispatch_shape c m st :
  sent (dispatch c m st).1 = sent st
  /\ eventsTable (dispatch c m st).1 = eventsTable st
  /\ clock (dispatch c m st).1 = clock st
  /\ action (dispatch c m st).2 = actionOf (request m)
  /\ resp_requestId (dispatch c m st).2 = requestId m
  /\ resp_timestamp (dispatch c m st).2 = clock st
  /\ ((dispatch c m st).1 = st
      \/ exists conn conn',
           connections st !! c = Some conn
           /\ connections (dispatch c m st).1 = <[c := conn']> (connections st)
           /\ (NoDup (subscriptions conn) -> NoDup (subscriptions conn'))
           /\ (NoDup (deviceSubscriptions conn)
               -> NoDup (deviceSubscriptions conn'))
           /\ ((tasks (dispatch c m st).1 = tasks st
                /\ nextTask (dispatch c m st).1 = nextTask st)
               \/ exists cfg,
                    request m = start_replay cfg
                    /\ tasks (dispatch c m st).1
                       = <[nextTask st := Fetching c cfg]> (tasks st)
                    /\ nextTask (dispatch c m st).1 = S (nextTask st))).
Proof.
  unfold dispatch.
  destruct (request m) as [d|d|d|d| | |f|cfg| | |a]; simpl;
    try (repeat split; try done; by left);
    unfold handleSubscribe, handleUnsubscribe, handleSubscribeDevices,
      handleUnsubscribeDevices, handleSubscribeAlerts,
      handleUnsubscribeAlerts, handleStartReplay, handleStopReplay;
    (destruct (connections st !! c) as [conn|] eqn:Hc; simpl;
       [|repeat split; try done; by left]);
    (repeat split; try done); right; exists conn; eexists;
    (split; [done|]); (split; [reflexivity|]); simpl.
  - repeat split; try done; [intros _; apply dedupe_NoDup | by left].
  - repeat split; try done; [apply filter_NoDup | by left].
  - repeat split; try done; [|by left].
    destruct (d ≫= deviceIds); [intros _; apply dedupe_NoDup | done].
  - repeat split; try done; [|by left].
    destruct (d ≫= deviceIds); [apply filter_NoDup | intros _; constructor].
  - repeat split; try done. by left.
  - repeat split; try done. by left.
  - repeat split; try done. right. by exists cfg.
  - repeat split; try done. by left.
Qed.

Lemma sendToConnection_shape by_ c m d st :
  eventsTable (sendToConnection by_ c m d st) = eventsTable st
  /\ tasks (sendToConnection by_ c m d st) = tasks st
  /\ nextTask (sendToConnection by_ c m d st) = nextTask st
  /\ clock (sendToConnection by_ c m d st) = clock st
  /\ connections (sendToConnection by_ c m d st)
     = (if d then connections st else delete c (connections st))
  /\ sent (sendToConnection by_ c m d st)
     = (if d then sent st ++ [{| sent_to := c; sent_by := by_;
                                 sent_msg := m |}]
        else sent st).
Proof. unfold sendToConnection. by destruct d. Qed.

(** A resumed replay that is still there delivers to its owner or ends. *)
Lemma resumeReplay_shape k d st t :
  tasks st !! k = Some t ->
  eventsTable (resumeReplay k d st) = eventsTable st
  /\ nextTask (resumeReplay k d st) = nextTask st
  /\ clock (resumeReplay k d st) = clock st
  /\ ((connections (resumeReplay k d st) = connections st
       /\ sent (resumeReplay k d st) = sent st
       /\ tasks (resumeReplay k d st) = delete k (tasks st)
       /\ (pending (eventsTable st) t = []
           \/ replayCleared st (owner t)))
      \/ exists e rest,
           pending (eventsTable st) t = e :: rest
           /\ ~ replayCleared st (owner t)
           /\ tasks (resumeReplay k d st)
              = <[k := Delivering (owner t) rest]> (tasks st)
           /\ connections (resumeReplay k d st)
              = (if d then connections st
                 else delete (owner t) (connections st))
           /\ sent (resumeReplay k d st)
              = (if d
                 then sent st ++ [sentByReplay k (owner t) (clock st) e]
                 else sent st)).
Proof.
  intros Ht. unfold resumeReplay. rewrite Ht.
  assert (H : forall c evs, owner t = c -> pending (eventsTable st) t = evs ->
    eventsTable (deliverNext k c evs d st) = eventsTable st
    /\ nextTask (deliverNext k c evs d st) = nextTask st
    /\ clock (deliverNext k c evs d st) = clock st
    /\ ((connections (deliverNext k c evs d st) = connections st
         /\ sent (deliverNext k c evs d st) = sent st
         /\ tasks (deliverNext k c evs d st) = delete k (tasks st)
         /\ (pending (eventsTable st) t = []
             \/ replayCleared st (owner t)))
        \/ exists e rest,
             pending (eventsTable st) t = e :: rest
             /\ ~ replayCleared st (owner t)
             /\ tasks (deliverNext k c evs d st)
                = <[k := Delivering (owner t) rest]> (tasks st)
             /\ connections (deliverNext k c evs d st)
                = (if d then connections st
                   else delete (owner t) (connections st))
             /\ sent (deliverNext k c evs d st)
                = (if d
                   then sent st ++ [sentByReplay k (owner t) (clock st) e]
                   else sent st))).
  { intros c evs Ho Hp. rewrite Ho, Hp. unfold deliverNext.
    destruct evs as [|e rest]; simpl.
    - repeat split; try done. left. repeat split; try done. by left.
    - destruct (connections st !! c ≫= replayConfig) as [cfg|] eqn:Hcfg.
      + pose proof (sendToConnection_shape (ByReplay k) c
                      (replayMessage e (clock st)) d
                      (setTasks st (<[k:=Delivering c rest]> (tasks st))))
          as (H1 & H2 & H3 & H4 & H5 & H6).
        repeat split; try done. right. exists e, rest.
        repeat split; try done.
        unfold replayCleared. by rewrite Hcfg.
      + repeat split; try done. left. repeat split; try done. by right. }
  destruct t as [c cfg|c evs]; by apply H.
Qed.

(** X15.  A turn changes the registry entry of no session but its own:
    a route's turn that of the connection it is called for, a replay's turn
    that of the connection the replay delivers to. *)
Theorem turn_touches_its_own_session_only st t c :
  turnConnection st t <> Some c ->
  connections (step t st) !! c = connections st !! c.
Proof.
  intros Hne. destruct t as [c'|c'|c' m d|k d]; simpl in *.
  - rewrite lookup_insert_ne; [done | congruence].
  - rewrite lookup_delete_ne; [done | congruence].
  - rewrite handleMessage_dispatch.
    pose proof (sendToConnection_shape ByHandler c' (dispatch c' m st).2 d
                  (dispatch c' m st).1) as (_ & _ & _ & _ & -> & _).
    assert (Hd : connections (dispatch c' m st).1 !! c = connections st !! c).
    { destruct (dispatch_shape c' m st)
        as (_ & _ & _ & _ & _ & _ & [->|(conn & conn' & _ & -> & _)]);
        [done|].
      rewrite lookup_insert_ne; [done | congruence]. }
    destruct d; [done|].
    rewrite lookup_delete_ne; [done | congruence].
  - destruct (tasks st !! k) as [t|] eqn:Ht; simpl in Hne.
    + destruct (resumeReplay_shape k d st t Ht)
        as (_ & _ & _ & [(-> & _)|(e & rest & _ & _ & _ & -> & _)]);
        [done|].
      destruct d; [done|].
      rewrite lookup_delete_ne; [done | congruence].
    + unfold resumeReplay. by rewrite Ht.
Qed.

Lemma turn_touches_its_own_session_only_witness :
  connections
    (step (Message "c2" (Examples.msg (subscribe None)) false)
       Examples.oneSession) !! "c1"
  = connections Examples.oneSession !! "c1".
Proof.
  apply (turn_touches_its_own_session_only Examples.oneSession
           (Message "c2" (Examples.msg (subscribe None)) false) "c1").
  simpl. discriminate.
Defined.

(** X16.  If no session lists a topic or a device twice, none does after
    any sequence of turns. *)
Theorem subscriptions_stay_duplicate_free turns st :
  duplicateFree st -> duplicateFree (run turns st).
Proof.
  revert st. induction turns as [|t turns IH]; intros st Hst; [done|].
  simpl. apply IH. clear IH turns.
  assert (Hdel : forall c (m : gmap string ConnectionInfo),
    (forall c0 conn, m !! c0 = Some conn ->
       NoDup (subscriptions conn) /\ NoDup (deviceSubscriptions conn)) ->
    forall c0 conn, delete c m !! c0 = Some conn ->
      NoDup (subscriptions conn) /\ NoDup (deviceSubscriptions conn)).
  { intros c m Hm c0 conn Hc0.
    apply lookup_delete_Some in Hc0 as [_ Hc0]. by apply (Hm c0). }
  assert (Hins : forall c x (m : gmap string ConnectionInfo),
    (forall c0 conn, m !! c0 = Some conn ->
       NoDup (subscriptions conn) /\ NoDup (deviceSubscriptions conn)) ->
    NoDup (subscriptions x) -> NoDup (deviceSubscriptions x) ->
    forall c0 conn, <[c := x]> m !! c0 = Some conn ->
      NoDup (subscriptions conn) /\ NoDup (deviceSubscriptions conn)).
  { intros c x m Hm H1 H2 c0 conn Hc0.
    apply lookup_insert_Some in Hc0 as [[_ <-]|[_ Hc0]]; [done|].
    by apply (Hm c0). }
  unfold duplicateFree in *.
  destruct t as [c|c|c m d|k d]; simpl.
  - apply Hins; [done | constructor | constructor].
  - by apply Hdel.
  - rewrite handleMessage_dispatch.
    pose proof (sendToConnection_shape ByHandler c (dispatch c m st).2 d
                  (dispatch c m st).1) as (_ & _ & _ & _ & -> & _).
    assert (Hd : forall c0 conn,
      connections (dispatch c m st).1 !! c0 = Some conn ->
      NoDup (subscriptions conn) /\ NoDup (deviceSubscriptions conn)).
    { destruct (dispatch_shape c m st)
        as (_ & _ & _ & _ & _ & _
            & [->|(conn & conn' & Hc & -> & H1 & H2 & _)]); [done|].
      destruct (Hst c conn Hc) as [Hs Hv]. apply Hins; auto. }
    destruct d; [done | by apply Hdel].
  - destruct (tasks st !! k) as [t|] eqn:Ht.
    + destruct (resumeReplay_shape k d st t Ht)
        as (_ & _ & _ & [(-> & _)|(e & rest & _ & _ & _ & -> & _)]);
        [done|].
      destruct d; [done | by apply Hdel].
    + unfold resumeReplay. by rewrite Ht.
Qed.

Lemma subscriptions_stay_duplicate_free_witness :
  duplicateFree
    (run [Message "c1"
            (Examples.msg
               (subscribe (Some {| sources := Some ["iot_sensors"; "x"; "x"];
                                   types := None |}))) true]
       Examples.oneSession).
Proof.
  apply (subscriptions_stay_duplicate_free _ Examples.oneSession).
  intros c conn Hc.
  destruct (decide (c = "c1")) as [->|Hne].
  - injection Hc as <-. split; by apply (bool_decide_unpack _).
  - unfold Examples.oneSession, Examples.mkState in Hc. simpl in Hc.
    rewrite lookup_insert_ne in Hc by done. by rewrite lookup_empty in Hc.
Defined.

(** X17.  A message is answered once: if the delivery succeeds, exactly one
    message is sent, to the sender, and it echoes the action and the request
    id of the message; if the delivery fails, nothing is sent and the
    sender's session is removed from the registry. *)
Theorem message_is_answered_once c m st :
  (exists answer,
     sent (handleMessage c m true st)
     = sent st ++ [{| sent_to := c; sent_by := ByHandler;
                      sent_msg := answer |}]
     /\ action answer = actionOf (request m)
     /\ resp_requestId answer = requestId m)
  /\ sent (handleMessage c m false st) = sent st
  /\ connections (handleMessage c m false st) !! c = None.
Proof.
  rewrite !handleMessage_dispatch.
  destruct (dispatch_shape c m st) as (Hs & _ & _ & Ha & Hr & _).
  split; [|split].
  - exists (dispatch c m st).2. simpl. by rewrite Hs.
  - done.
  - simpl. apply lookup_delete_eq.
Qed.

(** X18.  A message from a connection that is not in the registry changes
    neither the registry nor the replays; the handlers that look the session
    up answer [Connection not found] and no data. *)
Theorem unregistered_sender_changes_nothing c m d st :
  connections st !! c = None ->
  connections (handleMessage c m d st) = connections st
  /\ tasks (handleMessage c m d st) = tasks st
  /\ nextTask (handleMessage c m d st) = nextTask st
  /\ (needsSession (request m) = true ->
      error (dispatch c m st).2 = Some "Connection not found"
      /\ data (dispatch c m st).2 = NoData).
Proof.
  intros Hc. rewrite handleMessage_dispatch.
  pose proof (sendToConnection_shape ByHandler c (dispatch c m st).2 d
                (dispatch c m st).1) as (_ & -> & -> & _ & -> & _).
  assert (Hst : (dispatch c m st).1 = st).
  { destruct (dispatch_shape c m st)
      as (_ & _ & _ & _ & _ & _ & [H|(conn & _ & Hc' & _)]); [done|].
    congruence. }
  rewrite Hst. repeat split; try done.
  - destruct d; [done|]. by apply delete_id.
  - unfold dispatch.
    by destruct (request m); simpl; try done;
      unfold handleSubscribe, handleUnsubscribe, handleSubscribeDevices,
        handleUnsubscribeDevices, handleSubscribeAlerts,
        handleUnsubscribeAlerts, handleStartReplay, handleStopReplay;
      rewrite Hc.
  - unfold dispatch.
    by destruct (request m); simpl; try done;
      unfold handleSubscribe, handleUnsubscribe, handleSubscribeDevices,
        handleUnsubscribeDevices, handleSubscribeAlerts,
        handleUnsubscribeAlerts, handleStartReplay, handleStopReplay;
      rewrite Hc.
Qed.

Lemma unregistered_sender_changes_nothing_witness :
  tasks (handleMessage "c2"
           (Examples.msg (start_replay (Examples.mkConfig None))) true
           Examples.oneSession)
  = tasks Examples.oneSession.
Proof.
  apply (unregistered_sender_changes_nothing "c2"
           (Examples.msg (start_replay (Examples.mkConfig None))) true
           Examples.oneSession eq_refl).
Defined.

(** *** Replays among other turns *)

Lemma replayed_same k c st st' :
  sent st' = sent st -> replayed k c st' = replayed k c st.
Proof. unfold replayed. by intros ->. Qed.

Lemma replayed_other k c st st' s :
  sent st' = sent st ++ [s] -> sent_by s <> ByReplay k ->
  replayed k c st' = replayed k c st.
Proof.
  intros Hs Hby. rewrite (replayed_app k c st st' [s] Hs).
  rewrite omap_cons_eq. unfold replayEventOf at 1.
  destruct (sent_by s) as [|k'] eqn:Hk; [apply app_nil_r|].
  destruct (data (sent_msg s)); try apply app_nil_r.
  rewrite (bool_decide_eq_false_2 (k' = k)) by congruence.
  apply app_nil_r.
Qed.

Lemma replayed_own k c c' now e st st' :
  sent st' = sent st ++ [sentByReplay k c now e] ->
  replayed k c' st'
  = replayed k c' st ++ (if bool_decide (c = c') then [e] else []).
Proof.
  intros Hs. rewrite (replayed_app k c' st st' _ Hs). f_equal.
  rewrite omap_cons_eq. unfold replayEventOf. simpl.
  rewrite bool_decide_eq_true_2 by done. simpl.
  by case_bool_decide.
Qed.

(** A turn of a route leaves the replays that run alone and sends nothing
    for them. *)
Lemma route_turn_frame t st k :
  (forall k' d, t <> Resume k' d) -> (k < nextTask st)%nat ->
  tasks (step t st) !! k = tasks st !! k
  /\ (nextTask st <= nextTask (step t st))%nat
  /\ eventsTable (step t st) = eventsTable st
  /\ forall c, replayed k c (step t st) = replayed k c st.
Proof.
  intros Hroute Hk. destruct t as [c|c|c m d|k' d]; simpl;
    [done | done | | by destruct (Hroute k' d)].
  rewrite handleMessage_dispatch.
  pose proof (sendToConnection_shape ByHandler c (dispatch c m st).2 d
                (dispatch c m st).1) as (-> & -> & -> & _ & _ & Hsent).
  destruct (dispatch_shape c m st)
    as (Hs & -> & _ & _ & _ & _ & Hshape).
  assert (Hrep : forall c0,
    replayed k c0 (sendToConnection ByHandler c (dispatch c m st).2 d
                     (dispatch c m st).1)
    = replayed k c0 st).
  { intros c0. destruct d.
    - erewrite replayed_other; [|exact Hsent|done].
      by apply replayed_same.
    - apply replayed_same. by rewrite Hsent. }
  destruct Hshape as [Hst|(conn & conn' & _ & _ & _ & _
                           & [[Ht Hn]|(cfg & _ & Ht & Hn)])].
  - split; [by rewrite Hst|]. split; [by rewrite Hst|]. by split.
  - split; [by rewrite Ht|]. split; [by rewrite Hn|]. by split.
  - split; [rewrite Ht, lookup_insert_ne; [done | lia]|].
    split; [rewrite Hn; lia|]. by split.
Qed.

(** The turn of another replay likewise. *)
Lemma other_replay_frame k' d st k :
  k' <> k ->
  tasks (resumeReplay k' d st) !! k = tasks st !! k
  /\ nextTask (resumeReplay k' d st) = nextTask st
  /\ eventsTable (resumeReplay k' d st) = eventsTable st
  /\ forall c, replayed k c (resumeReplay k' d st) = replayed k c st.
Proof.
  intros Hne. destruct (tasks st !! k') as [t|] eqn:Ht.
  - destruct (resumeReplay_shape k' d st t Ht)
      as (-> & -> & _ & [(_ & Hs & -> & _)
                         |(e & rest & _ & _ & -> & _ & Hs)]).
    + repeat split; try done; [by rewrite lookup_delete_ne|].
      intros c. by apply replayed_same.
    + repeat split; try done; [by rewrite lookup_insert_ne|].
      intros c. destruct d; [|by apply replayed_same].
      eapply replayed_other; [exact Hs|]. simpl. congruence.
  - unfold resumeReplay. by rewrite Ht.
Qed.

(** A replay that has returned sends nothing more, whatever follows:
    no later replay gets its number. *)
Lemma returned_replay_is_silent turns :
  forall st k, tasks st !! k = None -> (k < nextTask st)%nat ->
  forall c, replayed k c (run turns st) = replayed k c st.
Proof.
  induction turns as [|t turns IH]; intros st k Ht Hk c; [done|].
  simpl.
  assert (H : tasks (step t st) !! k = None
              /\ (k < nextTask (step t st))%nat
              /\ replayed k c (step t st) = replayed k c st).
  { destruct t as [c'|c'|c' m d|k' d].
    - destruct (route_turn_frame (Connect c') st k) as (H1 & H2 & _ & H3);
        [done | done |].
      split; [by rewrite H1|]. split; [lia | apply H3].
    - destruct (route_turn_frame (Disconnect c') st k) as (H1 & H2 & _ & H3);
        [done | done |].
      split; [by rewrite H1|]. split; [lia | apply H3].
    - destruct (route_turn_frame (Message c' m d) st k) as (H1 & H2 & _ & H3);
        [done | done |].
      split; [by rewrite H1|]. split; [lia | apply H3].
    - simpl. destruct (decide (k' = k)) as [->|Hne].
      + unfold resumeReplay. by rewrite Ht.
      + destruct (other_replay_frame k' d st k Hne) as (-> & -> & _ & ->).
        by repeat split. }
  destruct H as (H1 & H2 & <-). by apply IH.
Qed.

(** X19.  Whatever turns come between, in whatever order, and whichever
    deliveries fail: the events a running replay delivers from now on are
    some of the events it has yet to deliver, each at most once and in
    their order, and it delivers them to its own connection only. *)
Theorem replay_delivers_in_order_among_other_turns turns :
  forall st k t,
  tasks st !! k = Some t -> (k < nextTask st)%nat ->
  (exists delivered,
     replayed k (owner t) (run turns st)
     = replayed k (owner t) st ++ delivered
     /\ delivered `sublist_of` pending (eventsTable st) t)
  /\ forall c, c <> owner t ->
       replayed k c (run turns st) = replayed k c st.
Proof.
  induction turns as [|turn turns IH]; intros st k t Ht Hk.
  { split; [|done]. exists []. split; [by rewrite app_nil_r|].
    apply sublist_nil_l. }
  simpl.
  assert (Hframe : forall st1,
    tasks st1 !! k = tasks st !! k -> (nextTask st <= nextTask st1)%nat ->
    eventsTable st1 = eventsTable st ->
    (forall c, replayed k c st1 = replayed k c st) ->
    (exists delivered,
       replayed k (owner t) (run turns st1)
       = replayed k (owner t) st ++ delivered
       /\ delivered `sublist_of` pending (eventsTable st) t)
    /\ forall c, c <> owner t ->
         replayed k c (run turns st1) = replayed k c st).
  { intros st1 H1 H2 H3 H4.
    destruct (IH st1 k t) as [(later & Hlater & Hsub) Hothers];
      [by rewrite H1 | lia |].
    split.
    - exists later. rewrite Hlater, H4. split; [done|]. by rewrite <- H3.
    - intros c Hc. rewrite (Hothers c Hc). apply H4. }
  destruct turn as [c'|c'|c' m d|k' d].
  - destruct (route_turn_frame (Connect c') st k) as (? & ? & ? & ?);
      [done | done |]. by apply Hframe.
  - destruct (route_turn_frame (Disconnect c') st k) as (? & ? & ? & ?);
      [done | done |]. by apply Hframe.
  - destruct (route_turn_frame (Message c' m d) st k) as (? & ? & ? & ?);
      [done | done |]. by apply Hframe.
  - destruct (decide (k' = k)) as [->|Hne].
    2:{ destruct (other_replay_frame k' d st k Hne) as (? & ? & ? & ?).
        apply Hframe; try done. simpl. lia. }
    simpl.
    destruct (resumeReplay_shape k d st t Ht)
      as (Htbl & Hnext & _ & [(_ & Hs & Htasks & _)
                              |(e & rest & Hp & _ & Htasks & _ & Hs)]).
    + assert (Hdead : tasks (resumeReplay k d st) !! k = None)
        by (rewrite Htasks; apply lookup_delete_eq).
      split.
      * exists []. rewrite app_nil_r. split; [|apply sublist_nil_l].
        rewrite returned_replay_is_silent by (done || lia).
        by apply replayed_same.
      * intros c _.
        rewrite returned_replay_is_silent by (done || lia).
        by apply replayed_same.
    + assert (Hnow : tasks (resumeReplay k d st) !! k
                     = Some (Delivering (owner t) rest))
        by (rewrite Htasks; apply lookup_insert_eq).
      destruct (IH (resumeReplay k d st) k _ Hnow ltac:(lia))
        as [(later & Hlater & Hsub) Hothers].
      simpl in Hlater, Hsub, Hothers.
      rewrite Hp. destruct d.
      * split.
        -- exists (e :: later). split; [|by apply sublist_skip].
           rewrite Hlater.
           rewrite (replayed_own k (owner t) (owner t) (clock st) e st _ Hs).
           rewrite bool_decide_eq_true_2 by done.
           by rewrite <- app_assoc.
        -- intros c Hc. rewrite (Hothers c Hc).
           rewrite (replayed_own k (owner t) c (clock st) e st _ Hs).
           rewrite bool_decide_eq_false_2 by congruence.
           apply app_nil_r.
      * split.
        -- exists later. split; [|by apply sublist_cons].
           rewrite Hlater. f_equal. by apply replayed_same.
        -- intros c Hc. rewrite (Hothers c Hc). by apply replayed_same.
Qed.

Lemma replay_delivers_in_order_among_other_turns_witness :
  exists delivered,
    replayed 0 "c1"
      (run [Resume 0 true;
            Message "c1" (Examples.msg stop_replay) true;
            Message "c1"
              (Examples.msg (start_replay (Examples.mkConfig None))) true;
            Resume 0 false; Resume 1 true; Resume 0 true]
         (Examples.replayRequested (Examples.mkConfig None)))
    = replayed 0 "c1" (Examples.replayRequested (Examples.mkConfig None))
      ++ delivered
    /\ delivered `sublist_of` [Examples.e1200; Examples.e3400; Examples.e4800].
Proof.
  destruct (replay_delivers_in_order_among_other_turns
              [Resume 0 true;
               Message "c1" (Examples.msg stop_replay) true;
               Message "c1"
                 (Examples.msg (start_replay (Examples.mkConfig None))) true;
               Resume 0 false; Resume 1 true; Resume 0 true]
              (Examples.replayRequested (Examples.mkConfig None)) 0%nat
              (Fetching "c1" (Examples.mkConfig None))
              eq_refl ltac:(vm_compute; lia)) as [(delivered & H1 & H2) _].
  exists delivered. split; [exact H1 | exact H2].
Defined.

(** *** Broadcast *)

Lemma broadcast_fold event now delivered (ks : list string) :
  forall st, NoDup ks ->
  let st' :=
    foldl (fun s c =>
             sendToConnection ByHandler c (eventMessage event now)
               (delivered c) s) st ks in
  (forall c, connections st' !! c
             = if bool_decide (c ∈ ks) && negb (delivered c)
               then None else connections st !! c)
  /\ tasks st' = tasks st
  /\ sent st'
     = sent st ++ map (sentByBroadcast event now)
                      (List.filter delivered ks).
Proof.
  induction ks as [|k ks IH]; intros st Hnd; simpl.
  { repeat split; try done. by rewrite app_nil_r. }
  apply NoDup_cons in Hnd as [Hk Hnd].
  pose proof (sendToConnection_shape ByHandler k (eventMessage event now)
                (delivered k) st) as (_ & Ht & _ & _ & Hc & Hs).
  destruct (IH (sendToConnection ByHandler k (eventMessage event now)
                  (delivered k) st) Hnd) as (IHc & IHt & IHs).
  split; [|split].
  - intros c. rewrite IHc, Hc.
    destruct (decide (c = k)) as [->|Hne].
    + rewrite (bool_decide_eq_false_2 (k ∈ ks)) by done.
      rewrite (bool_decide_eq_true_2 (k ∈ k :: ks)) by (by left).
      simpl. destruct (delivered k); simpl; [done|].
      apply lookup_delete_eq.
    + rewrite (bool_decide_ext (c ∈ k :: ks) (c ∈ ks)).
      2:{ rewrite elem_of_cons. split; [by intros [?|?] | by right]. }
      destruct (bool_decide (c ∈ ks) && negb (delivered c)); [done|].
      destruct (delivered k); [done|]. by rewrite lookup_delete_ne.
  - by rewrite IHt.
  - rewrite IHs, Hs. destruct (delivered k); simpl; [|done].
    by rewrite <- app_assoc.
Qed.

(** X20.  [broadcastEvent] sends the event to every session of the
    registry, whatever the session subscribed to: a session whose delivery
    succeeds gets the message once and keeps its entry, a session whose
    delivery fails gets nothing and is removed.  No replay is touched. *)
Theorem broadcast_reaches_every_session event delivered st :
  (forall c, connections (broadcastEvent event delivered st) !! c
             = if delivered c then connections st !! c else None)
  /\ tasks (broadcastEvent event delivered st) = tasks st
  /\ exists recipients,
       NoDup recipients
       /\ (forall c, c ∈ recipients
                     <-> is_Some (connections st !! c) /\ delivered c = true)
       /\ sent (broadcastEvent event delivered st)
          = sent st ++ map (sentByBroadcast event (clock st)) recipients.
Proof.
  unfold broadcastEvent.
  set (ks := (map_to_list (connections st)).*1).
  assert (Hnd : NoDup ks) by apply NoDup_fst_map_to_list.
  assert (Hks : forall c, c ∈ ks <-> is_Some (connections st !! c)).
  { intros c. unfold ks. rewrite list_elem_of_fmap. split.
    - intros ([c' conn] & -> & H). apply elem_of_map_to_list in H.
      by exists conn.
    - intros [conn H]. exists (c, conn). split; [done|].
      by apply elem_of_map_to_list. }
  destruct (broadcast_fold event (clock st) delivered ks st Hnd)
    as (Hc & Ht & Hs).
  split; [|split; [done|]].
  - intros c. rewrite Hc. case_bool_decide as Hin; simpl.
    + by destruct (delivered c).
    + destruct (connections st !! c) eqn:Hl; [|by destruct (delivered c)].
      destruct Hin. apply Hks. by eexists.
  - exists (List.filter delivered ks). split; [by apply filter_NoDup|].
    split; [|done].
    intros c. by rewrite ListExtras.filter_elem, Hks.
Qed.

(** *** Queries *)

Lemma flat_map_length_le {A B : Type} (f : A -> list B) (n : nat)
    (l : list A) :
  (forall x, (length (f x) <= n)%nat) ->
  (length (List.flat_map f l) <= length l * n)%nat.
Proof.
  intros H. induction l as [|x l IH]; simpl; [done|].
  rewrite length_app. specialize (H x). lia.
Qed.

Lemma query_length {Item : Type} (kc : Item -> bool)
    (order : Item -> Item -> bool) (n : nat) (fe : Item -> bool)
    (table : list Item) :
  (length (Ddb.query kc order n fe table) <= n)%nat.
Proof.
  unfold Ddb.query.
  etransitivity; [apply ListExtras.filter_length|].
  rewrite length_take. lia.
Qed.

(** X21.  With a source named, the query reads neither the types nor the
    tags nor the offset of the filters: two requests that agree on sources,
    window and limit get the same answer, and every event of the answer is
    of a named source. *)
Theorem sources_take_precedence table filters filters' s r :
  f_sources filters = Some (s :: r) ->
  f_sources filters' = f_sources filters ->
  f_startTime filters' = f_startTime filters ->
  f_endTime filters' = f_endTime filters ->
  f_limit filters' = f_limit filters ->
  queryEventsFromDynamoDB table filters'
  = queryEventsFromDynamoDB table filters
  /\ forall e, e ∈ queryEventsFromDynamoDB table filters ->
       source e ∈ s :: r.
Proof.
  intros Hs Hs' Hst Hen Hl. unfold queryEventsFromDynamoDB.
  rewrite Hs', Hst, Hen, Hl, Hs.
  change (nonEmpty (Some (s :: r))) with (Some (s :: r)).
  split; [done|].
  intros e H. apply list_elem_of_fmap in H as (i & -> & Hi).
  apply list_elem_of_In, in_flat_map in Hi as (k & Hk & Hi).
  apply list_elem_of_In, DdbFacts.query_elem in Hi as (_ & Hkc & _).
  apply andb_true_iff in Hkc as [Hkc _].
  apply bool_decide_eq_true in Hkc. rewrite Hkc.
  by apply list_elem_of_In.
Qed.

Lemma sources_take_precedence_witness :
  queryEventsFromDynamoDB Examples.threeEvents
    (replayFilters (Examples.mkConfig (Some Examples.labReadings)))
  = queryEventsFromDynamoDB Examples.threeEvents
      (replayFilters
         (Examples.mkConfig
            (Some {| r_sources := Some ["iot_sensors"]; r_types := None;
                     r_tags := None |}))).
Proof.
  apply (sources_take_precedence Examples.threeEvents
           (replayFilters
              (Examples.mkConfig
                 (Some {| r_sources := Some ["iot_sensors"]; r_types := None;
                          r_tags := None |})))
           (replayFilters (Examples.mkConfig (Some Examples.labReadings)))
           "iot_sensors" []); reflexivity.
Defined.

(** X22.  A query by source or by type applies the window only when both
    bounds are given and non-zero: with one bound absent or zero the answer
    is that of the query without a window. *)
Theorem half_window_is_ignored_by_index_queries table filters :
  is_Some (nonEmpty (f_sources filters))
  \/ is_Some (nonEmpty (f_types filters)) ->
  truthyNum (f_startTime filters) && truthyNum (f_endTime filters) = false ->
  queryEventsFromDynamoDB table filters
  = queryEventsFromDynamoDB table (withWindow filters None None).
Proof.
  intros Hidx Hw. unfold queryEventsFromDynamoDB, withWindow. simpl.
  rewrite Hw.
  destruct (nonEmpty (f_sources filters)) as [srcs|]; [done|].
  destruct (nonEmpty (f_types filters)) as [tys|]; [done|].
  by destruct Hidx as [[? ?]|[? ?]].
Qed.

Lemma half_window_is_ignored_by_index_queries_witness :
  queryEventsFromDynamoDB Examples.threeEvents
    {| f_sources := Some ["iot_sensors"]; f_types := None;
       f_startTime := Some 4000; f_endTime := None; f_tags := None;
       f_limit := None; f_offset := None |}
  = queryEventsFromDynamoDB Examples.threeEvents
      {| f_sources := Some ["iot_sensors"]; f_types := None;
         f_startTime := None; f_endTime := None; f_tags := None;
         f_limit := None; f_offset := None |}.
Proof.
  apply (half_window_is_ignored_by_index_queries Examples.threeEvents
           {| f_sources := Some ["iot_sensors"]; f_types := None;
              f_startTime := Some 4000; f_endTime := None; f_tags := None;
              f_limit := None; f_offset := None |}).
  - left. by eexists.
  - reflexivity.
Defined.

(** X23.  The limit bounds each call, not the answer: an answer holds at
    most [limit] events per named source, or per named type when no source
    is named, and at most [limit] events otherwise. *)
Theorem limit_bounds_each_call table filters :
  1 <= default 100 (f_limit filters) ->
  (length (queryEventsFromDynamoDB table filters)
   <= callsIssued filters * Z.to_nat (default 100%Z (f_limit filters)))%nat.
Proof.
  intros _. unfold queryEventsFromDynamoDB, callsIssued.
  destruct (nonEmpty (f_sources filters)) as [srcs|].
  { rewrite length_map. apply flat_map_length_le.
    intros x. apply query_length. }
  destruct (nonEmpty (f_types filters)) as [tys|].
  { rewrite length_map. apply flat_map_length_le.
    intros x. apply query_length. }
  rewrite length_map. unfold Ddb.scan.
  etransitivity; [apply ListExtras.filter_length|].
  rewrite length_take. lia.
Qed.

Lemma limit_bounds_each_call_witness :
  (length (queryEventsFromDynamoDB Examples.threeEvents
             (replayFilters (Examples.mkConfig None)))
   <= 1 * 1000)%nat.
Proof.
  apply (limit_bounds_each_call Examples.threeEvents
           (replayFilters (Examples.mkConfig None))).
  simpl. lia.
Defined.

(** *** Stopping a replay *)

(** X29.  A [stop_replay] message of a connection and the removal of the
    connection both leave the connection without a replay configuration,
    in every state and whether or not the response is delivered. *)
Theorem stop_and_disconnect_clear_replay st c rid d :
  replayCleared
    (step (Message c {| request := stop_replay; requestId := rid |} d) st) c
  /\ replayCleared (step (Disconnect c) st) c.
Proof.
  split.
  - simpl. unfold handleMessage. simpl. unfold handleStopReplay.
    destruct (connections st !! c) as [conn|] eqn:Hc;
      unfold sendToConnection, replayCleared; destruct d; simpl.
    + by rewrite lookup_insert_eq.
    + by rewrite lookup_delete_eq.
    + by rewrite Hc.
    + by rewrite lookup_delete_eq.
  - unfold replayCleared. simpl. by rewrite lookup_delete_eq.
Qed.

End WebSocketExtras.

(** ** The event processor *)
Module EventProcessorExtras.
Import Js EventProcessor.
Local Open Scope list_scope.

#[local] Arguments wellKeyed : simpl never.
#[local] Arguments objectKey : simpl never.

Ltac run_handler :=
  unfold handler, tryCatch, storeEventInDynamoDB, storeEventInS3,
    emitProcessedEvent, emitErrorEvent, putItem, putObject, putEvents,
    consoleLogOf, consoleLog, dateNow, throw, mbind, M_bind, mret, M_ret; simpl.

(** Case analysis on the next call that may reject or throw. *)
Ltac next_call H :=
  match type of H with
  | context [wellKeyed ?i] =>
      let Hc := fresh "Hkeyed" in
      destruct (wellKeyed i) eqn:Hc; simpl in H
  | context [putRejects ?sv ?i] =>
      let Hc := fresh "Hput" in
      destruct (putRejects sv i) eqn:Hc; simpl in H
  | context [objectKey ?v] =>
      let Hc := fresh "Hkey" in
      destruct (objectKey v) eqn:Hc; simpl in H
  | context [if nullish ?v then _ else _] =>
      let Hc := fresh "Hnull" in
      destruct (nullish v) eqn:Hc; simpl in H
  | context [match ToString ?v with _ => _ end] =>
      let Hc := fresh "Hstring" in
      destruct (ToString v) eqn:Hc; simpl in H
  | context [putObjectRejects ?sv ?k ?o] =>
      let Hc := fresh "Hobject" in
      destruct (putObjectRejects sv k o) eqn:Hc; simpl in H
  | context [putEventsRejects ?sv ?e] =>
      let Hc := fresh "Hentry" in
      destruct (putEventsRejects sv e) eqn:Hc; simpl in H
  | context [if invalid ?v then _ else _] =>
      let Hc := fresh "Hinvalid" in
      destruct (invalid v) eqn:Hc; simpl in H
  end.

Lemma nullish_invalid v : nullish v = true -> invalid v = true.
Proof. by destruct v. Qed.

(** An item that fits the keys comes from an event whose id, source and
    type are strings and whose timestamp is a number: the key of its object
    and the text of its timestamp exist. *)
Lemma wellKeyed_strings item :
  wellKeyed item = true ->
  (exists i, item_id item = JStr i) /\ (exists t, item_timestamp item = JNum t)
  /\ (exists s, item_source item = JStr s) /\ (exists t, item_type item = JStr t).
Proof.
  unfold wellKeyed, keyString. rewrite !andb_true_iff.
  destruct (item_id item), (item_timestamp item), (item_source item),
    (item_type item); intros [[[? ?] ?] ?]; try discriminate;
    repeat split; eauto.
Qed.

(** What the handler has checked of an event makes its strings keys. *)
Lemma truthy_keyString s : truthy (JStr s) = keyString (JStr s).
Proof. reflexivity. Qed.

(** X24.  A response that reports success means that all three steps were
    taken: the event is an item of the table under its id and timestamp, an
    item that fits the keys of the table; it is an object of the bucket
    under its key, with the event as body; and the one entry the invocation
    put on the bus announces it as processed. *)
Theorem success_means_stored_archived_announced sv detail w response w' :
  handler sv detail w = (Ok response, w') -> success response = true ->
  exists eventData item key object t,
    detail = Parsed eventData /\ invalid eventData = false
    /\ eventId response = member "id" eventData
    /\ errors response = None
    /\ wellKeyed item = true
    /\ eventsTable w' = Ddb.put sameKey item (eventsTable w)
    /\ item_id item = member "id" eventData
    /\ item_timestamp item = member "timestamp" eventData
    /\ item_source item = member "source" eventData
    /\ item_type item = member "type" eventData
    /\ item_data item = member "data" eventData
    /\ objectKey eventData = Some key
    /\ bucket w' = <[key := object]> (bucket w)
    /\ body object = eventData
    /\ eventBus w' = eventBus w ++ [EventProcessed eventData t].
Proof.
  run_handler. intros H Hs.
  destruct detail as [m|v]; simpl in H.
  { repeat next_call H; try discriminate H. }
  repeat next_call H; try discriminate H;
    injection H as Hr Hw; subst response w'; try discriminate Hs;
    do 5 eexists; simpl; repeat split; first [reflexivity | eassumption].
Qed.

Lemma success_means_stored_archived_announced_witness :
  exists t,
    eventBus
      (handler EventExamples.allAccepted (Parsed EventExamples.reading1200)
         EventExamples.emptyWorld).2
    = [EventProcessed EventExamples.reading1200 t].
Proof.
  destruct (handler EventExamples.allAccepted
              (Parsed EventExamples.reading1200) EventExamples.emptyWorld)
    as [[response|e] w'] eqn:Hrun;
    [|vm_compute in Hrun; discriminate Hrun].
  destruct (success_means_stored_archived_announced
              EventExamples.allAccepted (Parsed EventExamples.reading1200)
              EventExamples.emptyWorld response w' Hrun)
    as (v' & item & key & object & t & Hd & _ & _ & _ & _ & _ & _ & _ & _ & _
        & _ & _ & _ & _ & Hbus).
  - pose proof Hrun as Hrun'. vm_compute in Hrun'. by injection Hrun' as <- _.
  - injection Hd as <-. by exists t.
Defined.



(** X26.  For a detail that does not parse, or that parses to [null] or is
    [undefined], the handler does not return: after the error entry is on
    the bus, writing the line for the console throws, and if the bus rejects
    the entry, that rejection is thrown.  Nothing is stored. *)
Theorem absent_event_makes_the_handler_throw sv detail w :
  nullish (eventDataOf detail) = true ->
  exists e w',
    handler sv detail w = (Thrown e, w')
    /\ eventsTable w' = eventsTable w /\ bucket w' = bucket w
    /\ ((exists m, e = Rejected m /\ eventBus w' = eventBus w)
        \/ (exists m message t,
              e = TypeError m
              /\ eventBus w'
                 = eventBus w ++ [EventError (eventDataOf detail) message t])).
Proof.
  intros Hn.
  destruct (handler sv detail w) as [r w'] eqn:H. revert H. run_handler.
  intros H.
  destruct detail as [m|v]; simpl in *.
  - repeat next_call H; injection H as <- <-; do 2 eexists;
      (split; [reflexivity|]); simpl; repeat split; eauto 10.
  - destruct v; try discriminate Hn; simpl in H;
      repeat next_call H; injection H as <- <-; do 2 eexists;
      (split; [reflexivity|]); simpl; repeat split; eauto 10.
Qed.

Lemma absent_event_makes_the_handler_throw_witness :
  exists e w',
    handler EventExamples.allAccepted (Parsed JNull) EventExamples.emptyWorld
    = (Thrown e, w').
Proof.
  destruct (absent_event_makes_the_handler_throw EventExamples.allAccepted
              (Parsed JNull) EventExamples.emptyWorld eq_refl)
    as (e & w' & H & _).
  by exists e, w'.
Defined.

Ltac nothing_stored H :=
  repeat next_call H; injection H as <- <-; simpl;
  (repeat split; try done);
  try (intros entry He; by left);
  try (intros entry [He|He%list_elem_of_singleton]%elem_of_app;
       [by left | right; eauto]);
  try (by intros response [= <-]).

(** X27.  An event that lacks an id, a source or a type, an event whose
    timestamp is not a number, and an event whose item the table rejects,
    is neither stored nor archived nor announced as processed, and is not
    reported as a success: the later steps are not attempted. *)
Theorem nothing_is_stored_after_an_early_failure sv detail w :
  invalid (eventDataOf detail) = true
  \/ (forall item, is_Some (putRejects sv item))
  \/ (forall n, member "timestamp" (eventDataOf detail) <> JNum n) ->
  eventsTable (handler sv detail w).2 = eventsTable w
  /\ bucket (handler sv detail w).2 = bucket w
  /\ (forall entry, entry ∈ eventBus (handler sv detail w).2 ->
        entry ∈ eventBus w
        \/ exists message t, entry = EventError (eventDataOf detail) message t)
  /\ forall response, (handler sv detail w).1 = Ok response ->
       success response = false.
Proof.
  intros Hearly.
  destruct (handler sv detail w) as [r w'] eqn:H. revert H. run_handler.
  intros H.
  destruct detail as [m|v]; simpl in *.
  - nothing_stored H.
  - destruct (invalid v) eqn:Hi; simpl in H; [nothing_stored H|].
    match type of H with
    | context [wellKeyed ?i] =>
        destruct (wellKeyed i) eqn:Hkeyed; simpl in H; [|nothing_stored H];
        apply wellKeyed_strings in Hkeyed as (_ & [n Hn] & _); simpl in Hn
    end.
    destruct Hearly as [?|[Hrej|Hts]]; [done| |by destruct (Hts n)].
    match type of H with
    | context [putRejects sv ?i] =>
        destruct (Hrej i) as [m Hm]; rewrite Hm in H; simpl in H
    end.
    nothing_stored H.
Qed.

Lemma nothing_is_stored_after_an_early_failure_witness :
  eventsTable
    (handler EventExamples.allAccepted (Parsed EventExamples.noSource)
       EventExamples.emptyWorld).2
  = [].
Proof.
  exact (proj1 (nothing_is_stored_after_an_early_failure
           EventExamples.allAccepted (Parsed EventExamples.noSource)
           EventExamples.emptyWorld (or_introl eq_refl))).
Defined.

(** X28.  Nothing is undone: when the table accepts the item and the
    bucket then rejects the object, the item stays in the table, the bucket
    is as it was, the event is not announced as processed, and the handler
    does not report success. *)
Theorem failed_archive_leaves_the_item_stored sv eventData w :
  invalid eventData = false ->
  (exists i t s ty,
     member "id" eventData = JStr i /\ member "timestamp" eventData = JNum t
     /\ member "source" eventData = JStr s
     /\ member "type" eventData = JStr ty) ->
  (forall item, putRejects sv item = None) ->
  (forall key object, is_Some (putObjectRejects sv key object)) ->
  (exists item,
     item_id item = member "id" eventData
     /\ item_timestamp item = member "timestamp" eventData
     /\ eventsTable (handler sv (Parsed eventData) w).2
        = Ddb.put sameKey item (eventsTable w))
  /\ bucket (handler sv (Parsed eventData) w).2 = bucket w
  /\ (forall entry, entry ∈ eventBus (handler sv (Parsed eventData) w).2 ->
        entry ∈ eventBus w
        \/ exists message t, entry = EventError eventData message t)
  /\ forall response, (handler sv (Parsed eventData) w).1 = Ok response ->
       success response = false.
Proof.
  intros Hi (i & t & s & ty & Hid & Hts & Hsrc & Hty) Hput Hrej.
  assert (Hkeys : keyString (JStr i) && true && keyString (JStr s)
                  && keyString (JStr ty) = true).
  { unfold invalid in Hi. rewrite Hid, Hsrc, Hty in Hi.
    rewrite !orb_false_iff, !negb_false_iff in Hi.
    destruct Hi as [[[_ H1] H2] H3].
    by rewrite <- !truthy_keyString, H1, H2, H3. }
  destruct (handler sv (Parsed eventData) w) as [r w'] eqn:H. revert H.
  run_handler. rewrite Hi. simpl.
  unfold wellKeyed, objectKey. simpl. rewrite Hid, Hts, Hsrc, Hty.
  rewrite Hkeys. simpl.
  rewrite Hput. simpl.
  intros H.
  match type of H with
  | context [putObjectRejects sv ?k ?o] =>
      destruct (Hrej k o) as [m Hm]; rewrite Hm in H; simpl in H
  end.
  repeat next_call H; injection H as <- <-; simpl;
    (split; [eexists; split; [|split]; [| |reflexivity]; done|]);
    (repeat split; try done);
    try (intros entry He; by left);
    try (intros entry [He|He%list_elem_of_singleton]%elem_of_app;
         [by left | right; eauto]);
    try (by intros response [= <-]).
Qed.

Lemma failed_archive_leaves_the_item_stored_witness :
  (exists item,
     item_id item = JStr "e1"
     /\ item_timestamp item = JNum (of_Z 1200)
     /\ eventsTable
          (handler EventExamples.bucketDenied
             (Parsed EventExamples.reading1200) EventExamples.emptyWorld).2
        = [item])
  /\ bucket
       (handler EventExamples.bucketDenied (Parsed EventExamples.reading1200)
          EventExamples.emptyWorld).2
     = ∅.
Proof.
  destruct (failed_archive_leaves_the_item_stored EventExamples.bucketDenied
              EventExamples.reading1200 EventExamples.emptyWorld eq_refl)
    as (Hitem & Hbucket & _).
  - by exists "e1", (of_Z 1200), "iot_sensors", "sensor_reading".
  - done.
  - intros key object. by eexists.
  - split; [|exact Hbucket].
    destruct Hitem as (item & Hid & Hts & Htable). by exists item.
Defined.

End EventProcessorExtras.
